(** * log2quickwit: ingestion pipeline and eduroam query tools

    A shallow embedding of the Go sources of the repository:
    - [Ingest]  : log2quickwit v1.5.5 (src/v1.5.5/main.go);
    - [Realm]   : eduroam-accept v2.2.0 (the realm-side query tool);
    - [SP]      : eduroam-sp v2.2.2 (the service-provider-side query tool).

    The Go standard-library functions the sources call are modelled in
    [Go], each next to a note of the library routine it follows. *)

From Stdlib Require Import ZArith Ascii List Lia Bool.
From Stdlib Require Sorting.Sorted Sorting.Permutation.
From Stdlib Require Floats.SpecFloat.
From stdpp Require Import gmap strings list sorting pretty.

Local Open Scope Z_scope.
Set Warnings "-clear-no-such-hyp".

(** ** The Go run time and library *)

Module Go.

(** A Go [error] value: [None] is [nil], [Some msg] carries [err.Error()]. *)
Definition error := option string.

(** The outcome of running a piece of Go code: it returns, or the
    goroutine panics (index out of range, failed type assertion, ...). *)
Inductive run (A : Type) : Type :=
| Done (a : A)
| Panicked (why : string).
Arguments Done {A} a.
Arguments Panicked {A} why.

Global Instance run_ret : MRet run := λ A a, Done a.
Global Instance run_bind : MBind run := λ A B k m,
  match m with
  | Done a => k a
  | Panicked w => Panicked w
  end.

(** [len(s)]. *)
Definition len {A} (s : list A) : Z := Z.of_nat (length s).

(** [s[i]] on a slice: a run-time panic when [i] is out of range. *)
Definition index {A} (s : list A) (i : Z) : run A :=
  if (i <? 0) || (Z.of_nat (length s) <=? i) then Panicked "index out of range"
  else match s !! Z.to_nat i with
       | Some x => Done x
       | None => Panicked "index out of range"
       end.

(** [s[lo:hi]] on a slice whose capacity equals its length (the slices
    [strings.Fields] returns are allocated with exactly that size). *)
Definition slice {A} (s : list A) (lo hi : Z) : run (list A) :=
  if (lo <? 0) || (hi <? lo) || (Z.of_nat (length s) <? hi)
  then Panicked "slice bounds out of range"
  else Done (take (Z.to_nat (hi - lo)) (drop (Z.to_nat lo) s)).

(** *** package strings (byte strings; every function is byte-wise) *)

Fixpoint HasPrefix (s p : string) : bool :=
  match p, s with
  | EmptyString, _ => true
  | String c p', String d s' => if Ascii.eqb c d then HasPrefix s' p' else false
  | String _ _, EmptyString => false
  end.

Fixpoint Contains (s sub : string) : bool :=
  if HasPrefix s sub then true
  else match s with
       | EmptyString => false
       | String _ s' => Contains s' sub
       end.

Fixpoint dropS (n : nat) (s : string) : string :=
  match n, s with
  | O, _ => s
  | S n', String _ s' => dropS n' s'
  | S _, EmptyString => EmptyString
  end.

Fixpoint takeS (n : nat) (s : string) : string :=
  match n, s with
  | O, _ => EmptyString
  | S n', String c s' => String c (takeS n' s')
  | S _, EmptyString => EmptyString
  end.

Definition HasSuffix (s suf : string) : bool :=
  (String.length suf <=? String.length s)%nat &&
  String.eqb (dropS (String.length s - String.length suf) s) suf.

Definition TrimSuffix (s suf : string) : string :=
  if HasSuffix s suf then takeS (String.length s - String.length suf) s else s.

(** [strings.Index(s, sub)] for a one-byte [sub]: the position of the
    first occurrence, or -1. *)
Fixpoint IndexByte (s : string) (c : ascii) : Z :=
  match s with
  | EmptyString => -1
  | String d s' =>
      if Ascii.eqb c d then 0
      else let r := IndexByte s' c in if r <? 0 then -1 else r + 1
  end.

Fixpoint Join (parts : list string) (sep : string) : string :=
  match parts with
  | [] => EmptyString
  | [p] => p
  | p :: rest => p +:+ sep +:+ Join rest sep
  end.

(** White space as [strings.Fields] and [strings.TrimSpace] see it on
    ASCII input: tab, new line, vertical tab, form feed, carriage return
    and space. *)
Definition isSpace (c : ascii) : bool :=
  match c with
  | "009" | "010" | "011" | "012" | "013" | " " => true
  | _ => false
  end%char.

(** [strings.Fields] and [strings.TrimSpace] take white space so on a
    string of ASCII bytes.  Once a byte of 0x80 or more occurs they
    decode UTF-8 and ask [unicode.IsSpace], which also holds of U+0085,
    U+00A0 and other code points: such strings are outside the model,
    and statements about lines and tokens are made for [isASCII]
    text. *)
Fixpoint isASCII (s : string) : bool :=
  match s with
  | EmptyString => true
  | String c r => (N_of_ascii c <? 128)%N && isASCII r
  end.

(** [strings.Fields]: the maximal runs of non-space bytes, in order. *)
Fixpoint fieldsGo (cur : option string) (s : string) : list string :=
  match s with
  | EmptyString => option_list (String.rev <$> cur)
  | String a s' =>
      if isSpace a
      then option_list (String.rev <$> cur) ++ fieldsGo None s'
      else fieldsGo (Some (String a (default EmptyString cur))) s'
  end.
Definition Fields (s : string) : list string := fieldsGo None s.

Fixpoint trimLeftBy (f : ascii → bool) (s : string) : string :=
  match s with
  | String c s' => if f c then trimLeftBy f s' else s
  | EmptyString => EmptyString
  end.
Definition trimBy (f : ascii → bool) (s : string) : string :=
  String.rev (trimLeftBy f (String.rev (trimLeftBy f s))).

Definition TrimSpace (s : string) : string := trimBy isSpace s.

Fixpoint inCutset (cutset : string) (c : ascii) : bool :=
  match cutset with
  | EmptyString => false
  | String d r => Ascii.eqb c d || inCutset r c
  end.
(** [strings.Trim(s, cutset)]. *)
Definition Trim (s cutset : string) : string := trimBy (inCutset cutset) s.

(** [strings.SplitN(s, sep, 2)] for a one-byte separator: one part when
    the separator does not occur, else the text before and after its
    first occurrence. *)
Definition SplitN2 (s : string) (sep : ascii) : list string :=
  let i := IndexByte s sep in
  if i <? 0 then [s]
  else [takeS (Z.to_nat i) s; dropS (S (Z.to_nat i)) s].

(** *** package strconv *)

Definition isDigit (c : ascii) : bool :=
  let n := N_of_ascii c in ((48 <=? n) && (n <=? 57))%N.
Definition digitVal (c : ascii) : Z := Z.of_N (N_of_ascii c) - 48.

Fixpoint allDigits (s : string) : bool :=
  match s with
  | EmptyString => true
  | String c s' => isDigit c && allDigits s'
  end.

Fixpoint digitsVal (acc : Z) (s : string) : Z :=
  match s with
  | EmptyString => acc
  | String c s' => digitsVal (acc * 10 + digitVal c) s'
  end.

Definition minInt64 : Z := - 2 ^ 63.
Definition maxInt64 : Z := 2 ^ 63 - 1.

(** [strconv.ParseInt(s, 10, 64)]: an optional sign, then one or more
    decimal digits, the value within int64; anything else is an error.
    On the 64-bit targets [strconv.Atoi] accepts the same strings. *)
Definition ParseInt (s : string) : option Z :=
  let '(neg, body) :=
    match s with
    | String "-" r => (true, r)
    | String "+" r => (false, r)
    | _ => (false, s)
    end in
  match body with
  | EmptyString => None
  | _ =>
      if allDigits body then
        let v := if neg then - digitsVal 0 body else digitsVal 0 body in
        if (minInt64 <=? v) && (v <=? maxInt64) then Some v else None
      else None
  end.
Definition Atoi (s : string) : option Z := ParseInt s.

(** [fmt.Sprintf("%d", n)]. *)
Definition itoa (n : Z) : string := pretty n.

(** Two's-complement wrap-around of int64 arithmetic. *)
Definition wrap64 (z : Z) : Z := (z + 2 ^ 63) mod 2 ^ 64 - 2 ^ 63.

(** *** package time

    An instant is a count of nanoseconds since the Unix epoch together
    with the offset (seconds east of UTC) of its location.  Locations are
    fixed offsets: zones with daylight-saving transitions are outside the
    model, and statements about local days are made for a zone that
    keeps one offset. *)

Record Time := mkTime { nanos : Z; zoneOff : Z }.

Definition second : Z := 1000000000.
Definition hour24 : Z := 24 * 3600 * second.

Definition Unix (t : Time) : Z := nanos t / second.
Definition Before (t u : Time) : bool := nanos t <? nanos u.
Definition After (t u : Time) : bool := nanos u <? nanos t.
Definition Add (t : Time) (d : Z) : Time := mkTime (nanos t + d) (zoneOff t).

Definition isLeap (y : Z) : bool :=
  (y mod 4 =? 0) && (negb (y mod 100 =? 0) || (y mod 400 =? 0)).

Definition daysIn (m y : Z) : Z :=
  if m =? 2 then (if isLeap y then 29 else 28)
  else if (m =? 4) || (m =? 6) || (m =? 9) || (m =? 11) then 30 else 31.

(** Days from 1970-01-01 to the civil date [y-m-d] of the proleptic
    Gregorian calendar, and back. *)
Definition daysFromCivil (y m d : Z) : Z :=
  let y' := if m <=? 2 then y - 1 else y in
  let era := y' / 400 in
  let yoe := y' - era * 400 in
  let mp := (m + 9) mod 12 in
  let doy := (153 * mp + 2) / 5 + d - 1 in
  let doe := yoe * 365 + yoe / 4 - yoe / 100 + doy in
  era * 146097 + doe - 719468.

Definition civilFromDays (z : Z) : Z * Z * Z :=
  let z := z + 719468 in
  let era := z / 146097 in
  let doe := z - era * 146097 in
  let yoe := (doe - doe / 1460 + doe / 36524 - doe / 146096) / 365 in
  let y := yoe + era * 400 in
  let doy := doe - (365 * yoe + yoe / 4 - yoe / 100) in
  let mp := (5 * doy + 2) / 153 in
  let d := doy - (153 * mp + 2) / 5 + 1 in
  let m := if mp <? 10 then mp + 3 else mp - 9 in
  (if m <=? 2 then y + 1 else y, m, d).

(** [time.Date(y, m, d, h, mi, s, ns, loc)]: out-of-range fields carry
    over, which for a fixed offset is a plain sum. *)
Definition Date (y m d h mi s ns off : Z) : Time :=
  let y1 := y + (m - 1) / 12 in
  let m1 := (m - 1) mod 12 + 1 in
  let days := daysFromCivil y1 m1 1 + d - 1 in
  mkTime (ns + second * (s + 60 * mi + 3600 * h + 86400 * days - off)) off.

(** Wall-clock reading of an instant in its own location. *)
Definition wallSec (t : Time) : Z := Unix t + zoneOff t.
Definition civil (t : Time) : Z * Z * Z := civilFromDays (wallSec t / 86400).
Definition Year (t : Time) : Z := (civil t).1.1.
Definition Month (t : Time) : Z := (civil t).1.2.
Definition Day (t : Time) : Z := (civil t).2.

(** [t.AddDate(years, 0, days)]. *)
Definition AddDate (t : Time) (years days : Z) : Time :=
  let sod := wallSec t mod 86400 in
  Date (Year t + years) (Month t) (Day t + days)
       0 0 sod (nanos t mod second) (zoneOff t).

(** Zero-padded decimal, as [appendInt(b, x, width)] writes it. *)
Definition padInt (width : nat) (x : Z) : string :=
  let digits := itoa (Z.abs x) in
  let zeros := String.string_of_list_ascii
                 (replicate (width - String.length digits) "0"%char) in
  (if x <? 0 then "-" else "") +:+ zeros +:+ digits.

(** [t.Format(time.RFC3339)]. *)
Definition FormatRFC3339 (t : Time) : string :=
  let '(y, m, d) := civil t in
  let sod := wallSec t mod 86400 in
  let zone := Z.quot (zoneOff t) 60 in
  padInt 4 y +:+ "-" +:+ padInt 2 m +:+ "-" +:+ padInt 2 d +:+ "T" +:+
  padInt 2 (sod / 3600) +:+ ":" +:+ padInt 2 (sod / 60 mod 60) +:+ ":" +:+
  padInt 2 (sod mod 60) +:+
  (if zoneOff t =? 0 then "Z"
   else (if zone <? 0 then "-" else "+") +:+
        padInt 2 (Z.abs zone / 60) +:+ ":" +:+ padInt 2 (Z.abs zone mod 60)).

(** The elements of the layouts the sources pass to [time.Parse], as
    [nextStdChunk] cuts them. *)
Inductive chunk :=
| Lit (s : string)
| stdLongYear | stdMonth | stdZeroMonth | stdDay | stdZeroDay
| stdHour | stdZeroMinute | stdZeroSecond | stdISO8601ColonTZ.

(** [time.RFC3339 = "2006-01-02T15:04:05Z07:00"]. *)
Definition RFC3339 : list chunk :=
  [stdLongYear; Lit "-"; stdZeroMonth; Lit "-"; stdZeroDay; Lit "T";
   stdHour; Lit ":"; stdZeroMinute; Lit ":"; stdZeroSecond; stdISO8601ColonTZ].
(** ["Jan 2 15:04:05 2006"]. *)
Definition layoutSyslogYear : list chunk :=
  [stdMonth; Lit " "; stdDay; Lit " "; stdHour; Lit ":"; stdZeroMinute;
   Lit ":"; stdZeroSecond; Lit " "; stdLongYear].
(** ["02-01-2006"]. *)
Definition layoutDMY : list chunk :=
  [stdZeroDay; Lit "-"; stdZeroMonth; Lit "-"; stdLongYear].

(** [getnum(s, fixed)]: one or two leading digits; two are required
    when [fixed]. *)
Definition getnum (s : string) (fixed : bool) : option (Z * string) :=
  match s with
  | String c r =>
      if isDigit c then
        match r with
        | String c2 r2 =>
            if isDigit c2 then Some (digitVal c * 10 + digitVal c2, r2)
            else if fixed then None else Some (digitVal c, r)
        | EmptyString => if fixed then None else Some (digitVal c, r)
        end
      else None
  | EmptyString => None
  end.

(** [skip(value, prefix)]: literal text of the layout; a space of the
    layout stands for any run of spaces of the value. *)
Fixpoint cutspace (s : string) : string :=
  match s with
  | String " " r => cutspace r
  | _ => s
  end.
Fixpoint skipN (fuel : nat) (value prefix : string) : option string :=
  match prefix with
  | EmptyString => Some value
  | String p prest =>
      if Ascii.eqb p " " then
        match value with
        | String v _ =>
            if Ascii.eqb v " " then
              match fuel with
              | O => None
              | S f => skipN f (cutspace value) (cutspace prefix)
              end
            else None
        | EmptyString =>
            match fuel with
            | O => None
            | S f => skipN f (cutspace value) (cutspace prefix)
            end
        end
      else
        match value with
        | String v vrest =>
            if Ascii.eqb v p then
              match fuel with O => None | S f => skipN f vrest prest end
            else None
        | EmptyString => None
        end
  end.
Definition skip (value prefix : string) : option string :=
  skipN (S (String.length prefix)) value prefix.

(** [match(s1, s2)]: equality of two bytes up to the case of letters. *)
Definition matchByte (c1 c2 : ascii) : bool :=
  Ascii.eqb c1 c2 ||
  (let l1 := N.lor (N_of_ascii c1) 32 in
   let l2 := N.lor (N_of_ascii c2) 32 in
   (l1 =? l2)%N && (97 <=? l1)%N && (l1 <=? 122)%N).
Fixpoint matchFold (val name : string) : option string :=
  match name, val with
  | EmptyString, _ => Some val
  | String n nrest, String v vrest =>
      if matchByte v n then matchFold vrest nrest else None
  | String _ _, EmptyString => None
  end.
Definition shortMonthNames : list string :=
  ["Jan"; "Feb"; "Mar"; "Apr"; "May"; "Jun";
   "Jul"; "Aug"; "Sep"; "Oct"; "Nov"; "Dec"].
(** [lookup(tab, val)] of package time: the index of the first name
    [val] starts with. *)
Fixpoint lookupName (tab : list string) (i : Z) (val : string) : option (Z * string) :=
  match tab with
  | [] => None
  | name :: rest =>
      match matchFold val name with
      | Some r => Some (i, r)
      | None => lookupName rest (i + 1) val
      end
  end.

(** A fraction of a second after the seconds field, which the parser
    accepts though the layout has none: a period or comma and the
    digits after it, of which [parseNanoseconds] reads the first nine as
    the nanoseconds.  The result is the nanoseconds and the text left. *)
Definition commaOrPeriod (c : ascii) : bool :=
  Ascii.eqb c "." || Ascii.eqb c ",".
Fixpoint leadingDigits (s : string) : string :=
  match s with
  | String c r => if isDigit c then String c (leadingDigits r) else EmptyString
  | EmptyString => EmptyString
  end.
Definition fraction (value : string) : Z * string :=
  match value with
  | String c (String d r) =>
      if commaOrPeriod c && isDigit d then
        let digits := takeS 9 (String d (leadingDigits r)) in
        (digitsVal 0 digits * 10 ^ (9 - Z.of_nat (String.length digits)),
         trimLeftBy isDigit r)
      else (0, value)
  | _ => (0, value)
  end.

(** What [parse] has read so far; [-1] is "not set", as in the library. *)
Record fields := mkFields {
  fYear : Z; fMonth : Z; fDay : Z; fHour : Z; fMin : Z; fSec : Z;
  fZone : Z; fNsec : Z }.
Definition noFields : fields := mkFields 0 (-1) (-1) 0 0 0 (-1) 0.

Definition inRange (lo hi x : Z) : bool := (lo <=? x) && (x <=? hi).

Definition parseChunk (c : chunk) (f : fields) (value : string)
  : option (fields * string) :=
  match c with
  | Lit p => v ← skip value p; Some (f, v)
  | stdLongYear =>
      match value with
      | String c0 _ =>
          if isDigit c0 && (4 <=? String.length value)%nat
             && allDigits (takeS 4 value)
          then Some (mkFields (digitsVal 0 (takeS 4 value)) (fMonth f) (fDay f)
                              (fHour f) (fMin f) (fSec f) (fZone f) (fNsec f),
                     dropS 4 value)
          else None
      | EmptyString => None
      end
  | stdMonth =>
      '(i, v) ← lookupName shortMonthNames 0 value;
      Some (mkFields (fYear f) (i + 1) (fDay f) (fHour f) (fMin f) (fSec f)
                     (fZone f) (fNsec f), v)
  | stdZeroMonth =>
      '(m, v) ← getnum value true;
      if inRange 1 12 m
      then Some (mkFields (fYear f) m (fDay f) (fHour f) (fMin f) (fSec f)
                          (fZone f) (fNsec f), v)
      else None
  | stdDay | stdZeroDay =>
      '(d, v) ← getnum value (match c with stdZeroDay => true | _ => false end);
      Some (mkFields (fYear f) (fMonth f) d (fHour f) (fMin f) (fSec f)
                     (fZone f) (fNsec f), v)
  | stdHour =>
      '(h, v) ← getnum value false;
      if inRange 0 23 h
      then Some (mkFields (fYear f) (fMonth f) (fDay f) h (fMin f) (fSec f)
                          (fZone f) (fNsec f), v)
      else None
  | stdZeroMinute =>
      '(mi, v) ← getnum value true;
      if inRange 0 59 mi
      then Some (mkFields (fYear f) (fMonth f) (fDay f) (fHour f) mi (fSec f)
                          (fZone f) (fNsec f), v)
      else None
  | stdZeroSecond =>
      '(s, v) ← getnum value true;
      if inRange 0 59 s
      then let '(nsec, v) := fraction v in
           Some (mkFields (fYear f) (fMonth f) (fDay f) (fHour f) (fMin f) s
                          (fZone f) nsec, v)
      else None
  | stdISO8601ColonTZ =>
      match value with
      | String "Z" v =>
          Some (mkFields (fYear f) (fMonth f) (fDay f) (fHour f) (fMin f)
                         (fSec f) 0 (fNsec f), v)
      | String sign (String h1 (String h2 (String ":" (String m1 (String m2 v))))) =>
          '(hr, _) ← getnum (String h1 (String h2 "")) true;
          '(mm, _) ← getnum (String m1 (String m2 "")) true;
          if (hr <=? 24) && (mm <=? 60) then
            let off := (hr * 60 + mm) * 60 in
            if Ascii.eqb sign "+"
            then Some (mkFields (fYear f) (fMonth f) (fDay f) (fHour f)
                                (fMin f) (fSec f) off (fNsec f), v)
            else if Ascii.eqb sign "-"
            then Some (mkFields (fYear f) (fMonth f) (fDay f) (fHour f)
                                (fMin f) (fSec f) (- off) (fNsec f), v)
            else None
          else None
      | _ => None
      end
  end.

Fixpoint parseChunks (layout : list chunk) (f : fields) (value : string)
  : option fields :=
  match layout with
  | [] => match value with EmptyString => Some f | _ => None end
  | c :: rest => '(f', v) ← parseChunk c f value; parseChunks rest f' v
  end.

(** [time.Parse(layout, value)]: the fields are read left to right, the
    day is checked against the month, and a value without a zone is UTC.
    [None] stands for the returned error. *)
Definition Parse (layout : list chunk) (value : string) : option Time :=
  f ← parseChunks layout noFields value;
  let month := if fMonth f <? 0 then 1 else fMonth f in
  let day := if fDay f <? 0 then 1 else fDay f in
  if (day <? 1) || (daysIn month (fYear f) <? day) then None
  else if fZone f =? -1
       then Some (Date (fYear f) month day (fHour f) (fMin f) (fSec f) (fNsec f) 0)
       else Some (mkTime (nanos (Date (fYear f) month day (fHour f) (fMin f)
                                      (fSec f) (fNsec f) 0) - second * fZone f)
                         (fZone f)).

(** *** package net: [net.ParseIP]

    The text is taken as IPv4 when a dot comes before any colon, as IPv6
    when a colon comes first; the IPv6 reader is a parameter. *)
Definition IP := list Z.

Fixpoint firstSep (s : string) : option ascii :=
  match s with
  | EmptyString => None
  | String c r =>
      if Ascii.eqb c "." || Ascii.eqb c ":" || Ascii.eqb c "%" then Some c
      else firstSep r
  end.

(** [parseIPv4Fields]: four dot-separated decimal octets, none above 255,
    none with a leading zero. [val], [digLen] and [pos] are the loop's
    variables; [prevDot] is "the byte before is a dot or the start". *)
Fixpoint parseIPv4Go (s : string) (val digLen : Z) (acc : list Z)
    (prevDot : bool) : option (list Z) :=
  match s with
  | EmptyString => if (length acc =? 3)%nat then Some (acc ++ [val]) else None
  | String c r =>
      if isDigit c then
        if (digLen =? 1) && (val =? 0) then None
        else let v := val * 10 + digitVal c in
             if 255 <? v then None else parseIPv4Go r v (digLen + 1) acc false
      else if Ascii.eqb c "." then
        if prevDot || (match r with EmptyString => true | _ => false end)
           || (length acc =? 3)%nat
        then None
        else parseIPv4Go r 0 0 (acc ++ [val]) true
      else None
  end.

Section ParseIP.
Variable parseIPv6 : string → option IP.

Definition ParseIP (s : string) : option IP :=
  match firstSep s with
  | Some c =>
      if Ascii.eqb c "." then parseIPv4Go s 0 0 [] true
      else if Ascii.eqb c ":" then parseIPv6 s
      else None
  | None => None
  end.
End ParseIP.

(** [t.Format("2006-01-02 15:04:05")]. *)
Definition FormatDateTime (t : Time) : string :=
  let '(y, m, d) := civil t in
  let sod := wallSec t mod 86400 in
  padInt 4 y +:+ "-" +:+ padInt 2 m +:+ "-" +:+ padInt 2 d +:+ " " +:+
  padInt 2 (sod / 3600) +:+ ":" +:+ padInt 2 (sod / 60 mod 60) +:+ ":" +:+
  padInt 2 (sod mod 60).

(** *** package encoding/json: a decoded document

    What [json.Unmarshal] stores in an [interface{}].  Numbers are kept
    as integers: the counts and millisecond keys of a bucket tree are
    integral and well inside the exact range of a float64.  Statements
    that rest on a conversion of a number bound it to that range. *)
#[warnings="-register-all"] Inductive value :=
| Nil
| Bool (b : bool)
| Number (n : Z)
| Str (s : string)
| Array (items : list value)
| Object (members : gmap string value).

(** [m[key]] on a [map[string]interface{}]: [nil] when the key is absent. *)
Definition member (m : gmap string value) (key : string) : value :=
  default Nil (m !! key).

(** The checked type assertions [v.(T)] with [, ok]. *)
Definition asObject (v : value) : option (gmap string value) :=
  match v with Object m => Some m | _ => None end.
Definition asArray (v : value) : option (list value) :=
  match v with Array l => Some l | _ => None end.

(** The unchecked type assertions [v.(T)]: a panic on any other type. *)
Definition mustString (v : value) : run string :=
  match v with
  | Str s => Done s
  | _ => Panicked "interface conversion: interface {} is not string"
  end.
Definition mustNumber (v : value) : run Z :=
  match v with
  | Number n => Done n
  | _ => Panicked "interface conversion: interface {} is not float64"
  end.

(** *** Unspecified behaviour of the run time

    The order in which [range] visits a map, the order [sort.Slice]
    leaves elements that compare equal in, and the local time zone are
    not fixed by the language.  A [Runtime] is one admissible choice. *)
Definition notAfter {A} (less : A → A → bool) (a b : A) : Prop := less b a = false.

Record Runtime := mkRuntime {
  rangeMap : ∀ V : Type, gmap string V → list (string * V);
  rangeMap_perm : ∀ V (m : gmap string V), rangeMap V m ≡ₚ map_to_list m;
  rangeSet : gset string → list string;
  rangeSet_perm : ∀ s, rangeSet s ≡ₚ elements s;
  sortSlice : ∀ A : Type, (A → A → bool) → list A → list A;
  sortSlice_perm : ∀ A less (l : list A), sortSlice A less l ≡ₚ l;
  sortSlice_sorted : ∀ A (less : A → A → bool) l,
    (∀ a b, notAfter less a b ∨ notAfter less b a) →
    (∀ a b c, notAfter less a b → notAfter less b c → notAfter less a c) →
    StronglySorted (notAfter less) (sortSlice A less l);
  localZone : Z }.
Arguments rangeMap _ {V} _.
Arguments sortSlice _ {A} _ _.

(** [insertionSortLessFunc], which is all [sort.Slice] runs on a slice
    of at most twelve elements: each element in turn moves left past
    the elements it is less than.  [sorted] is the part already in
    order, last element first. *)
Fixpoint insertLeft {A} (less : A → A → bool) (x : A) (sorted : list A) : list A :=
  match sorted with
  | [] => [x]
  | y :: rest => if less x y then y :: insertLeft less x rest else x :: sorted
  end.
Definition insertionSort {A} (less : A → A → bool) (l : list A) : list A :=
  rev (fold_left (λ sorted x, insertLeft less x sorted) l []).

Lemma insertLeft_perm {A} (less : A → A → bool) x l :
  insertLeft less x l ≡ₚ x :: l.
Proof.
  induction l as [|y l IH]; simpl; [done|].
  destruct (less x y); [|done].
  rewrite IH. apply Permutation_swap.
Qed.

Lemma insertionSort_perm {A} (less : A → A → bool) l :
  insertionSort less l ≡ₚ l.
Proof.
  unfold insertionSort. rewrite <- Permutation.Permutation_rev.
  assert (H : ∀ acc, fold_left (λ sorted x, insertLeft less x sorted) l acc
                     ≡ₚ l ++ acc).
  { induction l as [|x l IH]; intros acc; simpl; [done|].
    rewrite IH, insertLeft_perm. by rewrite Permutation_middle. }
  rewrite H. by rewrite app_nil_r.
Qed.

Lemma insertLeft_sorted {A} (less : A → A → bool) x l :
  (∀ a b, notAfter less a b ∨ notAfter less b a) →
  (∀ a b c, notAfter less a b → notAfter less b c → notAfter less a c) →
  StronglySorted (flip (notAfter less)) l →
  StronglySorted (flip (notAfter less)) (insertLeft less x l).
Proof.
  intros Htot Htrans. induction l as [|y l IH]; intros Hs; simpl.
  - repeat constructor.
  - apply StronglySorted_inv in Hs as [Hl Hy].
    destruct (less x y) eqn:Hxy.
    + constructor; [by apply IH|].
      rewrite insertLeft_perm. constructor; [|done].
      unfold flip, notAfter. destruct (Htot x y) as [H|H]; unfold notAfter in H;
        [done | congruence].
    + constructor; [by constructor|].
      constructor; [done|].
      eapply Forall_impl; [exact Hy|].
      intros z Hz. unfold flip in *. by eapply Htrans.
Qed.

Lemma insertionSort_sorted {A} (less : A → A → bool) l :
  (∀ a b, notAfter less a b ∨ notAfter less b a) →
  (∀ a b c, notAfter less a b → notAfter less b c → notAfter less a c) →
  StronglySorted (notAfter less) (insertionSort less l).
Proof.
  intros Htot Htrans. unfold insertionSort.
  assert (H : ∀ acc, StronglySorted (flip (notAfter less)) acc →
     StronglySorted (flip (notAfter less))
       (fold_left (λ sorted x, insertLeft less x sorted) l acc)).
  { induction l as [|x l IH]; intros acc Hacc; simpl; [done|].
    apply IH. by apply insertLeft_sorted. }
  specialize (H [] ltac:(constructor)).
  revert H. generalize (fold_left (λ sorted x, insertLeft less x sorted) l []).
  intros acc. induction acc as [|a acc IH]; intros Hs; simpl; [constructor|].
  apply StronglySorted_inv in Hs as [Hacc Ha].
  apply StronglySorted_app. split_and!; [| by apply IH | repeat constructor].
  intros x1 x2 Hx1 ->%list_elem_of_singleton.
  apply list_elem_of_In, in_rev, list_elem_of_In in Hx1.
  rewrite Forall_forall in Ha. by apply Ha.
Qed.

(** The run time the examples are evaluated in: maps and sets are
    visited in the order of their listing, slices are sorted by
    insertion, and the local zone is UTC. *)
Definition refRuntime : Runtime :=
  mkRuntime (λ V m, map_to_list m) (λ V m, reflexivity _)
            elements (λ s, reflexivity _)
            (λ A less l, insertionSort less l)
            (λ A less l, insertionSort_perm less l)
            (λ A less l, insertionSort_sorted less l)
            0.

End Go.

Import Go.

(** ** log2quickwit v1.5.5: the ingestion binary *)

Module Ingest.

Record Config := mkConfig {
  LogFilePath : string;
  QuickwitURL : string;
  CfgUsername : string;
  Password : string;
  BatchSize : Z;
  MaxRetries : Z }.

Record LogEntry := mkLogEntry {
  Timestamp : string;
  Hostname : string;
  Process : string;
  PID : Z;
  LogLevel : string;
  MessageType : string;
  FullMessage : string;
  SourceIP : option IP;
  DestinationIP : option IP;
  Username : string;
  StationID : string;
  Status : string;
  Realm : string;
  ServiceProvider : string;
  ErrorMessage : string;
  RequestID : Z;
  UDPPeer : option IP;
  Action : string;
  RepeatCount : Z }.

(** The zero value [LogEntry{}]. *)
Definition zeroEntry : LogEntry :=
  mkLogEntry "" "" "" 0 "" "" "" None None "" "" "" "" "" "" 0 None "" 0.

(** Field assignments [entry.F = v]. *)
Definition setTimestamp (v : string) (e : LogEntry) : LogEntry :=
  mkLogEntry v (Hostname e) (Process e) (PID e) (LogLevel e) (MessageType e)
    (FullMessage e) (SourceIP e) (DestinationIP e) (Username e) (StationID e)
    (Status e) (Realm e) (ServiceProvider e) (ErrorMessage e) (RequestID e)
    (UDPPeer e) (Action e) (RepeatCount e).
Definition setHostname (v : string) (e : LogEntry) : LogEntry :=
  mkLogEntry (Timestamp e) v (Process e) (PID e) (LogLevel e) (MessageType e)
    (FullMessage e) (SourceIP e) (DestinationIP e) (Username e) (StationID e)
    (Status e) (Realm e) (ServiceProvider e) (ErrorMessage e) (RequestID e)
    (UDPPeer e) (Action e) (RepeatCount e).
Definition setProcess (v : string) (e : LogEntry) : LogEntry :=
  mkLogEntry (Timestamp e) (Hostname e) v (PID e) (LogLevel e) (MessageType e)
    (FullMessage e) (SourceIP e) (DestinationIP e) (Username e) (StationID e)
    (Status e) (Realm e) (ServiceProvider e) (ErrorMessage e) (RequestID e)
    (UDPPeer e) (Action e) (RepeatCount e).
Definition setPID (v : Z) (e : LogEntry) : LogEntry :=
  mkLogEntry (Timestamp e) (Hostname e) (Process e) v (LogLevel e) (MessageType e)
    (FullMessage e) (SourceIP e) (DestinationIP e) (Username e) (StationID e)
    (Status e) (Realm e) (ServiceProvider e) (ErrorMessage e) (RequestID e)
    (UDPPeer e) (Action e) (RepeatCount e).
Definition setMessageType (v : string) (e : LogEntry) : LogEntry :=
  mkLogEntry (Timestamp e) (Hostname e) (Process e) (PID e) (LogLevel e) v
    (FullMessage e) (SourceIP e) (DestinationIP e) (Username e) (StationID e)
    (Status e) (Realm e) (ServiceProvider e) (ErrorMessage e) (RequestID e)
    (UDPPeer e) (Action e) (RepeatCount e).
Definition setFullMessage (v : string) (e : LogEntry) : LogEntry :=
  mkLogEntry (Timestamp e) (Hostname e) (Process e) (PID e) (LogLevel e)
    (MessageType e) v (SourceIP e) (DestinationIP e) (Username e) (StationID e)
    (Status e) (Realm e) (ServiceProvider e) (ErrorMessage e) (RequestID e)
    (UDPPeer e) (Action e) (RepeatCount e).
Definition setDestinationIP (v : option IP) (e : LogEntry) : LogEntry :=
  mkLogEntry (Timestamp e) (Hostname e) (Process e) (PID e) (LogLevel e)
    (MessageType e) (FullMessage e) (SourceIP e) v (Username e) (StationID e)
    (Status e) (Realm e) (ServiceProvider e) (ErrorMessage e) (RequestID e)
    (UDPPeer e) (Action e) (RepeatCount e).
Definition setUsername (v : string) (e : LogEntry) : LogEntry :=
  mkLogEntry (Timestamp e) (Hostname e) (Process e) (PID e) (LogLevel e)
    (MessageType e) (FullMessage e) (SourceIP e) (DestinationIP e) v (StationID e)
    (Status e) (Realm e) (ServiceProvider e) (ErrorMessage e) (RequestID e)
    (UDPPeer e) (Action e) (RepeatCount e).
Definition setStationID (v : string) (e : LogEntry) : LogEntry :=
  mkLogEntry (Timestamp e) (Hostname e) (Process e) (PID e) (LogLevel e)
    (MessageType e) (FullMessage e) (SourceIP e) (DestinationIP e) (Username e) v
    (Status e) (Realm e) (ServiceProvider e) (ErrorMessage e) (RequestID e)
    (UDPPeer e) (Action e) (RepeatCount e).
Definition setRealm (v : string) (e : LogEntry) : LogEntry :=
  mkLogEntry (Timestamp e) (Hostname e) (Process e) (PID e) (LogLevel e)
    (MessageType e) (FullMessage e) (SourceIP e) (DestinationIP e) (Username e)
    (StationID e) (Status e) v (ServiceProvider e) (ErrorMessage e) (RequestID e)
    (UDPPeer e) (Action e) (RepeatCount e).
Definition setServiceProvider (v : string) (e : LogEntry) : LogEntry :=
  mkLogEntry (Timestamp e) (Hostname e) (Process e) (PID e) (LogLevel e)
    (MessageType e) (FullMessage e) (SourceIP e) (DestinationIP e) (Username e)
    (StationID e) (Status e) (Realm e) v (ErrorMessage e) (RequestID e)
    (UDPPeer e) (Action e) (RepeatCount e).
Definition setRepeatCount (v : Z) (e : LogEntry) : LogEntry :=
  mkLogEntry (Timestamp e) (Hostname e) (Process e) (PID e) (LogLevel e)
    (MessageType e) (FullMessage e) (SourceIP e) (DestinationIP e) (Username e)
    (StationID e) (Status e) (Realm e) (ServiceProvider e) (ErrorMessage e)
    (RequestID e) (UDPPeer e) (Action e) v.

(** *** The line parser *)

Section Parser.
(** [time.Now()], read in the local zone, and the IPv6 reader of
    [net.ParseIP]. *)
Variable now : Time.
Variable parseIPv6 : string → option IP.

(** [parseTimestamp]: RFC 3339 first, then the syslog form with the
    current year appended and the December roll-over.  The error keeps
    the function's own prefix; the text [time.Parse] appends to it is
    left out. *)
Definition parseTimestamp (timestampStr : string) : Time + string :=
  match Parse RFC3339 timestampStr with
  | Some timestamp => inl timestamp
  | None =>
      let currentYear := Year now in
      let fullTimestamp := timestampStr +:+ " " +:+ itoa currentYear in
      match Parse layoutSyslogYear fullTimestamp with
      | None => inr "unable to parse timestamp"
      | Some timestamp =>
          if After timestamp now && (Month timestamp =? 12)
          then inl (AddDate timestamp (-1) 0)
          else inl timestamp
      end
  end.

(** The [switch] inside the loop over [parts[startIndex+2:]]: [i] is
    the loop index, [part] the element. *)
Definition captureField (parts : list string) (startIndex i : Z)
    (part : string) (entry : LogEntry) : run LogEntry :=
  if HasPrefix part "user" then
    v ← index parts (i + startIndex + 3); mret (setUsername v entry)
  else if HasPrefix part "stationid" then
    v ← index parts (i + startIndex + 3); mret (setStationID v entry)
  else if String.eqb part "from" then
    v ← index parts (i + startIndex + 3); mret (setRealm v entry)
  else if String.eqb part "to" then
    v ← index parts (i + startIndex + 3);
    let entry := setServiceProvider v entry in
    if i + startIndex + 4 <? len parts then
      ip ← index parts (i + startIndex + 4);
      mret (setDestinationIP (ParseIP parseIPv6 (Trim ip "()")) entry)
    else mret entry
  else mret entry.

Fixpoint captureFields (parts : list string) (startIndex i : Z)
    (rest : list string) (entry : LogEntry) : run LogEntry :=
  match rest with
  | [] => mret entry
  | part :: rest' =>
      entry' ← captureField parts startIndex i part entry;
      captureFields parts startIndex (i + 1) rest' entry'
  end.

Definition isAccessKind (messageType : string) : bool :=
  String.eqb messageType "Access-Accept" ||
  String.eqb messageType "Access-Reject" ||
  String.eqb messageType "Access-Challenge".

Definition parseLine (line : string) : run (LogEntry * error) :=
  let entry := setFullMessage line zeroEntry in
  let parts := Fields line in
  if len parts <? 5 then
    mret (entry, Some "invalid log format: not enough parts")
  else
    p0 ← index parts 0;
    '(timestampStr, entry, startIndex) ←
      (if Contains p0 "T" then
         host ← index parts 1;
         mret (p0, setHostname host entry, 2)
       else
         stamp ← slice parts 0 3;
         host ← index parts 3;
         mret (Join stamp " ", setHostname host entry, 4));
    match parseTimestamp timestampStr with
    | inr msg => mret (entry, Some ("invalid timestamp: " +:+ msg))
    | inl timestamp =>
        let entry := setTimestamp (FormatRFC3339 timestamp) entry in
        head ← slice parts startIndex (startIndex + 3);
        if String.eqb (Join head " ") "last message repeated" then
          let entry := setMessageType "repeat" (setProcess "system" entry) in
          count ← index parts (len parts - 2);
          let repeatCountStr := TrimSuffix count " times" in
          mret (match Atoi repeatCountStr with
                | Some repeatCount => setRepeatCount repeatCount entry
                | None => entry
                end, None)
        else
          processWithPID ← index parts startIndex;
          let pidStart := IndexByte processWithPID "[" in
          let pidEnd := IndexByte processWithPID "]" in
          let entry :=
            if negb (pidStart =? -1) && negb (pidEnd =? -1) && (pidStart <? pidEnd)
            then
              let entry := setProcess (takeS (Z.to_nat pidStart) processWithPID) entry in
              let pidStr := takeS (Z.to_nat (pidEnd - (pidStart + 1)))
                                  (dropS (Z.to_nat (pidStart + 1)) processWithPID) in
              match ParseInt pidStr with
              | Some pid => setPID pid entry
              | None => entry
              end
            else setProcess processWithPID entry in
          if startIndex + 1 <? len parts then
            kind ← index parts (startIndex + 1);
            let entry := setMessageType (TrimSuffix kind ":") entry in
            if isAccessKind (MessageType entry) then
              rest ← slice parts (startIndex + 2) (len parts);
              entry ← captureFields parts startIndex 0 rest entry;
              mret (entry, None)
            else mret (entry, None)
          else mret (entry, None)
    end.

End Parser.

(** *** The ingest transport *)

(** What one POST to the ingest endpoint comes back with. *)
Inductive response :=
| RequestError (msg : string)          (* http.NewRequest failed *)
| SendError (msg : string)             (* client.Do failed *)
| Reply (status : Z) (body : string).

(** What a delivery attempt leaves behind: the body posted with the
    error [sendToQuickwit] returned for it, and the back-off sleeps
    (a [time.Duration], in nanoseconds). *)
Inductive event :=
| Posted (body : list LogEntry) (err : error)
| Slept (d : Z).

Section Transport.
(** The remote service: its answer to the [attempt]-th POST of a call,
    given the entries in the body. *)
Variable server : Z → list LogEntry → response.

Definition sendToQuickwit (attempt : Z) (entries : list LogEntry) : error :=
  match server attempt entries with
  | RequestError msg => Some ("error creating request: " +:+ msg)
  | SendError msg => Some ("error sending request: " +:+ msg)
  | Reply status body =>
      if status =? 200 then None
      else Some ("error response: Status " +:+ itoa status +:+ ", Body: " +:+ body)
  end.

(** The loop [for i := 0; i < config.MaxRetries; i++]; [left] counts the
    iterations that remain. *)
Fixpoint retryLoop (config : Config) (entries : list LogEntry)
    (left : nat) (i batchSize : Z) : run (error * list event) :=
  match left with
  | O => mret (Some ("failed after " +:+ itoa (MaxRetries config) +:+ " attempts"), [])
  | S left' =>
      body ← slice entries 0 batchSize;
      match sendToQuickwit i body with
      | None => mret (None, [Posted body None])
      | Some msg =>
          if Contains msg "413" || Contains msg "Payload Too Large" then
            let batchSize := Z.quot batchSize 2 in
            if batchSize <? 1 then
              mret (Some ("batch size reduced to zero: " +:+ msg),
                    [Posted body (Some msg)])
            else
              '(err, tr) ← retryLoop config entries left' (i + 1) batchSize;
              mret (err, Posted body (Some msg) :: tr)
          else
            '(err, tr) ← retryLoop config entries left' (i + 1) batchSize;
            mret (err, Posted body (Some msg)
                       :: Slept (wrap64 (second * wrap64 (Z.shiftl 1 i))) :: tr)
      end
  end.

Definition sendToQuickwitWithRetry (entries : list LogEntry) (config : Config)
  : run (error * list event) :=
  retryLoop config entries (Z.to_nat (MaxRetries config)) 0 (len entries).

End Transport.

(** The entries the remote service accepted during a call. *)
Fixpoint delivered (tr : list event) : list LogEntry :=
  match tr with
  | [] => []
  | Posted body None :: tr' => body ++ delivered tr'
  | _ :: tr' => delivered tr'
  end.

(** Every body posted during a call, accepted or not. *)
Fixpoint posted (tr : list event) : list (list LogEntry) :=
  match tr with
  | [] => []
  | Posted body _ :: tr' => body :: posted tr'
  | Slept _ :: tr' => posted tr'
  end.

(** *** Configuration *)

(** The properties file as [loadConfig] meets it: it cannot be opened,
    or the scanner yields its lines and ends with or without an error. *)
Inductive file :=
| OpenFails (msg : string)
| Opened (lines : list string) (scanErr : error).

Definition defaultConfig : Config := mkConfig "" "" "" "" 30000 3.

Definition quote : string := String (ascii_of_nat 34) EmptyString.

(** The key and value of a line, for the lines the loop does not skip. *)
Definition keyValue (text : string) : option (string * string) :=
  let line := TrimSpace text in
  if String.eqb line "" || HasPrefix line "#" then None
  else match SplitN2 line "=" with
       | [k; v] => Some (TrimSpace k, Trim (TrimSpace v) quote)
       | _ => None
       end.

(** One iteration of the scanner loop. *)
Definition configLine (config : Config) (text : string) : Config :=
  match keyValue text with
  | None => config
  | Some (key, value) =>
      if String.eqb key "logFilePath" then
        mkConfig value (QuickwitURL config) (CfgUsername config)
                 (Password config) (BatchSize config) (MaxRetries config)
      else if String.eqb key "quickwitURL" then
        mkConfig (LogFilePath config) value (CfgUsername config)
                 (Password config) (BatchSize config) (MaxRetries config)
      else if String.eqb key "username" then
        mkConfig (LogFilePath config) (QuickwitURL config) value
                 (Password config) (BatchSize config) (MaxRetries config)
      else if String.eqb key "password" then
        mkConfig (LogFilePath config) (QuickwitURL config) (CfgUsername config)
                 value (BatchSize config) (MaxRetries config)
      else if String.eqb key "batchSize" then
        match Atoi value with
        | Some i => mkConfig (LogFilePath config) (QuickwitURL config)
                             (CfgUsername config) (Password config) i
                             (MaxRetries config)
        | None => config
        end
      else if String.eqb key "maxRetries" then
        match Atoi value with
        | Some i => mkConfig (LogFilePath config) (QuickwitURL config)
                             (CfgUsername config) (Password config)
                             (BatchSize config) i
        | None => config
        end
      else config
  end.

Definition loadConfig (f : file) : Config * error :=
  match f with
  | OpenFails msg => (defaultConfig, Some msg)
  | Opened lines scanErr =>
      let config := fold_left configLine lines defaultConfig in
      match scanErr with
      | Some msg => (config, Some msg)
      | None =>
          if String.eqb (LogFilePath config) "" || String.eqb (QuickwitURL config) ""
             || String.eqb (CfgUsername config) "" || String.eqb (Password config) ""
          then (config, Some "missing required configuration")
          else (config, None)
      end
  end.

End Ingest.

(** ** The range sharder shared by the two query tools

    [Job] and the enqueueing loop of [main] read the same in
    eduroam-accept and in eduroam-sp. *)

Module Sharder.

(** A single day's query job. *)
Record Job := mkJob { StartTimestamp : Z; EndTimestamp : Z }.

(** [time.Date(t.Year(), t.Month(), t.Day(), 0, 0, 0, 0, t.Location())]
    and the same with 23:59:59.999999999. *)
Definition startOfDay (t : Time) : Time :=
  Date (Year t) (Month t) (Day t) 0 0 0 0 (zoneOff t).
Definition endOfDay (t : Time) : Time :=
  Date (Year t) (Month t) (Day t) 23 59 59 999999999 (zoneOff t).

(** [nextDate]: a day later, cut at [endDate]. *)
Definition nextDate (currentDate endDate : Time) : Time :=
  let next := Add currentDate hour24 in
  if After next endDate then endDate else next.

(** The loop [for currentDate.Before(endDate) { ... }] with the Jobs it
    sends to the channel, in order.  [rounds] bounds the iterations. *)
Fixpoint enqueueLoop (rounds : nat) (currentDate endDate : Time) : list Job :=
  match rounds with
  | O => []
  | S rounds' =>
      if Before currentDate endDate then
        mkJob (Unix currentDate) (Unix (nextDate currentDate endDate))
          :: enqueueLoop rounds' (nextDate currentDate endDate) endDate
      else []
  end.

(** The number of days, whole or begun, from [currentDate] to
    [endDate]: the loop never needs more rounds
    (see [enqueueLoop_terminates]). *)
Definition roundsNeeded (currentDate endDate : Time) : nat :=
  Z.to_nat ((nanos endDate - nanos currentDate + hour24 - 1) / hour24).

Definition enqueueJobs (startDate endDate : Time) : list Job :=
  enqueueLoop (roundsNeeded startDate endDate) startDate endDate.

End Sharder.

(** ** eduroam-accept v2.2.0: the realm-side query tool *)

Module Realm.
Import Sharder.

Record Properties := mkProperties { QWUser : string; QWPass : string; QWURL : string }.

Record LogEntry := mkLogEntry {
  Username : string;
  ServiceProvider : string;
  Timestamp : Time }.

(** [map[string]bool] is only ever assigned [true]: a set of keys. *)
Record UserStats := mkUserStats { UserProviders : gset string }.
Record ProviderStats := mkProviderStats { ProviderUsers : gset string }.

Record Result := mkResult {
  Users : gmap string UserStats;
  Providers : gmap string ProviderStats }.

Record ProviderStat := mkProviderStat {
  Provider : string;
  UserCount : Z;
  StatUsers : list string }.
Record UserStat := mkUserStat {
  StatUsername : string;
  StatProviders : list string }.

Record SimplifiedOutputData := mkOutput {
  QueryInfoDomain : string;
  QueryInfoDays : Z;
  QueryInfoStartDate : string;
  QueryInfoEndDate : string;
  Description : string;
  SummaryTotalUsers : Z;
  SummaryTotalProviders : Z;
  OutProviderStats : list ProviderStat;
  OutUserStats : list UserStat }.

Definition getDomain (input : string) : string :=
  if String.eqb input "etlr1" then "etlr1.eduroam.org"
  else if String.eqb input "etlr2" then "etlr2.eduroam.org"
  else "eduroam." +:+ input.

Section WithRuntime.
Variable rt : Runtime.

(** *** Folding a decoded aggregation response

    The entries a function sends to [resultChan] are the list it
    returns, in sending order. *)

(** One element of the [daily] buckets. *)
Definition dailyEntry (username provider : string) (dailyBucketInterface : value)
  : run (list LogEntry) :=
  match asObject dailyBucketInterface with
  | None => mret []
  | Some dailyBucket =>
      docCount ← mustNumber (member dailyBucket "doc_count");
      if docCount =? 0 then mret []
      else
        key ← mustNumber (member dailyBucket "key");
        mret [mkLogEntry username provider
                (mkTime (Z.quot key 1000 * second) (localZone rt))]
  end.

Fixpoint concatRun {A B} (f : A → run (list B)) (items : list A) : run (list B) :=
  match items with
  | [] => mret []
  | x :: rest => out ← f x; more ← concatRun f rest; mret (out ++ more)
  end.

Definition processUserProviderDaily (bucket : gmap string value)
    (username provider : string) : run (list LogEntry) :=
  match asObject (member bucket "daily") with
  | Some dailyAgg =>
      match asArray (member dailyAgg "buckets") with
      | Some dailyBuckets => concatRun (dailyEntry username provider) dailyBuckets
      | None => mret []
      end
  | None => mret []
  end.

Definition processUserBucket (bucket : gmap string value) (username : string)
  : run (list LogEntry) :=
  match asObject (member bucket "providers") with
  | Some providersAgg =>
      match asArray (member providersAgg "buckets") with
      | Some providerBuckets =>
          concatRun (λ providerBucketInterface,
            match asObject providerBucketInterface with
            | None => mret []
            | Some providerBucket =>
                provider ← mustString (member providerBucket "key");
                processUserProviderDaily bucket username provider
            end) providerBuckets
      | None => mret []
      end
  | None => mret []
  end.

(** The loop of [processAggregations] over the user buckets:
    [totalHits] and the entries sent so far are carried along. *)
Fixpoint userBuckets (buckets : list value) (totalHits : Z)
  : run (Z * list LogEntry) :=
  match buckets with
  | [] => mret (totalHits, [])
  | bucketInterface :: rest =>
      match asObject bucketInterface with
      | None => userBuckets rest totalHits
      | Some bucket =>
          username ← mustString (member bucket "key");
          docCount ← mustNumber (member bucket "doc_count");
          let totalHits := wrap64 (totalHits + docCount) in
          out ← processUserBucket bucket username;
          '(total, more) ← userBuckets rest totalHits;
          mret (total, out ++ more)
      end
  end.

(** [processAggregations]: the hit count with the returned error, and
    the entries sent. *)
Definition processAggregations (result : gmap string value)
  : run (Z * error * list LogEntry) :=
  match asObject (member result "aggregations") with
  | None => mret (0, Some "no aggregations in response", [])
  | Some aggs =>
      match asObject (member aggs "unique_users") with
      | None => mret (0, Some "no unique_users aggregation", [])
      | Some uniqueUsers =>
          match asArray (member uniqueUsers "buckets") with
          | None => mret (0, Some "no buckets in unique_users aggregation", [])
          | Some buckets =>
              '(totalHits, out) ← userBuckets buckets 0;
              mret (totalHits, None, out)
          end
      end
  end.

(** *** Merging the entry stream *)

(** The first loop of [processResults]: [userMap[username][provider] = true]. *)
Definition observe (userMap : gmap string (gset string)) (entry : LogEntry)
  : gmap string (gset string) :=
  let userMap :=
    match userMap !! Username entry with
    | Some _ => userMap
    | None => <[Username entry := ∅]> userMap
    end in
  alter (λ providers, {[ServiceProvider entry]} ∪ providers) (Username entry) userMap.

(** The body of [for provider := range providers]. *)
Definition addProvider (username : string) (result : Result) (provider : string)
  : Result :=
  let users :=
    alter (λ stats, mkUserStats ({[provider]} ∪ UserProviders stats))
          username (Users result) in
  let providers :=
    match Providers result !! provider with
    | Some _ => Providers result
    | None => <[provider := mkProviderStats ∅]> (Providers result)
    end in
  mkResult users
    (alter (λ stats, mkProviderStats ({[username]} ∪ ProviderUsers stats))
           provider providers).

(** The body of [for username, providers := range userMap]. *)
Definition mergeUser (result : Result) (item : string * gset string) : Result :=
  let '(username, providers) := item in
  let result :=
    match Users result !! username with
    | Some _ => result
    | None => mkResult (<[username := mkUserStats ∅]> (Users result))
                       (Providers result)
    end in
  fold_left (addProvider username) (rangeSet rt providers) result.

(** [processResults]: [entries] is what the channel delivers until it
    is closed. *)
Definition processResults (entries : list LogEntry) (result : Result) : Result :=
  let userMap := fold_left observe entries ∅ in
  fold_left mergeUser (rangeMap rt userMap) result.

(** *** Materialising the report *)

Definition createOutputData (result : Result) (domain : string)
    (startDate endDate : Time) (days : Z) : SimplifiedOutputData :=
  let providerStats :=
    map (λ '(provider, stats),
           let users := rangeSet rt (ProviderUsers stats) in
           mkProviderStat provider (len users) users)
        (rangeMap rt (Providers result)) in
  let userStats :=
    map (λ '(username, stats),
           mkUserStat username (rangeSet rt (UserProviders stats)))
        (rangeMap rt (Users result)) in
  mkOutput domain days
    (FormatDateTime startDate) (FormatDateTime endDate)
    "Aggregated Access-Accept events for the specified domain and time range."
    (Z.of_nat (size (Users result))) (Z.of_nat (size (Providers result)))
    (sortSlice rt (λ a b, UserCount b <? UserCount a) providerStats)
    (sortSlice rt (λ a b, String.ltb (StatUsername a) (StatUsername b)) userStats).

End WithRuntime.

(** *** Start-up of [main]: arguments, range, job queue *)

Record plan := mkPlan {
  days : Z;
  startDate : Time;
  endDate : Time;
  specificDate : bool }.

(** How [main] gets on: it prints the usage line and exits with
    status 1, it stops in [log.Fatalf], or it has made the job channel
    and enqueued the Jobs. *)
Inductive startup :=
| ExitUsage
| Fatal (msg : string)
| Enqueued (p : plan) (jobs : list Job).

(** The date range, before it is aligned to whole days. *)
Definition requestedRange (now : Time) (args : list string) : startup + plan :=
  if (len args <? 2) || (3 <? len args) then inl ExitUsage
  else if len args =? 3 then
    let arg := default "" (args !! 2%nat) in
    let byDate :=
      match Parse layoutDMY arg with
      | None => inl (Fatal "Invalid date format. Use DD-MM-YYYY")
      | Some startDate => inr (mkPlan 1 startDate (AddDate startDate 0 1) true)
      end in
    match Atoi arg with
    | Some d =>
        if d <=? 366
        then inr (mkPlan d (AddDate now 0 (wrap64 (wrap64 (- d) + 1))) now false)
        else byDate
    | None => byDate
    end
  else inr (mkPlan 1 (AddDate now 0 (-1)) now false).

(** [make(chan Job, days)]: a negative size is a run-time panic. *)
Definition makeJobs (days : Z) : run unit :=
  if days <? 0 then Panicked "makechan: size out of range" else mret tt.

(** [main] from its first line to [close(jobs)]; [props] is what
    [readProperties] finds, [None] when it returns an error. *)
Definition start (now : Time) (args : list string) (props : option Properties)
  : run startup :=
  match requestedRange now args with
  | inl stop => mret stop
  | inr p =>
      let startDate := startOfDay (startDate p) in
      let endDate := endOfDay (endDate p) in
      match props with
      | None => mret (Fatal "Error reading properties")
      | Some _ =>
          _ ← makeJobs (days p);
          mret (Enqueued (mkPlan (days p) startDate endDate (specificDate p))
                         (enqueueJobs startDate endDate))
      end
  end.

End Realm.

(** ** eduroam-sp v2.2.2: the service-provider-side query tool *)

Module SP.
Import Sharder.

Record Properties := mkProperties { QWUser : string; QWPass : string; QWURL : string }.

Record LogEntry := mkLogEntry {
  Username : string;
  Realm : string;
  ServiceProvider : string;
  StationID : string;
  Timestamp : Time }.

Record UserActivity := mkUserActivity {
  ActivityUsername : string;
  ActivityRealm : string;
  AuthTimestamps : list Time }.

Record StationStats := mkStationStats {
  StationStatsID : string;
  StationTotalAuths : Z;
  StationUsers : gmap string UserActivity }.

Record RealmStats := mkRealmStats {
  RealmStatsRealm : string;
  RealmUsers : gset string;
  RealmStations : gset string;
  RealmTotalAuths : Z }.

Record Result := mkResult {
  Stations : gmap string StationStats;
  Realms : gmap string RealmStats }.

Record UserDetail := mkUserDetail {
  DetailUsername : string;
  DetailRealm : string;
  DetailAuthTimestamps : list string }.

Record RealmStat := mkRealmStat {
  StatRealm : string;
  StatTotalUsers : Z;
  StatTotalStations : Z;
  StatTotalAuths : Z }.

Definition getDomain (input : string) : string :=
  if String.eqb input "etlr1" then "etlr1.eduroam.org"
  else if String.eqb input "etlr2" then "etlr2.eduroam.org"
  else if HasPrefix input "eduroam." then input
  else "eduroam." +:+ input.

Definition isLeapYear (year : Z) : bool :=
  (Z.rem year 4 =? 0) && (negb (Z.rem year 100 =? 0) || (Z.rem year 400 =? 0)).

Section WithRuntime.
Variable rt : Runtime.

(** The pattern analysis works on float64 minutes; its three entry
    points are taken as they are. *)
Variables UsagePattern SessionAnalysis PotentialIssue : Type.
Variable analyzeUsagePatterns : list Time → option UsagePattern.
Variable analyzeSessionPatterns : list Time → option SessionAnalysis.
Variable analyzePotentialIssues : UsagePattern → list PotentialIssue.

Record StationStatsOutput := mkStationStatsOutput {
  OutStationID : string;
  OutTotalAuths : Z;
  OutTotalUsers : Z;
  OutUsagePatterns : option UsagePattern;
  OutSessionAnalysis : option SessionAnalysis;
  OutPotentialIssues : list PotentialIssue;
  OutUserDetails : list UserDetail }.

Record SimplifiedOutputData := mkOutput {
  QueryInfoServiceProvider : string;
  QueryInfoDays : Z;
  QueryInfoStartDate : string;
  QueryInfoEndDate : string;
  SummaryUniqueStations : Z;
  SummaryUniqueUsers : Z;
  SummaryUniqueRealms : Z;
  SummaryTotalAuths : Z;
  OutStationStats : list StationStatsOutput;
  OutRealmStats : list RealmStat }.

(** *** Folding a decoded aggregation response *)

Fixpoint concatRun {A B} (f : A → run (list B)) (items : list A) : run (list B) :=
  match items with
  | [] => mret []
  | x :: rest => out ← f x; more ← concatRun f rest; mret (out ++ more)
  end.

Definition processUserAuthTimes (bucket : gmap string value)
    (username realm stationID : string) : run (list LogEntry) :=
  match asObject (member bucket "auth_times") with
  | None => mret []
  | Some authTimes =>
      match asArray (member authTimes "buckets") with
      | None => mret []
      | Some timeBuckets =>
          concatRun (λ timeBucketInterface,
            match asObject timeBucketInterface with
            | None => mret []
            | Some timeBucket =>
                docCount ← mustNumber (member timeBucket "doc_count");
                if docCount =? 0 then mret []
                else
                  key ← mustNumber (member timeBucket "key");
                  mret [mkLogEntry username realm "" stationID
                          (mkTime (Z.quot key 1000 * second) (localZone rt))]
            end) timeBuckets
      end
  end.

Definition processStationBucket (bucket : gmap string value) (stationID : string)
  : run (list LogEntry) :=
  match asObject (member bucket "by_user") with
  | None => mret []
  | Some byUser =>
      match asArray (member byUser "buckets") with
      | None => mret []
      | Some userBuckets =>
          concatRun (λ userBucketInterface,
            match asObject userBucketInterface with
            | None => mret []
            | Some userBucket =>
                username ← mustString (member userBucket "key");
                match asObject (member userBucket "by_realm") with
                | Some byRealm =>
                    match asArray (member byRealm "buckets") with
                    | Some (first :: _) =>
                        match asObject first with
                        | Some realmBucket =>
                            realm ← mustString (member realmBucket "key");
                            processUserAuthTimes userBucket username realm stationID
                        | None => mret []
                        end
                    | _ => mret []
                    end
                | None => mret []
                end
            end) userBuckets
      end
  end.

Fixpoint stationBuckets (buckets : list value) (totalHits : Z)
  : run (Z * list LogEntry) :=
  match buckets with
  | [] => mret (totalHits, [])
  | bucketInterface :: rest =>
      match asObject bucketInterface with
      | None => stationBuckets rest totalHits
      | Some bucket =>
          stationID ← mustString (member bucket "key");
          docCount ← mustNumber (member bucket "doc_count");
          let totalHits := wrap64 (totalHits + docCount) in
          out ← processStationBucket bucket stationID;
          '(total, more) ← stationBuckets rest totalHits;
          mret (total, out ++ more)
      end
  end.

Definition processAggregations (result : gmap string value)
  : run (Z * error * list LogEntry) :=
  match asObject (member result "aggregations") with
  | None => mret (0, Some "no aggregations in response", [])
  | Some aggs =>
      match asObject (member aggs "by_station") with
      | None => mret (0, Some "no by_station aggregation", [])
      | Some byStation =>
          match asArray (member byStation "buckets") with
          | None => mret (0, Some "no buckets in by_station aggregation", [])
          | Some buckets =>
              '(totalHits, out) ← stationBuckets buckets 0;
              mret (totalHits, None, out)
          end
      end
  end.

(** *** Merging the entry stream *)

(** The body of [for entry := range resultChan]. *)
Definition recordEntry (result : Result) (entry : LogEntry) : Result :=
  let stations :=
    match Stations result !! StationID entry with
    | Some _ => Stations result
    | None => <[StationID entry := mkStationStats (StationID entry) 0 ∅]>
                (Stations result)
    end in
  let stations :=
    alter (λ station,
      let users :=
        match StationUsers station !! Username entry with
        | Some _ => StationUsers station
        | None => <[Username entry :=
                      mkUserActivity (Username entry) (Realm entry) []]>
                    (StationUsers station)
        end in
      mkStationStats (StationStatsID station)
        (wrap64 (StationTotalAuths station + 1))
        (alter (λ activity,
                  mkUserActivity (ActivityUsername activity) (ActivityRealm activity)
                    (AuthTimestamps activity ++ [Timestamp entry]))
               (Username entry) users))
      (StationID entry) stations in
  let realms :=
    match Realms result !! Realm entry with
    | Some _ => Realms result
    | None => <[Realm entry := mkRealmStats (Realm entry) ∅ ∅ 0]> (Realms result)
    end in
  mkResult stations
    (alter (λ realm,
              mkRealmStats (RealmStatsRealm realm)
                ({[Username entry]} ∪ RealmUsers realm)
                ({[StationID entry]} ∪ RealmStations realm)
                (wrap64 (RealmTotalAuths realm + 1)))
           (Realm entry) realms).

(** The closing pass that sorts every activity's time stamps. *)
Definition sortActivity (activity : UserActivity) : UserActivity :=
  mkUserActivity (ActivityUsername activity) (ActivityRealm activity)
    (sortSlice rt Before (AuthTimestamps activity)).
Definition sortStation (station : StationStats) : StationStats :=
  mkStationStats (StationStatsID station) (StationTotalAuths station)
    (sortActivity <$> StationUsers station).

Definition processResults (entries : list LogEntry) (result : Result) : Result :=
  let result := fold_left recordEntry entries result in
  mkResult (sortStation <$> Stations result) (Realms result).

(** *** Materialising the report *)

(** The body of [for username, activity := range stats.Users]. *)
Definition addUserDetail (stationStat : StationStatsOutput)
    (item : string * UserActivity) : StationStatsOutput :=
  let '(username, activity) := item in
  let timestamps := map FormatRFC3339 (AuthTimestamps activity) in
  let parsedTimestamps := AuthTimestamps activity in
  let userDetail := mkUserDetail username (ActivityRealm activity) timestamps in
  let details := OutUserDetails stationStat ++ [userDetail] in
  match analyzeUsagePatterns parsedTimestamps with
  | Some usagePatterns =>
      (* analyzeUsagePatterns has sorted parsedTimestamps in place *)
      mkStationStatsOutput (OutStationID stationStat) (OutTotalAuths stationStat)
        (OutTotalUsers stationStat) (Some usagePatterns)
        (analyzeSessionPatterns (sortSlice rt Before parsedTimestamps))
        (analyzePotentialIssues usagePatterns) details
  | None =>
      mkStationStatsOutput (OutStationID stationStat) (OutTotalAuths stationStat)
        (OutTotalUsers stationStat) (OutUsagePatterns stationStat)
        (OutSessionAnalysis stationStat) (OutPotentialIssues stationStat) details
  end.

(** The body of [for stationID, stats := range result.Stations]. *)
Definition stationOutput (item : string * StationStats) : StationStatsOutput :=
  let '(stationID, stats) := item in
  let stationStat :=
    fold_left addUserDetail (rangeMap rt (StationUsers stats))
      (mkStationStatsOutput stationID (StationTotalAuths stats)
         (Z.of_nat (size (StationUsers stats))) None None [] []) in
  mkStationStatsOutput (OutStationID stationStat) (OutTotalAuths stationStat)
    (OutTotalUsers stationStat) (OutUsagePatterns stationStat)
    (OutSessionAnalysis stationStat) (OutPotentialIssues stationStat)
    (sortSlice rt (λ a b, String.ltb (DetailUsername a) (DetailUsername b))
               (OutUserDetails stationStat)).

Definition createOutputData (result : Result) (serviceProvider : string)
    (startDate endDate : Time) (days : Z) : SimplifiedOutputData :=
  let '(uniqueUsers, totalAuths) :=
    fold_left (λ '(uniqueUsers, totalAuths) '(_, stats),
                 (dom (StationUsers stats) ∪ uniqueUsers,
                  wrap64 (totalAuths + StationTotalAuths stats)))
              (rangeMap rt (Stations result)) ((∅ : gset string), 0) in
  let stationStats := map stationOutput (rangeMap rt (Stations result)) in
  let realmStats :=
    map (λ '(realm, stats),
           mkRealmStat realm (Z.of_nat (size (RealmUsers stats)))
             (Z.of_nat (size (RealmStations stats))) (RealmTotalAuths stats))
        (rangeMap rt (Realms result)) in
  mkOutput serviceProvider days
    (FormatDateTime startDate) (FormatDateTime endDate)
    (Z.of_nat (size (Stations result))) (Z.of_nat (size uniqueUsers))
    (Z.of_nat (size (Realms result))) totalAuths
    (sortSlice rt (λ a b, OutTotalAuths b <? OutTotalAuths a) stationStats)
    (sortSlice rt (λ a b, StatTotalAuths b <? StatTotalAuths a) realmStats).

End WithRuntime.

(** *** Start-up of [main]: arguments, range, job queue *)

Record plan := mkPlan {
  days : Z;
  startDate : Time;
  endDate : Time;
  specificDate : bool }.

Inductive startup :=
| ExitUsage
| Fatal (msg : string)
| Enqueued (p : plan) (jobs : list Job).

(** The date range, before it is aligned to whole days.  The location
    [time.Local] is the one [now] is read in. *)
Definition requestedRange (now : Time) (args : list string) : startup + plan :=
  if (len args <? 2) || (3 <? len args) then inl ExitUsage
  else if len args =? 3 then
    let param := default "" (args !! 2%nat) in
    if HasPrefix param "y" && (String.length param =? 5)%nat then
      let yearStr := dropS 1 param in
      match Atoi yearStr with
      | Some year =>
          if (2000 <=? year) && (year <=? 2100) then
            inr (mkPlan (if isLeapYear year then 366 else 365)
                   (Date year 1 1 0 0 0 0 (zoneOff now))
                   (Date year 12 31 23 59 59 999999999 (zoneOff now)) false)
          else inl (Fatal "Invalid year range. Must be between 2000 and 2100")
      | None =>
          inl (Fatal "Invalid year format. Use y followed by 4 digits (e.g., y2024)")
      end
    else if HasSuffix param "y" then
      let yearStr := TrimSuffix param "y" in
      match Atoi yearStr with
      | Some years =>
          if (1 <=? years) && (years <=? 10) then
            let days := years * 365 in
            inr (mkPlan days (AddDate now 0 (- days + 1)) now false)
          else inl (Fatal "Invalid year range. Must be between 1y and 10y")
      | None => inl (Fatal "Invalid year format. Use 1y-10y")
      end
    else
      match Atoi param with
      | Some d =>
          if (1 <=? d) && (d <=? 3650) then
            inr (mkPlan d (AddDate now 0 (- d + 1)) now false)
          else inl (Fatal "Invalid number of days. Must be between 1 and 3650")
      | None =>
          match Parse layoutDMY param with
          | None => inl (Fatal "Invalid date format. Use DD-MM-YYYY")
          | Some startDate => inr (mkPlan 1 startDate (AddDate startDate 0 1) true)
          end
      end
  else inr (mkPlan 1 (AddDate now 0 (-1)) now false).

Definition makeJobs (days : Z) : run unit :=
  if days <? 0 then Panicked "makechan: size out of range" else mret tt.

(** [main] from its first line to [close(jobs)]. *)
Definition start (now : Time) (args : list string) (props : option Properties)
  : run startup :=
  match requestedRange now args with
  | inl stop => mret stop
  | inr p =>
      let startDate := startOfDay (startDate p) in
      let endDate := endOfDay (endDate p) in
      match props with
      | None => mret (Fatal "Error reading properties")
      | Some _ =>
          _ ← makeJobs (days p);
          mret (Enqueued (mkPlan (days p) startDate endDate (specificDate p))
                         (enqueueJobs startDate endDate))
      end
  end.

End SP.

(** ** Concrete inputs used by the examples *)

Module Scenario.

(** 2024-11-01 12:00:00 UTC. *)
Definition nowUTC : Time := Date 2024 11 1 12 0 0 0 0.

Definition noIPv6 (s : string) : option IP := None.

(** The line of the single-line catch-up scenario. *)
Definition catchUpLine : string :=
  "2024-10-14T00:00:02 host-a radiusd[123]: Access-Accept for user alice@ku.ac.th stationid AA-BB-CC-DD-EE-FF from eduroam.ku.ac.th to eduroam.example.ac.th (10.0.0.1)".

(** The same line with the zone designator RFC 3339 asks for. *)
Definition catchUpLineZ : string :=
  "2024-10-14T00:00:02Z host-a radiusd[123]: Access-Accept for user alice@ku.ac.th stationid AA-BB-CC-DD-EE-FF from eduroam.ku.ac.th to eduroam.example.ac.th (10.0.0.1)".

(** An Access-Accept line that ends in the marker [user]. *)
Definition trailingMarkerLine : string :=
  "2024-10-14T00:00:02Z host-a radiusd[123]: Access-Accept for user".

(** A syslog-stamped line of five tokens. *)
Definition shortSyslogLine : string := "Dec 31 00:16:27 host-a radiusd[123]:".

(** A service that answers 413 to a body of more than [limit] entries
    and 200 to any other. *)
Definition fakeServer (limit : Z) (attempt : Z) (body : list Ingest.LogEntry)
  : Ingest.response :=
  if limit <? len body then Ingest.Reply 413 "Payload Too Large"
  else Ingest.Reply 200 "".

(** [n] entries, told apart by their message text. *)
Definition batchOf (n : nat) : list Ingest.LogEntry :=
  map (λ k, Ingest.setFullMessage ("line " +:+ itoa (Z.of_nat k)) Ingest.zeroEntry)
      (seq 0 n).

Definition config : Ingest.Config :=
  Ingest.mkConfig "/var/log/radius.log"
    "http://quickwit:7280/api/v1/nro-logs/ingest" "ingest" "secret" 30000 3.

(** A properties file whose [batchSize] is not a number. *)
Definition propertiesHead : list string :=
  ["# log2quickwit"; "logFilePath=/var/log/radius.log";
   "quickwitURL=http://quickwit:7280/api/v1/nro-logs/ingest"].
Definition propertiesTail : list string :=
  ["username=ingest"; "password=secret"; "maxRetries=5"].
Definition badBatchSize : string := "batchSize = 30k".

Definition obj (members : list (string * value)) : value :=
  Object (list_to_map members).

(** A realm-side response whose only user bucket has no [key]. *)
Definition userBucketWithoutKey : gmap string value :=
  list_to_map
    [("aggregations",
      obj [("unique_users", obj [("buckets", Array [obj [("doc_count", Number 1)]])])])].

(** A realm-side response whose daily bucket has no [doc_count]. *)
Definition dailyBucketWithoutCount : gmap string value :=
  list_to_map
    [("aggregations",
      obj [("unique_users", obj [("buckets", Array [
        obj [("key", Str "alice"); ("doc_count", Number 1);
             ("providers", obj [("buckets", Array [obj [("key", Str "sp1")]])]);
             ("daily", obj [("buckets", Array [obj [("key", Number 1728864000000)]])])]])])])].

(** An SP-side response whose only station bucket has no [key]. *)
Definition stationBucketWithoutKey : gmap string value :=
  list_to_map
    [("aggregations",
      obj [("by_station", obj [("buckets", Array [obj [("doc_count", Number 1)]])])])].

(** A well-formed realm-side response with a bucket that is not a map,
    a provider bucket that is not a map and an empty daily bucket. *)
Definition mixedBuckets : gmap string value :=
  list_to_map
    [("aggregations",
      obj [("unique_users", obj [("buckets", Array [
        Str "stray";
        obj [("key", Str "alice"); ("doc_count", Number 3);
             ("providers", obj [("buckets", Array [obj [("key", Str "sp1")]; Number 4])]);
             ("daily", obj [("buckets", Array [
                obj [("key", Number 1728864000000); ("doc_count", Number 0)];
                obj [("key", Number 1728950400000); ("doc_count", Number 3)];
                Nil])])]])])])].

Definition props : Realm.Properties :=
  Realm.mkProperties "query" "secret" "http://quickwit:7280".
Definition spProps : SP.Properties :=
  SP.mkProperties "query" "secret" "http://quickwit:7280".

(** Station S1 with one user and three authentications, station S2
    with two users and one authentication each. *)
Definition at_ (sec : Z) : Time := mkTime (sec * second) 0.
Definition stationEntries : list SP.LogEntry :=
  [SP.mkLogEntry "alice" "r1" "" "S1" (at_ 1728864000);
   SP.mkLogEntry "alice" "r1" "" "S1" (at_ 1728864060);
   SP.mkLogEntry "alice" "r1" "" "S1" (at_ 1728864120);
   SP.mkLogEntry "bob" "r1" "" "S2" (at_ 1728864000);
   SP.mkLogEntry "carol" "r2" "" "S2" (at_ 1728864000)].

Definition emptyResult : SP.Result := SP.mkResult ∅ ∅.


(** The report on [stationEntries], the pattern analysis left out. *)
Definition stationReport : SP.SimplifiedOutputData unit unit unit :=
  SP.createOutputData refRuntime unit unit unit
    (λ _, None) (λ _, None) (λ _, [])
    (SP.processResults refRuntime stationEntries emptyResult)
    "eduroam.example.ac.th" (at_ 1728864000) (at_ 1728950399) 1.

End Scenario.

(** ** log2quickwit v1.5.5: the guarded field reader and the file loops *)

Module IngestFile.
Import Ingest.

Section Reader.
Variable parseIPv6 : string → option IP.

(** The [switch] of [parseAccessMessage]; [i] is the loop index, [part]
    the element. *)
Definition accessField (parts : list string) (i : Z) (part : string)
    (entry : LogEntry) : run LogEntry :=
  if HasPrefix part "user" then
    if i + 1 <? len parts then
      v ← index parts (i + 1); mret (setUsername v entry)
    else mret entry
  else if HasPrefix part "stationid" then
    if i + 1 <? len parts then
      v ← index parts (i + 1); mret (setStationID v entry)
    else mret entry
  else if String.eqb part "from" then
    if i + 1 <? len parts then
      v ← index parts (i + 1); mret (setRealm v entry)
    else mret entry
  else if String.eqb part "to" then
    if i + 1 <? len parts then
      v ← index parts (i + 1);
      let entry := setServiceProvider v entry in
      if i + 2 <? len parts then
        ip ← index parts (i + 2);
        mret (setDestinationIP (ParseIP parseIPv6 (Trim ip "()")) entry)
      else mret entry
    else mret entry
  else mret entry.

Fixpoint accessFields (parts : list string) (i : Z) (rest : list string)
    (entry : LogEntry) : run LogEntry :=
  match rest with
  | [] => mret entry
  | part :: rest' =>
      entry' ← accessField parts i part entry;
      accessFields parts (i + 1) rest' entry'
  end.

(** [parseAccessMessage(entry, message)]: the entry as the call leaves it. *)
Definition parseAccessMessage (entry : LogEntry) (message : string) : run LogEntry :=
  let parts := Fields message in
  accessFields parts 0 parts entry.

End Reader.

(** *** The loops over the lines of the log file *)

(** One call of [sendToQuickwitWithRetry] as a loop makes it: the batch
    handed over, the error returned and what went over the wire. *)
Record delivery := mkDelivery {
  batch : list LogEntry;
  outcome : error;
  wire : list event }.

Section Loops.
Variable parseIPv6 : string → option IP.
(** The remote service during the [k]-th call of [sendToQuickwitWithRetry]. *)
Variable servers : nat → Z → list LogEntry → response.

(** The loop of [processExistingData].  A line comes with the reading of
    the clock [parseTimestamp] takes while it is parsed; [calls] are the
    deliveries made so far. *)
Fixpoint scanExisting (config : Config) (lines : list (Time * string))
    (entries : list LogEntry) (lineCount errorCount : Z) (calls : list delivery)
  : run (list LogEntry * Z * Z * list delivery) :=
  match lines with
  | [] => mret (entries, lineCount, errorCount, calls)
  | (now, line) :: rest =>
      let lineCount := wrap64 (lineCount + 1) in
      '(entry, err) ← parseLine now parseIPv6 line;
      match err with
      | Some _ =>
          scanExisting config rest entries lineCount (wrap64 (errorCount + 1)) calls
      | None =>
          let entries := entries ++ [entry] in
          if BatchSize config <=? len entries then
            '(err, tr) ← sendToQuickwitWithRetry (servers (length calls)) entries config;
            scanExisting config rest [] lineCount errorCount
              (calls ++ [mkDelivery entries err tr])
          else scanExisting config rest entries lineCount errorCount calls
      end
  end.

(** [processExistingData]: the returned error, the deliveries, and the
    two counts of the closing log line. *)
Definition processExistingData (lines : list (Time * string)) (config : Config)
  : run (error * list delivery * Z * Z) :=
  '(entries, lineCount, errorCount, calls) ← scanExisting config lines [] 0 0 [];
  calls ←
    (if 0 <? len entries then
       '(err, tr) ← sendToQuickwitWithRetry (servers (length calls)) entries config;
       mret (calls ++ [mkDelivery entries err tr])
     else mret calls);
  mret (None, calls, lineCount, errorCount).

(** The part of the file behind [lastPosition] as [readNewEntries] meets
    it: the seek fails, or the scanner yields the lines and ends with or
    without an error. *)
Inductive tail :=
| SeekFails (msg : string)
| Scanned (lines : list (Time * string)) (scanErr : error).

Fixpoint scanNew (lines : list (Time * string)) (newEntries : list LogEntry)
  : run (list LogEntry) :=
  match lines with
  | [] => mret newEntries
  | (now, line) :: rest =>
      '(entry, err) ← parseLine now parseIPv6 line;
      match err with
      | Some _ => scanNew rest newEntries
      | None => scanNew rest (newEntries ++ [entry])
      end
  end.

Definition readNewEntries (f : tail) : run (list LogEntry * error) :=
  match f with
  | SeekFails msg => mret ([], Some ("error seeking file: " +:+ msg))
  | Scanned lines scanErr =>
      newEntries ← scanNew lines [];
      match scanErr with
      | Some msg => mret ([], Some ("error scanning file: " +:+ msg))
      | None => mret (newEntries, None)
      end
  end.

Definition processNewData (f : tail) (config : Config)
  : run (error * list delivery) :=
  '(newEntries, err) ← readNewEntries f;
  match err with
  | Some msg => mret (Some ("error reading new entries: " +:+ msg), [])
  | None =>
      if 0 <? len newEntries then
        '(err, tr) ← sendToQuickwitWithRetry (servers 0) newEntries config;
        match err with
        | Some msg =>
            mret (Some ("error sending new entries to Quickwit: " +:+ msg),
                  [mkDelivery newEntries err tr])
        | None => mret (None, [mkDelivery newEntries err tr])
        end
      else mret (None, [])
  end.

End Loops.

(** The back-off sleeps of a call, in order. *)
Fixpoint slept (tr : list event) : list Z :=
  match tr with
  | [] => []
  | Slept d :: tr' => d :: slept tr'
  | Posted _ _ :: tr' => slept tr'
  end.

End IngestFile.

(** ** agg-uid v1.3.0: the query windows of the reject counter *)

Module AggUid.

(** [30 * 24 * 60 * 60], the seconds of a query window. *)
Definition window : Z := 30 * 24 * 60 * 60.

(** The loop of [getTimestampRanges]
    [for start := startTimestamp; start < endTimestamp; start += window]
    with the [[]int64{start, end}] it appends, each kept as a pair.
    [rounds] bounds the iterations; [None] says the loop is still
    running when they are used up. *)
Fixpoint rangesLoop (rounds : nat) (start endTimestamp : Z) : option (list (Z * Z)) :=
  if start <? endTimestamp then
    match rounds with
    | O => None
    | S rounds' =>
        let end_ := wrap64 (start + window) in
        let end_ := if endTimestamp <? end_ then endTimestamp else end_ in
        cons (start, end_) <$> rangesLoop rounds' (wrap64 (start + window)) endTimestamp
    end
  else Some [].

(** [getTimestampRanges(totalDays)], with [now] for [time.Now()].  The
    rounds are those a run needs whose sums stay inside int64. *)
Definition getTimestampRanges (now : Time) (totalDays : Z) : option (list (Z * Z)) :=
  let endTimestamp := Unix now in
  let startTimestamp := wrap64 (endTimestamp - wrap64 (totalDays * 24 * 60 * 60)) in
  rangesLoop (Z.to_nat ((endTimestamp - startTimestamp) / window + 1))
             startTimestamp endTimestamp.

End AggUid.

(** ** eduroam-sp v2.2.2: the pattern analysis *)

Module Patterns.

(** *** float64

    IEEE 754 binary64, every operation rounded to the nearest value,
    ties to the even one. *)
Definition float64 : Type := SpecFloat.spec_float.
Definition prec : Z := 53.
Definition emax : Z := 1024.
Definition zero : float64 := SpecFloat.S754_zero false.
Definition fadd : float64 → float64 → float64 := SpecFloat.SFadd prec emax.
Definition fdiv : float64 → float64 → float64 := SpecFloat.SFdiv prec emax.
(** [x < y]. *)
Definition flt : float64 → float64 → bool := SpecFloat.SFltb.
(** [x <= y]. *)
Definition fle : float64 → float64 → bool := SpecFloat.SFleb.

(** [float64(n)] for an integer [n]. *)
Definition ofInt (n : Z) : float64 := SpecFloat.binary_normalize prec emax n 0 false.

(** [int(f)]: the fraction is dropped.  For a value outside int64, an
    infinity or a NaN the language leaves the result to the processor
    (amd64 gives the least int64); the minutes of a [Duration] are far
    inside the range. *)
Definition toInt (f : float64) : Z :=
  match f with
  | SpecFloat.S754_zero _ => 0
  | SpecFloat.S754_finite s m e =>
      let v := if 0 <=? e then Z.pos m * 2 ^ e else Z.pos m / 2 ^ (- e) in
      let v := if s then - v else v in
      if (minInt64 <=? v) && (v <=? maxInt64) then v else minInt64
  | _ => minInt64
  end.

(** The digits [strconv] writes for [n] units of [10^-digits]. *)
Definition fixedDigits (digits : nat) (n : Z) : string :=
  itoa (n / 10 ^ Z.of_nat digits) +:+
  match digits with
  | O => ""
  | _ => "." +:+ padInt digits (n mod 10 ^ Z.of_nat digits)
  end.

(** [fmt.Sprintf("%.Nf", f)] with [N = digits]: the exact value of [f],
    rounded to [digits] decimals, a tie going to the even digit; the
    sign is written when the sign bit is set. *)
Definition formatFixed (digits : nat) (f : float64) : string :=
  match f with
  | SpecFloat.S754_nan => "NaN"
  | SpecFloat.S754_infinity s => if s then "-Inf" else "+Inf"
  | SpecFloat.S754_zero s => (if s then "-" else "") +:+ fixedDigits digits 0
  | SpecFloat.S754_finite s m e =>
      let num := Z.pos m * 10 ^ Z.of_nat digits * 2 ^ Z.max e 0 in
      let den := 2 ^ Z.max (- e) 0 in
      let q := num / den in
      let r := num mod den in
      let n := if 2 * r <? den then q
               else if den <? 2 * r then q + 1
               else if Z.even q then q else q + 1 in
      (if s then "-" else "") +:+ fixedDigits digits n
  end.

(** *** package time *)

Definition minute : Z := 60 * second.

(** [t.Sub(u)]: the difference in nanoseconds, the largest or the
    least [Duration] when it does not fit. *)
Definition Sub (t u : Time) : Z :=
  let d := nanos t - nanos u in
  if d <? minInt64 then minInt64 else if maxInt64 <? d then maxInt64 else d.

(** [d.Minutes()]:
    [float64(d / Minute) + float64(d % Minute) / (60 * 1e9)]. *)
Definition Minutes (d : Z) : float64 :=
  fadd (ofInt (Z.quot d minute)) (fdiv (ofInt (Z.rem d minute)) (ofInt 60000000000)).

(** The zero [time.Time], 1 January of the year 1 at 00:00:00 UTC: what
    [time.Parse] returns beside an error. *)
Definition zeroTime : Time := mkTime (-62135596800 * second) 0.

(** [t, _ := time.Parse(time.RFC3339, s)]. *)
Definition parsed (s : string) : Time := default zeroTime (Parse RFC3339 s).

(** [t.Format("15:00-15:59")].  [nextStdChunk] cuts this layout into
    the hour [15], the text [:00-], the hour [15], the text [:], the
    second [5], written without padding, and the text [9]. *)
Definition FormatHourBucket (t : Time) : string :=
  let sod := wallSec t mod 86400 in
  padInt 2 (sod / 3600) +:+ ":00-" +:+ padInt 2 (sod / 3600) +:+ ":" +:+
  itoa (sod mod 60) +:+ "9".

(** [t.Format("15:04")]. *)
Definition FormatHourMinute (t : Time) : string :=
  let sod := wallSec t mod 86400 in
  padInt 2 (sod / 3600) +:+ ":" +:+ padInt 2 (sod / 60 mod 60).

(** *** The analysis records *)

Record Period := mkPeriod {
  PeriodStart : string;
  PeriodEnd : string;
  DurationMinutes : Z;
  AuthCount : Z }.

Record FrequentReauth := mkFrequentReauth {
  ReauthPeriod : string;
  Count : Z;
  Interval : string }.

Record UsagePattern := mkUsagePattern {
  HourlyDistribution : gmap string Z;
  AverageMinutes : float64;
  MinMinutes : Z;
  MaxMinutes : Z;
  ActivePeriods : list Period;
  FrequentReauths : list FrequentReauth;
  LongestGap : Period }.

Record Session := mkSession {
  SessionStart : string;
  SessionEnd : string;
  Duration : string;
  AuthsCount : Z;
  ReauthRate : string }.

Record SessionAnalysis := mkSessionAnalysis {
  TotalSessions : Z;
  AverageSessionDuration : string;
  SessionDetails : list Session }.

Record PotentialIssue := mkPotentialIssue {
  IssueType : string;
  IssuePeriod : string;
  Description : string }.

(** *** findActivePeriods *)

Definition maxGapMinutes : Z := 15.

(** The statements that end a period: [start] is [currentPeriod.Start],
    [final] the time stamp the period ends at. *)
Definition closePeriod (start : string) (final : Time) (authCount : Z) : Period :=
  let end_ := FormatRFC3339 final in
  let startTime := parsed start in
  let endTime := parsed end_ in
  mkPeriod start end_ (toInt (Minutes (Sub endTime startTime))) authCount.

(** The loop [for i := 1; i < len(timestamps); i++] and the statements
    after it: [prev] is [timestamps[i-1]], [rest] is [timestamps[i:]]. *)
Fixpoint periodsLoop (prev : Time) (rest : list Time) (start : string)
    (authCount : Z) (periods : list Period) : list Period :=
  match rest with
  | [] => periods ++ [closePeriod start prev authCount]
  | ts :: rest' =>
      let gap := Minutes (Sub ts prev) in
      if flt (ofInt maxGapMinutes) gap
      then periodsLoop ts rest' (FormatRFC3339 ts) 1
             (periods ++ [closePeriod start prev authCount])
      else periodsLoop ts rest' start (wrap64 (authCount + 1)) periods
  end.

Definition findActivePeriods (timestamps : list Time) : list Period :=
  match timestamps with
  | first :: (_ :: _) as rest => periodsLoop first rest (FormatRFC3339 first) 1 []
  | _ => []
  end.

(** *** analyzeSessionPatterns *)

Definition sessionTimeout : Z := 15.

Definition closeSession (start : string) (final : Time) (authCount : Z) : Session :=
  let end_ := FormatRFC3339 final in
  let startTime := parsed start in
  let endTime := parsed end_ in
  let duration := Minutes (Sub endTime startTime) in
  mkSession start end_ (formatFixed 0 duration +:+ " minutes") authCount
    ("1 auth/" +:+ formatFixed 1 (fdiv duration (ofInt authCount)) +:+ " minutes").

Fixpoint sessionsLoop (prev : Time) (rest : list Time) (start : string)
    (authCount : Z) (sessions : list Session) : list Session :=
  match rest with
  | [] => sessions ++ [closeSession start prev authCount]
  | ts :: rest' =>
      let gap := Minutes (Sub ts prev) in
      if flt (ofInt sessionTimeout) gap
      then sessionsLoop ts rest' (FormatRFC3339 ts) 1
             (sessions ++ [closeSession start prev authCount])
      else sessionsLoop ts rest' start (wrap64 (authCount + 1)) sessions
  end.

Definition analyzeSessionPatterns (timestamps : list Time) : option SessionAnalysis :=
  match timestamps with
  | first :: (_ :: _) as rest =>
      let sessions := sessionsLoop first rest (FormatRFC3339 first) 1 [] in
      let totalDuration :=
        fold_left (λ totalDuration session,
                     let startTime := parsed (SessionStart session) in
                     let endTime := parsed (SessionEnd session) in
                     fadd totalDuration (Minutes (Sub endTime startTime)))
                  sessions zero in
      Some (mkSessionAnalysis (len sessions)
              (formatFixed 0 (fdiv totalDuration (ofInt (len sessions))) +:+ " minutes")
              sessions)
  | _ => None
  end.

(** *** findFrequentReauths *)

Definition maxInterval : Z := 2.
Definition minCount : Z := 3.

(** [if len(currentGroup) >= minCount { reauths = append(reauths, ...) }]:
    what the test appends. *)
Definition reauthOf (currentGroup : list Time) : list FrequentReauth :=
  if minCount <=? len currentGroup then
    match head currentGroup, last currentGroup with
    | Some first, Some final =>
        [mkFrequentReauth
           (FormatHourMinute first +:+ "-" +:+ FormatHourMinute final)
           (len currentGroup) (itoa maxInterval +:+ "min")]
    | _, _ => []
    end
  else [].

(** The loop [for i := 0; i < len(timestamps)-1; i++] and the test
    after it: [prev] is [timestamps[i]], [rest] is [timestamps[i+1:]]. *)
Fixpoint reauthsLoop (prev : Time) (rest : list Time) (currentGroup : list Time)
    (reauths : list FrequentReauth) : list FrequentReauth :=
  match rest with
  | [] => reauths ++ reauthOf currentGroup
  | next :: rest' =>
      let currentGroup :=
        if len currentGroup =? 0 then currentGroup ++ [prev] else currentGroup in
      if fle (Minutes (Sub next prev)) (ofInt maxInterval)
      then reauthsLoop next rest' (currentGroup ++ [next]) reauths
      else reauthsLoop next rest' [] (reauths ++ reauthOf currentGroup)
  end.

Definition findFrequentReauths (timestamps : list Time) : list FrequentReauth :=
  match timestamps with
  | [] => []
  | first :: rest => reauthsLoop first rest [] []
  end.

(** *** findLongestGap *)

Fixpoint longestGapLoop (prev : Time) (rest : list Time) (maxGap : float64)
    (longestGap : Period) : Period :=
  match rest with
  | [] => longestGap
  | ts :: rest' =>
      let gap := Minutes (Sub ts prev) in
      if flt maxGap gap
      then longestGapLoop ts rest' gap
             (mkPeriod (FormatRFC3339 prev) (FormatRFC3339 ts) (toInt gap) 0)
      else longestGapLoop ts rest' maxGap longestGap
  end.

Definition findLongestGap (timestamps : list Time) : Period :=
  match timestamps with
  | [] => mkPeriod "" "" 0 0
  | first :: rest => longestGapLoop first rest zero (mkPeriod "" "" 0 0)
  end.

(** *** analyzeUsagePatterns *)

(** [timestamps[i].Sub(timestamps[i-1]).Minutes()] for [i] from 1. *)
Fixpoint intervalsLoop (prev : Time) (rest : list Time) : list float64 :=
  match rest with
  | [] => []
  | ts :: rest' => Minutes (Sub ts prev) :: intervalsLoop ts rest'
  end.

(** [pattern.HourlyDistribution[hour]++]. *)
Definition countHour (distribution : gmap string Z) (ts : Time) : gmap string Z :=
  let hour := FormatHourBucket ts in
  <[hour := wrap64 (default 0 (distribution !! hour) + 1)]> distribution.

Section WithRuntime.
Variable rt : Runtime.

Definition analyzeUsagePatterns (timestamps : list Time) : option UsagePattern :=
  if len timestamps =? 0 then None
  else
    let timestamps := sortSlice rt Before timestamps in
    let distribution := fold_left countHour timestamps ∅ in
    let intervals :=
      match timestamps with
      | [] => []
      | first :: rest => intervalsLoop first rest
      end in
    let '(averageMinutes, minMinutes, maxMinutes) :=
      match intervals with
      | [] => (zero, 0, 0)
      | first :: _ =>
          let '(sum, minInterval, maxInterval) :=
            fold_left (λ '(sum, minInterval, maxInterval) interval,
                         (fadd sum interval,
                          if flt interval minInterval then interval else minInterval,
                          if flt maxInterval interval then interval else maxInterval))
                      intervals (zero, first, first) in
          (fdiv sum (ofInt (len intervals)), toInt minInterval, toInt maxInterval)
      end in
    Some (mkUsagePattern distribution averageMinutes minMinutes maxMinutes
            (findActivePeriods timestamps) (findFrequentReauths timestamps)
            (findLongestGap timestamps)).

End WithRuntime.

(** *** analyzePotentialIssues *)

Definition analyzePotentialIssues (patterns : UsagePattern) : list PotentialIssue :=
  let issues :=
    map (λ reauth,
           mkPotentialIssue "frequent_reauth" (ReauthPeriod reauth)
             (itoa (Count reauth) +:+ " re-authentications within " +:+ Interval reauth))
        (FrequentReauths patterns) in
  let issues :=
    if 60 <? DurationMinutes (LongestGap patterns)
    then issues ++
         [mkPotentialIssue "long_gap"
            (PeriodStart (LongestGap patterns) +:+ " to " +:+
             PeriodEnd (LongestGap patterns))
            ("No activity for " +:+ itoa (DurationMinutes (LongestGap patterns))
             +:+ " minutes")]
    else issues in
  if MinMinutes patterns <? 1
  then issues ++
       [mkPotentialIssue "rapid_reauth" "throughout session"
          "Some re-authentications occurred less than 1 minute apart"]
  else issues.

(** [createOutputData] of eduroam-sp with the analysis it calls. *)
Definition createOutputData (rt : Runtime) :=
  SP.createOutputData rt UsagePattern SessionAnalysis PotentialIssue
    (analyzeUsagePatterns rt) analyzeSessionPatterns analyzePotentialIssues.

End Patterns.

(** * Properties *)

Import Sharder Scenario.

(** ** The ingest transport *)

Lemma slice_prefix {A} (l : list A) (n : Z) :
  0 ≤ n ≤ len l → slice l 0 n = Done (take (Z.to_nat n) l).
Proof.
  intros Hn. unfold slice.
  destruct (Z.ltb_spec 0 0); [lia|].
  destruct (Z.ltb_spec n 0); [lia|].
  destruct (Z.ltb_spec (Z.of_nat (length l)) n); [unfold len in Hn; lia|].
  simpl. by rewrite Z.sub_0_r.
Qed.

Section TransportFacts.
Variable server : Z → list Ingest.LogEntry → Ingest.response.
Variable config : Ingest.Config.
Variable entries : list Ingest.LogEntry.

(** The retry loop never panics while the working size stays within the
    batch, and whatever it delivers is a prefix of the batch. *)
Lemma retryLoop_delivers_prefix left i batchSize :
  0 ≤ batchSize ≤ len entries →
  ∃ err tr, Ingest.retryLoop server config entries left i batchSize = Done (err, tr)
    ∧ ∃ n, Ingest.delivered tr = take n entries.
Proof.
  revert i batchSize. induction left as [|left IH]; intros i batchSize Hb.
  - eexists _, []. split; [reflexivity|]. by exists 0%nat.
  - cbn [Ingest.retryLoop]. rewrite (slice_prefix _ _ Hb). cbn [mbind run_bind].
    destruct (Ingest.sendToQuickwit server i (take (Z.to_nat batchSize) entries))
      as [msg|] eqn:Hsend.
    + assert (Hhalf : 0 ≤ batchSize `quot` 2 ≤ len entries).
      { pose proof (Z.quot_pos batchSize 2).
        pose proof (Z.quot_le_upper_bound batchSize 2 batchSize).
        lia. }
      destruct (Contains msg "413" || Contains msg "Payload Too Large").
      * cbv zeta. destruct (batchSize `quot` 2 <? 1).
        -- eexists _, _. split; [reflexivity|]. by exists 0%nat.
        -- destruct (IH (i + 1) (batchSize `quot` 2) Hhalf) as (err & tr & -> & n & Hn).
           eexists _, _. split; [reflexivity|]. by exists n.
      * destruct (IH (i + 1) batchSize Hb) as (err & tr & -> & n & Hn).
        eexists _, _. split; [reflexivity|]. by exists n.
    + eexists _, _. split; [reflexivity|]. simpl. rewrite app_nil_r. by eexists.
Qed.

Lemma sendToQuickwitWithRetry_delivers_prefix :
  ∃ err tr, Ingest.sendToQuickwitWithRetry server entries config = Done (err, tr)
    ∧ ∃ n, Ingest.delivered tr = take n entries.
Proof.
  apply retryLoop_delivers_prefix. unfold len. lia.
Qed.

(** A 413 answer to the whole batch followed by a 200 answer to its
    first half ends the call with [nil]: the second half is never
    posted. *)
Lemma half_accepted_rest_dropped body1 :
  1 < Ingest.MaxRetries config →
  2 ≤ len entries →
  server 0 entries = Ingest.Reply 413 body1 →
  (∀ body2, server 1 (take (Z.to_nat (len entries `quot` 2)) entries)
            = Ingest.Reply 200 body2 →
   ∃ tr, Ingest.sendToQuickwitWithRetry server entries config = Done (None, tr)
     ∧ Ingest.delivered tr = take (Z.to_nat (len entries `quot` 2)) entries).
Proof.
  intros Hretries Hlen H413 body2 H200.
  unfold Ingest.sendToQuickwitWithRetry.
  destruct (Z.to_nat (Ingest.MaxRetries config)) as [|[|left]] eqn:Hn; [lia..|].
  assert (Hfull : 0 ≤ len entries ≤ len entries) by lia.
  assert (Hhalf : 0 ≤ len entries `quot` 2 ≤ len entries).
  { pose proof (Z.quot_pos (len entries) 2).
    pose proof (Z.quot_le_upper_bound (len entries) 2 (len entries)). lia. }
  assert (Htake : take (Z.to_nat (len entries)) entries = entries).
  { apply take_ge. unfold len. lia. }
  cbn [Ingest.retryLoop]. rewrite (slice_prefix _ _ Hfull), Htake.
  cbn [mbind run_bind]. unfold Ingest.sendToQuickwit at 1. rewrite H413.
  cbn [Z.eqb Pos.eqb].
  assert (Hc : Contains ("error response: Status " +:+ itoa 413 +:+ ", Body: " +:+ body1) "413"
               || Contains ("error response: Status " +:+ itoa 413 +:+ ", Body: " +:+ body1)
                    "Payload Too Large" = true) by reflexivity.
  rewrite Hc. cbv zeta.
  destruct (Z.ltb_spec (len entries `quot` 2) 1) as [Hlt|_].
  { assert (1 ≤ len entries `quot` 2) by (apply Z.quot_le_lower_bound; lia). lia. }
  rewrite (slice_prefix _ _ Hhalf). cbn [mbind run_bind].
  change (0 + 1) with 1. unfold Ingest.sendToQuickwit. rewrite H200. cbn [Z.eqb Pos.eqb].
  eexists. split; [reflexivity|]. simpl. by rewrite app_nil_r.
Qed.

End TransportFacts.

(** C1. A batch of 40 entries sent, with the default of three attempts,
    to a service that takes at most 10 entries per body: the first two
    attempts are answered 413, the third posts the first ten entries
    only and succeeds, and the call returns [nil].  The other thirty
    entries are in no accepted body. *)
Theorem halving_delivers_first_quarter_only :
  ∃ tr,
    Ingest.sendToQuickwitWithRetry (fakeServer 10) (batchOf 40) config
      = Done (None, tr)
    ∧ map len (Ingest.posted tr) = [40; 20; 10]
    ∧ Ingest.delivered tr = take 10 (batchOf 40)
    ∧ Forall (λ e, e ∉ Ingest.delivered tr) (drop 10 (batchOf 40)).
Proof.
  eexists. split; [vm_compute; reflexivity|].
  split; [vm_compute; reflexivity|].
  split; [vm_compute; reflexivity|].
  apply Forall_forall. intros e He Hin.
  vm_compute in He, Hin.
  repeat (apply elem_of_cons in Hin as [->|Hin];
          [by repeat (apply elem_of_cons in He as [He|He]; [discriminate He|]);
              apply elem_of_nil in He|]).
  by apply elem_of_nil in Hin.
Qed.

(** ** The line parser *)

Lemma index_lookup {A} (l : list A) (i : Z) (x : A) :
  0 ≤ i → l !! Z.to_nat i = Some x → index l i = Done x.
Proof.
  intros Hi Hx. unfold index. rewrite Hx.
  apply lookup_lt_Some in Hx.
  assert (H : (i <? 0) || (Z.of_nat (length l) <=? i) = false)
    by (apply orb_false_iff; split; [apply Z.ltb_ge|apply Z.leb_gt]; lia).
  by rewrite H.
Qed.

(** A line of fewer than five tokens is a parse error. *)
Lemma parseLine_too_few_parts now parseIPv6 line :
  (length (Fields line) < 5)%nat →
  Ingest.parseLine now parseIPv6 line
  = Done (Ingest.setFullMessage line Ingest.zeroEntry,
          Some "invalid log format: not enough parts").
Proof.
  intros Hlen. unfold Ingest.parseLine.
  destruct (Z.ltb_spec (len (Fields line)) 5) as [_|Hge]; [done|].
  unfold len in Hge. lia.
Qed.

(** The text [parseLine] hands to [parseTimestamp]. *)
Definition stampOf (parts : list string) : string :=
  match parts with
  | p0 :: _ => if Contains p0 "T" then p0 else Join (take 3 parts) " "
  | [] => ""
  end.

(** A line of five tokens or more whose stamp does not parse is a
    parse error. *)
Lemma parseLine_unparsable_stamp now parseIPv6 line msg :
  (5 ≤ length (Fields line))%nat →
  Ingest.parseTimestamp now (stampOf (Fields line)) = inr msg →
  ∃ entry, Ingest.parseLine now parseIPv6 line
           = Done (entry, Some ("invalid timestamp: " +:+ msg)).
Proof.
  intros Hlen Hstamp. unfold Ingest.parseLine.
  destruct (Fields line) as [|p0 [|p1 [|p2 [|p3 [|p4 rest]]]]] eqn:Hf;
    simpl in Hlen; try lia.
  destruct (Z.ltb_spec (len (p0 :: p1 :: p2 :: p3 :: p4 :: rest)) 5) as [Hlt|_].
  { unfold len in Hlt. simpl length in Hlt. lia. }
  rewrite (index_lookup _ 0 p0) by (done || lia). cbn [mbind run_bind].
  unfold stampOf in Hstamp.
  destruct (Contains p0 "T").
  - rewrite (index_lookup _ 1 p1) by (done || lia).
    cbn [mbind run_bind mret run_ret]. rewrite Hstamp. by eexists.
  - rewrite slice_prefix by (unfold len; simpl length; lia).
    rewrite (index_lookup _ 3 p3) by (done || lia).
    cbn [mbind run_bind mret run_ret].
    change (take (Z.to_nat 3) (p0 :: p1 :: p2 :: p3 :: p4 :: rest))
      with (take 3 (p0 :: p1 :: p2 :: p3 :: p4 :: rest)).
    rewrite Hstamp. by eexists.
Qed.

(** C2. [parseLine] panics on well-formed text: an Access-Accept line
    that ends in the marker [user] reads one element past the end of
    [parts], whatever the clock and the IPv6 reader; and a five-token
    line with a syslog stamp slices [parts[4:7]]. *)
Theorem parseLine_panics_on_short_lines :
  (∀ now parseIPv6,
     Ingest.parseLine now parseIPv6 trailingMarkerLine
       = Panicked "index out of range")
  ∧ Ingest.parseLine nowUTC noIPv6 shortSyslogLine
      = Panicked "slice bounds out of range".
Proof. split; [intros now parseIPv6|]; vm_compute; reflexivity. Qed.

(** C5. The line of the catch-up scenario, whose stamp has no zone
    designator, is returned as a parse error whatever the clock: only
    the message text and the host name are set. *)
Theorem parseLine_rejects_stamp_without_zone :
  ∀ now parseIPv6,
    Ingest.parseLine now parseIPv6 catchUpLine
      = Done (Ingest.setHostname "host-a"
                (Ingest.setFullMessage catchUpLine Ingest.zeroEntry),
              Some "invalid timestamp: unable to parse timestamp").
Proof. intros now parseIPv6. vm_compute. reflexivity. Qed.

(** With the designator [Z] the same line parses into the entry the
    scenario describes. *)
Lemma parseLine_accepts_stamp_with_zone :
  ∀ now parseIPv6,
    ∃ entry,
      Ingest.parseLine now parseIPv6 catchUpLineZ = Done (entry, None)
      ∧ Ingest.Timestamp entry = "2024-10-14T00:00:02Z"
      ∧ Ingest.Hostname entry = "host-a"
      ∧ Ingest.Process entry = "radiusd"
      ∧ Ingest.PID entry = 123
      ∧ Ingest.MessageType entry = "Access-Accept"
      ∧ Ingest.Username entry = "alice@ku.ac.th"
      ∧ Ingest.StationID entry = "AA-BB-CC-DD-EE-FF"
      ∧ Ingest.Realm entry = "eduroam.ku.ac.th"
      ∧ Ingest.ServiceProvider entry = "eduroam.example.ac.th"
      ∧ Ingest.DestinationIP entry = Some [10; 0; 0; 1].
Proof.
  intros now parseIPv6. eexists. split; [vm_compute; reflexivity|].
  repeat split.
Qed.

(** A stamp of the form YYYY-MM-DDTHH:MM:SS, digits in every place,
    and nothing after the seconds. *)
Definition isoStampNoZone (s : string) : bool :=
  match s with
  | String y1 (String y2 (String y3 (String y4 (String c5
    (String m1 (String m2 (String c8 (String d1 (String d2 (String c11
    (String h1 (String h2 (String c14 (String n1 (String n2 (String c17
    (String s1 (String s2 EmptyString)))))))))))))))))) =>
      isDigit y1 && isDigit y2 && isDigit y3 && isDigit y4 && Ascii.eqb c5 "-"
      && isDigit m1 && isDigit m2 && Ascii.eqb c8 "-"
      && isDigit d1 && isDigit d2 && Ascii.eqb c11 "T"
      && isDigit h1 && isDigit h2 && Ascii.eqb c14 ":"
      && isDigit n1 && isDigit n2 && Ascii.eqb c17 ":"
      && isDigit s1 && isDigit s2
  | _ => false
  end.

(** [time.RFC3339] ends in a zone element, which nothing is left for. *)
Lemma Parse_RFC3339_needs_zone s :
  isoStampNoZone s = true → Parse RFC3339 s = None.
Proof.
  intros H. unfold isoStampNoZone in H.
  do 19 (destruct s as [|? s]; [discriminate H|]).
  destruct s; [|discriminate H].
  rewrite !andb_true_iff in H. destruct_and!.
  repeat match goal with
         | E : Ascii.eqb _ _ = true |- _ => apply Ascii.eqb_eq in E; subst
         end.
  unfold Parse, RFC3339.
  repeat (cbn -[isDigit digitVal inRange digitsVal Z.mul Z.add];
          repeat match goal with
                 | E : isDigit ?c = true |- context [isDigit ?c] => rewrite E
                 end;
          try match goal with
              | |- context [if inRange ?a ?b ?c then _ else _] =>
                  destruct (inRange a b c)
              end); try reflexivity.
Qed.

Lemma matchByte_digit c n :
  isDigit c = true → (65 ≤ N_of_ascii n)%N → matchByte c n = false.
Proof.
  intros Hc Hn. unfold matchByte.
  assert (Hne : Ascii.eqb c n = false).
  { apply Ascii.eqb_neq. intros ->. unfold isDigit in Hc.
    apply andb_prop in Hc as [_ Hc]. apply N.leb_le in Hc. lia. }
  rewrite Hne. simpl.
  assert (Hlow : (N.lor (N_of_ascii c) 32 <? 97)%N = true).
  { destruct c as [[] [] [] [] [] [] [] []]; try discriminate Hc; reflexivity. }
  apply N.ltb_lt in Hlow.
  destruct (N.leb_spec 97 (N.lor (N_of_ascii c) 32)); [lia|].
  by rewrite andb_false_r.
Qed.

(** The syslog layout starts with a month name, not a digit. *)
Lemma Parse_syslog_needs_month c rest :
  isDigit c = true → Parse layoutSyslogYear (String c rest) = None.
Proof.
  intros Hc. unfold Parse, layoutSyslogYear. cbn [parseChunks parseChunk].
  assert (Hl : lookupName shortMonthNames 0 (String c rest) = None).
  { unfold shortMonthNames. cbn [lookupName matchFold].
    rewrite !(matchByte_digit c) by (done || (vm_compute; discriminate)).
    reflexivity. }
  by rewrite Hl.
Qed.

Lemma isoStampNoZone_has_T s : isoStampNoZone s = true → Contains s "T" = true.
Proof.
  intros H. unfold isoStampNoZone in H.
  do 19 (destruct s as [|? s]; [discriminate H|]).
  destruct s; [|discriminate H].
  rewrite !andb_true_iff in H. destruct_and!.
  repeat match goal with
         | E : Ascii.eqb _ _ = true |- _ => apply Ascii.eqb_eq in E; subst
         end.
  cbn [Contains HasPrefix].
  repeat match goal with
         | |- context [Ascii.eqb ?a ?b] => destruct (Ascii.eqb a b); try reflexivity
         end.
Qed.

(** No line stamped YYYY-MM-DDTHH:MM:SS without a zone parses, whatever
    follows the stamp and whatever the clock. *)
Lemma parseLine_rejects_every_stamp_without_zone
    now parseIPv6 line stamp host rest :
  Fields line = stamp :: host :: rest →
  (3 ≤ length rest)%nat →
  isoStampNoZone stamp = true →
  Ingest.parseLine now parseIPv6 line
  = Done (Ingest.setHostname host (Ingest.setFullMessage line Ingest.zeroEntry),
          Some "invalid timestamp: unable to parse timestamp").
Proof.
  intros Hf Hlen Hiso. unfold Ingest.parseLine. rewrite Hf.
  destruct (Z.ltb_spec (len (stamp :: host :: rest)) 5) as [Hlt|_].
  { unfold len in Hlt. simpl length in Hlt. lia. }
  rewrite (index_lookup _ 0 stamp) by (done || lia). cbn [mbind run_bind].
  rewrite (isoStampNoZone_has_T _ Hiso), (index_lookup _ 1 host) by (done || lia).
  cbn [mbind run_bind mret run_ret].
  unfold Ingest.parseTimestamp. rewrite (Parse_RFC3339_needs_zone _ Hiso).
  assert (Hold : Parse layoutSyslogYear (stamp +:+ " " +:+ itoa (Year now)) = None).
  { destruct stamp as [|c stamp']; [discriminate Hiso|].
    apply Parse_syslog_needs_month.
    unfold isoStampNoZone in Hiso.
    do 18 (destruct stamp' as [|? stamp']; [discriminate Hiso|]).
    destruct stamp'; [|discriminate Hiso].
    rewrite !andb_true_iff in Hiso. by destruct_and!. }
  by rewrite Hold.
Qed.

(** ** Folding aggregation responses *)

(** What the fold does tolerate: a missing aggregation path is an
    error of the Job; a bucket that is not a map is passed over; a
    histogram bucket with [doc_count] 0 sends nothing. *)
Lemma processAggregations_missing_path rt result :
  (asObject (member result "aggregations") = None →
   Realm.processAggregations rt result
   = Done (0, Some "no aggregations in response", []))
  ∧ (∀ aggs, asObject (member result "aggregations") = Some aggs →
     asObject (member aggs "unique_users") = None →
     Realm.processAggregations rt result
     = Done (0, Some "no unique_users aggregation", []))
  ∧ (∀ aggs uniqueUsers,
     asObject (member result "aggregations") = Some aggs →
     asObject (member aggs "unique_users") = Some uniqueUsers →
     asArray (member uniqueUsers "buckets") = None →
     Realm.processAggregations rt result
     = Done (0, Some "no buckets in unique_users aggregation", [])).
Proof.
  unfold Realm.processAggregations. split_and!.
  - by intros ->.
  - by intros aggs -> ->.
  - by intros aggs uniqueUsers -> -> ->.
Qed.

Lemma userBuckets_skips_non_map rt v rest totalHits :
  asObject v = None →
  Realm.userBuckets rt (v :: rest) totalHits = Realm.userBuckets rt rest totalHits.
Proof. intros Hv. simpl. by rewrite Hv. Qed.

Lemma dailyEntry_skips_empty_bucket rt username provider dailyBucket :
  member dailyBucket "doc_count" = Number 0 →
  Realm.dailyEntry rt username provider (Object dailyBucket) = Done [].
Proof. intros Hc. unfold Realm.dailyEntry. simpl. by rewrite Hc. Qed.

Lemma mixedBuckets_folded :
  Realm.processAggregations refRuntime mixedBuckets
  = Done (3, None, [Realm.mkLogEntry "alice" "sp1" (mkTime (1728950400 * second) 0)]).
Proof. vm_compute. reflexivity. Qed.

(** C7. A bucket that lacks [key], or a histogram bucket that lacks
    [doc_count], makes the fold panic, on the realm side and on the SP
    side alike. *)
Theorem processAggregations_panics_on_missing_key :
  ∀ rt,
    Realm.processAggregations rt userBucketWithoutKey
      = Panicked "interface conversion: interface {} is not string"
    ∧ Realm.processAggregations rt dailyBucketWithoutCount
      = Panicked "interface conversion: interface {} is not float64"
    ∧ SP.processAggregations rt stationBucketWithoutKey
      = Panicked "interface conversion: interface {} is not string".
Proof. intros rt. repeat split; vm_compute; reflexivity. Qed.

(** ** Start-up of the realm-side tool *)

(** C9. The argument [0] is taken as a number of days: the tool goes
    on to make the job channel and enqueues no Job.  The argument [-5]
    is taken too, and [make(chan Job, days)] panics. *)
Theorem realm_start_takes_days_below_one :
  (∃ p, Realm.start nowUTC ["eduroam-accept"; "ku.ac.th"; "0"] (Some props)
          = Done (Realm.Enqueued p [])
        ∧ Realm.days p = 0)
  ∧ (∀ now, Realm.start now ["eduroam-accept"; "ku.ac.th"; "-5"] (Some props)
            = Panicked "makechan: size out of range").
Proof.
  split.
  - eexists. split; [vm_compute; reflexivity|]. reflexivity.
  - intros now. reflexivity.
Qed.

(** A number is never a date of the form DD-MM-YYYY. *)
Lemma Parse_DMY_rejects_numbers arg d :
  Atoi arg = Some d → Parse layoutDMY arg = None.
Proof.
  intros Hd. unfold Parse, layoutDMY. cbn [parseChunks parseChunk].
  destruct arg as [|c r]; [done|].
  destruct (isDigit c) eqn:Hc; [|by cbn [getnum]; rewrite Hc].
  assert (Hr : allDigits r = true).
  { unfold Atoi, ParseInt in Hd.
    destruct c as [[] [] [] [] [] [] [] []]; try discriminate Hc;
      cbn [allDigits] in Hd; rewrite Hc in Hd; simpl in Hd;
      by destruct (allDigits r). }
  cbn [getnum]. rewrite Hc.
  destruct r as [|c2 r2]; [done|].
  cbn [allDigits] in Hr. apply andb_prop in Hr as [Hc2 Hr2]. rewrite Hc2.
  cbn [mbind option_bind]. unfold skip. cbn [skipN String.length].
  destruct r2 as [|c3 r3]; [done|].
  cbn [allDigits] in Hr2. apply andb_prop in Hr2 as [Hc3 _].
  assert (Hne : Ascii.eqb c3 "-" = false).
  { apply Ascii.eqb_neq. intros ->. discriminate Hc3. }
  change (Ascii.eqb "-" " ") with false. cbv iota. by rewrite Hne.
Qed.

(** A number above 366 falls through to the date reader and is fatal. *)
Lemma realm_start_rejects_days_above_366 now prog domain arg d props :
  Atoi arg = Some d → 366 < d →
  Realm.start now [prog; domain; arg] props
  = Done (Realm.Fatal "Invalid date format. Use DD-MM-YYYY").
Proof.
  intros Hd Hbig. unfold Realm.start, Realm.requestedRange.
  change (len [prog; domain; arg]) with 3.
  change (default "" ([prog; domain; arg] !! 2%nat)) with arg.
  change ((3 <? 2) || (3 <? 3)) with false. change (3 =? 3) with true. cbv iota.
  rewrite Hd, (Parse_DMY_rejects_numbers _ _ Hd).
  destruct (Z.leb_spec d 366); [lia|]. reflexivity.
Qed.

(** A number from 1 to 366 is taken as the number of days. *)
Lemma realm_range_takes_days now prog domain arg d :
  Atoi arg = Some d → d ≤ 366 →
  ∃ p, Realm.requestedRange now [prog; domain; arg] = inr p ∧ Realm.days p = d.
Proof.
  intros Hd Hle. unfold Realm.requestedRange.
  change (len [prog; domain; arg]) with 3.
  change (default "" ([prog; domain; arg] !! 2%nat)) with arg.
  change ((3 <? 2) || (3 <? 3)) with false. change (3 =? 3) with true. cbv iota.
  rewrite Hd. destruct (Z.leb_spec d 366); [|lia]. by eexists.
Qed.

(** ** Configuration *)

Definition numericKey (key : string) : Prop :=
  key = "batchSize" ∨ key = "maxRetries".

Definition keyOf (line : string) : option string := fst <$> Ingest.keyValue line.

Lemma configLine_unparsable config line key value :
  Ingest.keyValue line = Some (key, value) →
  numericKey key → Atoi value = None →
  Ingest.configLine config line = config.
Proof.
  intros Hkv [->| ->] Hv; unfold Ingest.configLine; rewrite Hkv; simpl;
    by rewrite Hv.
Qed.

Lemma configLine_other_key_batchSize config line :
  keyOf line ≠ Some "batchSize" →
  Ingest.BatchSize (Ingest.configLine config line) = Ingest.BatchSize config.
Proof.
  unfold keyOf, Ingest.configLine. intros Hk.
  destruct (Ingest.keyValue line) as [[key value]|]; [|done]. simpl in Hk.
  repeat (match goal with
          | |- context [String.eqb ?a ?b] =>
              destruct (String.eqb_spec a b); [subst; try done|]
          end); try done.
  destruct (Atoi value); done.
Qed.

Lemma configLine_other_key_maxRetries config line :
  keyOf line ≠ Some "maxRetries" →
  Ingest.MaxRetries (Ingest.configLine config line) = Ingest.MaxRetries config.
Proof.
  unfold keyOf, Ingest.configLine. intros Hk.
  destruct (Ingest.keyValue line) as [[key value]|]; [|done]. simpl in Hk.
  repeat (match goal with
          | |- context [String.eqb ?a ?b] =>
              destruct (String.eqb_spec a b); [subst; try done|]
          end); try done.
  destruct (Atoi value); done.
Qed.

Lemma fold_configLine_batchSize lines config :
  Forall (λ l, keyOf l ≠ Some "batchSize") lines →
  Ingest.BatchSize (fold_left Ingest.configLine lines config)
    = Ingest.BatchSize config.
Proof.
  intros H. revert config. induction H as [|l lines Hl _ IH]; intros config; simpl;
    [done|].
  by rewrite IH, configLine_other_key_batchSize.
Qed.

Lemma fold_configLine_maxRetries lines config :
  Forall (λ l, keyOf l ≠ Some "maxRetries") lines →
  Ingest.MaxRetries (fold_left Ingest.configLine lines config)
    = Ingest.MaxRetries config.
Proof.
  intros H. revert config. induction H as [|l lines Hl _ IH]; intros config; simpl;
    [done|].
  by rewrite IH, configLine_other_key_maxRetries.
Qed.

(** C10, amended.  Among the lines the scanner yields from a
    properties file of ASCII text, a [batchSize] or [maxRetries] line
    whose value [strconv.Atoi] rejects changes nothing: the loop leaves
    the configuration as it is, and [loadConfig] returns what it
    returns for the file without the line, so the line never causes an
    error.  The field keeps what the other lines make of it: the
    default, 30000 or 3, when no other line of the file has that key. *)
Theorem loadConfig_ignores_unparsable_number
    (before after : list string) (line key value : string) (scanErr : error) :
  Forall (λ l, isASCII l = true) (before ++ line :: after) →
  Ingest.keyValue line = Some (key, value) →
  numericKey key →
  Atoi value = None →
  (∀ config, Ingest.configLine config line = config)
  ∧ Ingest.loadConfig (Ingest.Opened (before ++ line :: after) scanErr)
    = Ingest.loadConfig (Ingest.Opened (before ++ after) scanErr)
  ∧ (Forall (λ l, keyOf l ≠ Some key) (before ++ after) →
     let config := (Ingest.loadConfig (Ingest.Opened (before ++ line :: after) scanErr)).1 in
     (key = "batchSize" → Ingest.BatchSize config = 30000)
     ∧ (key = "maxRetries" → Ingest.MaxRetries config = 3)).
Proof.
  intros _ Hkv Hkey Hv.
  assert (Hline : ∀ config, Ingest.configLine config line = config)
    by (intros; by eapply configLine_unparsable).
  assert (Hsame : fold_left Ingest.configLine (before ++ line :: after) Ingest.defaultConfig
                  = fold_left Ingest.configLine (before ++ after) Ingest.defaultConfig).
  { rewrite !fold_left_app. simpl. by rewrite Hline. }
  split; [exact Hline|]. split.
  - unfold Ingest.loadConfig. by rewrite Hsame.
  - intros Hothers. cbv zeta.
    assert (Hfst : ∀ f, (Ingest.loadConfig (Ingest.Opened f scanErr)).1
                        = fold_left Ingest.configLine f Ingest.defaultConfig).
    { intros f. unfold Ingest.loadConfig. destruct scanErr; [done|].
      by destruct (_ || _). }
    rewrite Hfst, Hsame. split; intros ->.
    + by rewrite fold_configLine_batchSize.
    + by rewrite fold_configLine_maxRetries.
Qed.

Lemma loadConfig_ignores_unparsable_number_witness :
  Ingest.loadConfig (Ingest.Opened (propertiesHead ++ badBatchSize :: propertiesTail) None)
    = Ingest.loadConfig (Ingest.Opened (propertiesHead ++ propertiesTail) None)
  ∧ Ingest.BatchSize
      (Ingest.loadConfig
         (Ingest.Opened (propertiesHead ++ badBatchSize :: propertiesTail) None)).1
    = 30000.
Proof.
  destruct (loadConfig_ignores_unparsable_number
              propertiesHead propertiesTail badBatchSize "batchSize" "30k" None)
    as (_ & Hsame & Hdefault).
  - repeat constructor.
  - vm_compute. reflexivity.
  - left. reflexivity.
  - vm_compute. reflexivity.
  - split; [exact Hsame|].
    apply Hdefault; [|reflexivity].
    repeat constructor; vm_compute; discriminate.
Defined.

(** C10 as stated fails: after a line that sets [batchSize] to 500, a
    [batchSize] line with the value [30k] leaves 500, not the default
    30000. *)
Lemma unparsable_number_keeps_earlier_value :
  Ingest.keyValue badBatchSize = Some ("batchSize", "30k")
  ∧ Atoi "30k" = None
  ∧ Ingest.loadConfig
      (Ingest.Opened (propertiesHead ++ "batchSize = 500" :: badBatchSize
                        :: propertiesTail) None)
    = (Ingest.mkConfig "/var/log/radius.log"
                       "http://quickwit:7280/api/v1/nro-logs/ingest" "ingest" "secret"
                       500 5, None).
Proof. split_and!; vm_compute; reflexivity. Qed.

(** ** The range sharder *)

(** Local midnight and the last nanosecond of day number [D] (days
    since 1970-01-01) in the zone [off] seconds east of UTC. *)
Definition midnight (D off : Z) : Time := mkTime (second * (86400 * D - off)) off.
Definition lastNano (D off : Z) : Time :=
  mkTime (second * (86400 * D + 86399 - off) + 999999999) off.

(** The day number [time.Date] arrives at for a civil date. *)
Definition dayNumber (y m d : Z) : Z :=
  daysFromCivil (y + (m - 1) / 12) ((m - 1) mod 12 + 1) 1 + d - 1.
Definition dayIndex (t : Time) : Z := dayNumber (Year t) (Month t) (Day t).

(** The [k]-th of the [n] Jobs of a range that starts at second [a]:
    a whole day, except that the last Job stops a second short. *)
Definition dayJob (a : Z) (n k : nat) : Job :=
  mkJob (a + 86400 * Z.of_nat k)
        (if (S k <? n)%nat then a + 86400 * Z.of_nat (S k)
         else a + 86400 * Z.of_nat n - 1).

(** Jobs that split the seconds from [a] up to [b]: none is empty, no
    second is in two of them, and together they hold exactly the
    seconds [a ≤ t < b]. *)
Definition covers (j : Job) (t : Z) : Prop := StartTimestamp j ≤ t < EndTimestamp j.
Definition partitions (jobs : list Job) (a b : Z) : Prop :=
  Forall (λ j, StartTimestamp j < EndTimestamp j) jobs
  ∧ (∀ i k ji jk t, i ≠ k → jobs !! i = Some ji → jobs !! k = Some jk →
       ¬ (covers ji t ∧ covers jk t))
  ∧ (∀ t, (∃ j, j ∈ jobs ∧ covers j t) ↔ a ≤ t < b).

(** [time.Local] has rules: the offset, in seconds east of UTC, in
    force at each Unix second.  The embedding reads the clock with one
    offset and builds every local date with it, which is what the
    program does in a zone that [keepsOffset].  In a zone whose offset
    changes, [time.Date] and [AddDate] take the offset in force on the
    date they build: the statements that name [keepsOffset] do not
    cover such a zone. *)
Definition Location : Type := Z → Z.
Definition keepsOffset (local : Location) (off : Z) : Prop :=
  ∀ unix, local unix = off.

(** The Job starts when the local clock shows 00:00:00. *)
Definition startsAtMidnight (local : Location) (j : Job) : Prop :=
  (StartTimestamp j + local (StartTimestamp j)) mod 86400 = 0.

(** The loop ends by its own test: once the rounds cover the days
    begun, more rounds change nothing. *)
Lemma roundsNeeded_done currentDate endDate :
  Before currentDate endDate = false → roundsNeeded currentDate endDate = 0%nat.
Proof.
  unfold Before, roundsNeeded. intros H%Z.ltb_ge.
  assert ((nanos endDate - nanos currentDate + hour24 - 1) `div` hour24 ≤ 0); [|lia].
  assert (Hh : 0 < hour24) by (unfold hour24, second; lia).
  apply Z.lt_succ_r. apply Z.div_lt_upper_bound; lia.
Qed.

Lemma roundsNeeded_step currentDate endDate :
  Before currentDate endDate = true →
  roundsNeeded currentDate endDate
  = S (roundsNeeded (nextDate currentDate endDate) endDate).
Proof.
  unfold Before, roundsNeeded, nextDate, After, Add. intros H%Z.ltb_lt.
  assert (Hh : 0 < hour24) by (unfold hour24, second; lia).
  simpl.
  destruct (Z.ltb_spec (nanos endDate) (nanos currentDate + hour24)) as [Hlast|Hmore].
  - replace ((nanos endDate - nanos endDate + hour24 - 1) `div` hour24) with 0
      by (symmetry; apply Z.div_small; lia).
    replace ((nanos endDate - nanos currentDate + hour24 - 1) `div` hour24) with 1;
      [done|].
    apply (Z.div_unique _ _ _ (nanos endDate - nanos currentDate - 1)); lia.
  - simpl.
    replace (nanos endDate - nanos currentDate + hour24 - 1)
      with (1 * hour24 + (nanos endDate - (nanos currentDate + hour24) + hour24 - 1))
      by lia.
    rewrite Z.div_add_l by lia.
    assert (0 ≤ (nanos endDate - (nanos currentDate + hour24) + hour24 - 1) `div` hour24)
      by (apply Z.div_pos; lia).
    lia.
Qed.

Lemma enqueueLoop_terminates rounds currentDate endDate :
  (roundsNeeded currentDate endDate ≤ rounds)%nat →
  enqueueLoop rounds currentDate endDate = enqueueJobs currentDate endDate.
Proof.
  unfold enqueueJobs. revert currentDate.
  induction rounds as [|rounds IH]; intros currentDate Hr.
  - by replace (roundsNeeded currentDate endDate) with 0%nat by lia.
  - destruct (Before currentDate endDate) eqn:Hb.
    + rewrite (roundsNeeded_step _ _ Hb) in *. cbn [enqueueLoop]. rewrite Hb.
      f_equal. apply IH. lia.
    + rewrite (roundsNeeded_done _ _ Hb). cbn [enqueueLoop]. by rewrite Hb.
Qed.

Lemma Date_midnight y m d off :
  Date y m d 0 0 0 0 off = midnight (dayNumber y m d) off.
Proof. unfold Date, midnight, dayNumber. f_equal; unfold second; lia. Qed.

Lemma Date_lastNano y m d off :
  Date y m d 23 59 59 999999999 off = lastNano (dayNumber y m d) off.
Proof. unfold Date, lastNano, dayNumber. f_equal; unfold second; lia. Qed.

Lemma startOfDay_midnight t : startOfDay t = midnight (dayIndex t) (zoneOff t).
Proof. apply Date_midnight. Qed.

Lemma endOfDay_lastNano t : endOfDay t = lastNano (dayIndex t) (zoneOff t).
Proof. apply Date_lastNano. Qed.

Lemma Unix_midnight D off : Unix (midnight D off) = 86400 * D - off.
Proof.
  unfold Unix, midnight. simpl. rewrite Z.mul_comm.
  apply Z.div_mul. unfold second. lia.
Qed.

Lemma Unix_lastNano D off : Unix (lastNano D off) = 86400 * D + 86399 - off.
Proof.
  unfold Unix, lastNano. simpl. symmetry.
  apply (Z.div_unique _ _ _ 999999999); unfold second; lia.
Qed.

Lemma Add_midnight D off : Add (midnight D off) hour24 = midnight (D + 1) off.
Proof. unfold Add, midnight, hour24, second. simpl. f_equal; lia. Qed.

Lemma Before_midnight_lastNano D E off :
  Before (midnight D off) (lastNano E off) = bool_decide (D ≤ E).
Proof.
  unfold Before, midnight, lastNano, second. simpl.
  case_bool_decide; [apply Z.ltb_lt | apply Z.ltb_ge]; lia.
Qed.

Lemma nextDate_midnight D E off :
  D ≤ E →
  nextDate (midnight D off) (lastNano E off)
  = if bool_decide (D = E) then lastNano E off else midnight (D + 1) off.
Proof.
  intros HDE. unfold nextDate. rewrite Add_midnight.
  unfold After, midnight, lastNano, second. simpl.
  case_bool_decide.
  - subst. destruct (Z.ltb_spec (1000000000 * (86400 * E + 86399 - off) + 999999999)
                                (1000000000 * (86400 * (E + 1) - off))); [done|lia].
  - destruct (Z.ltb_spec (1000000000 * (86400 * E + 86399 - off) + 999999999)
                         (1000000000 * (86400 * (D + 1) - off))); [lia|done].
Qed.

Lemma dayJob_shift a n k :
  dayJob a (S n) (S k) = dayJob (a + 86400) n k.
Proof.
  unfold dayJob. change (S (S k) <? S n)%nat with (S k <? n)%nat.
  destruct (S k <? n)%nat; f_equal; lia.
Qed.

(** The loop, run from a midnight to the end of a day [n - 1] days
    later with at least [n] rounds, sends one Job per day. *)
Lemma enqueueLoop_days (n rounds : nat) (D off : Z) :
  (n ≤ rounds)%nat →
  enqueueLoop rounds (midnight D off) (lastNano (D + Z.of_nat n - 1) off)
  = map (dayJob (86400 * D - off) n) (seq 0 n).
Proof.
  revert rounds D. induction n as [|n IH]; intros rounds D Hr.
  - destruct rounds; [done|]. simpl.
    rewrite Before_midnight_lastNano. by rewrite bool_decide_eq_false_2 by lia.
  - destruct rounds as [|rounds]; [lia|]. cbn [enqueueLoop].
    rewrite Before_midnight_lastNano, bool_decide_eq_true_2 by lia.
    rewrite nextDate_midnight by lia.
    cbn [seq map]. rewrite <- seq_shift, map_map.
    rewrite (map_ext _ _ (λ k, dayJob_shift (86400 * D - off) n k)).
    destruct n as [|n].
    + rewrite bool_decide_eq_true_2 by lia.
      rewrite Unix_midnight, Unix_lastNano. unfold dayJob. simpl seq. simpl map.
      change (1 <? 1)%nat with false. cbv iota.
      f_equal; [f_equal; lia|].
      destruct rounds; [done|]. cbn [enqueueLoop]. unfold Before.
      by rewrite Z.ltb_irrefl.
    + rewrite bool_decide_eq_false_2 by lia.
      rewrite !Unix_midnight.
      replace (D + Z.of_nat (S (S n)) - 1) with ((D + 1) + Z.of_nat (S n) - 1) by lia.
      rewrite IH by lia.
      replace (86400 * (D + 1) - off) with (86400 * D - off + 86400) by lia.
      f_equal. unfold dayJob. change (1 <? S (S n))%nat with true.
      cbv iota. f_equal; lia.
Qed.

Lemma roundsNeeded_days D E off :
  roundsNeeded (midnight D off) (lastNano E off) = Z.to_nat (E - D + 1).
Proof.
  unfold roundsNeeded, midnight, lastNano, hour24, second. simpl. f_equal.
  symmetry. apply (Z.div_unique _ _ _ (24 * 3600 * 1000000000 - 2)); lia.
Qed.

Lemma enqueueJobs_days D E off :
  enqueueJobs (midnight D off) (lastNano E off)
  = map (dayJob (86400 * D - off) (Z.to_nat (E - D + 1)))
        (seq 0 (Z.to_nat (E - D + 1))).
Proof.
  unfold enqueueJobs. rewrite roundsNeeded_days.
  destruct (Z.le_gt_cases D E) as [HDE|HDE].
  - remember (Z.to_nat (E - D + 1)) as n eqn:Hn.
    assert (HE : E = D + Z.of_nat n - 1) by lia. clear Hn. subst E.
    by rewrite enqueueLoop_days.
  - by replace (Z.to_nat (E - D + 1)) with 0%nat by lia.
Qed.

Lemma dayJobs_partition (a b : Z) (n : nat) :
  (n = 0%nat → b ≤ a) →
  (n ≠ 0%nat → b = a + 86400 * Z.of_nat n - 1) →
  partitions (map (dayJob a n) (seq 0 n)) a b.
Proof.
  intros Hzero Hpos. split; [|split].
  - apply Forall_forall. intros j Hj.
    apply list_elem_of_fmap in Hj as (k & -> & Hk). apply elem_of_seq in Hk.
    unfold dayJob. simpl. destruct (Nat.ltb_spec (S k) n); lia.
  - intros i k ji jk t Hne Hi Hk [Hci Hck].
    rewrite list_lookup_fmap in Hi, Hk.
    destruct (seq 0 n !! i) as [i'|] eqn:Ei; [|done].
    destruct (seq 0 n !! k) as [k'|] eqn:Ek; [|done].
    apply lookup_seq in Ei as [-> Hin]. apply lookup_seq in Ek as [-> Hkn].
    simpl in Hi, Hk. injection Hi as <-. injection Hk as <-.
    unfold covers, dayJob in Hci, Hck. simpl in Hci, Hck.
    destruct (Nat.ltb_spec (S i) n), (Nat.ltb_spec (S k) n); lia.
  - intros t. split.
    + intros (j & Hj & Hc).
      apply list_elem_of_fmap in Hj as (k & -> & Hk). apply elem_of_seq in Hk.
      unfold covers, dayJob in Hc. simpl in Hc.
      destruct (Nat.ltb_spec (S k) n); lia.
    + intros Ht.
      assert (Hn : n ≠ 0%nat) by (intros ->; specialize (Hzero eq_refl); lia).
      specialize (Hpos Hn).
      pose proof (Z.div_mod (t - a) 86400 ltac:(lia)) as Hdm.
      pose proof (Z.mod_pos_bound (t - a) 86400 ltac:(lia)) as Hm.
      assert (Hq : 0 ≤ (t - a) `div` 86400 < Z.of_nat n) by lia.
      exists (dayJob a n (Z.to_nat ((t - a) `div` 86400))). split.
      * apply list_elem_of_fmap. eexists. split; [reflexivity|].
        apply elem_of_seq. lia.
      * unfold covers, dayJob. simpl.
        destruct (Nat.ltb_spec (S (Z.to_nat ((t - a) `div` 86400))) n); lia.
Qed.

Lemma dayJobs_midnights (local : Location) (off D : Z) (n : nat) :
  keepsOffset local off →
  Forall (startsAtMidnight local) (map (dayJob (86400 * D - off) n) (seq 0 n)).
Proof.
  intros Hlocal. apply Forall_forall. intros j Hj.
  apply list_elem_of_fmap in Hj as (k & -> & _).
  unfold startsAtMidnight, dayJob. cbn [StartTimestamp]. rewrite Hlocal.
  replace (86400 * D - off + 86400 * Z.of_nat k + off)
    with ((D + Z.of_nat k) * 86400) by lia.
  by apply Z.mod_mul.
Qed.










(** *** The whole year 2024 *)

(** The day number [time.Date] arrives at when it is handed the civil
    date of day [D] again. *)
Definition redate (D : Z) : Z :=
  let '(y, m, d) := civilFromDays D in dayNumber y m d.

Lemma wallSec_midnight D off : wallSec (midnight D off) `div` 86400 = D.
Proof.
  unfold wallSec. rewrite Unix_midnight.
  replace (86400 * D - off + zoneOff (midnight D off)) with (D * 86400)
    by (simpl; lia).
  by apply Z.div_mul.
Qed.

Lemma wallSec_lastNano D off : wallSec (lastNano D off) `div` 86400 = D.
Proof.
  unfold wallSec. rewrite Unix_lastNano. simpl. symmetry.
  apply (Z.div_unique _ _ _ 86399); lia.
Qed.

Lemma dayIndex_midnight D off : dayIndex (midnight D off) = redate D.
Proof.
  unfold dayIndex, Year, Month, Day, civil, redate. rewrite wallSec_midnight.
  by destruct (civilFromDays D) as [[y m] d].
Qed.

Lemma dayIndex_lastNano D off : dayIndex (lastNano D off) = redate D.
Proof.
  unfold dayIndex, Year, Month, Day, civil, redate. rewrite wallSec_lastNano.
  by destruct (civilFromDays D) as [[y m] d].
Qed.

Lemma sp_start_year_2024 now prog sp props :
  SP.start now [prog; sp; "y2024"] (Some props)
  = Done (SP.Enqueued
            (SP.mkPlan 366 (midnight 19723 (zoneOff now))
                       (lastNano 20088 (zoneOff now)) false)
            (map (dayJob (1704067200 - zoneOff now) 366) (seq 0 366))).
Proof.
  unfold SP.start.
  assert (Hrange : SP.requestedRange now [prog; sp; "y2024"]
            = inr (SP.mkPlan 366 (Date 2024 1 1 0 0 0 0 (zoneOff now))
                     (Date 2024 12 31 23 59 59 999999999 (zoneOff now)) false))
    by reflexivity.
  rewrite Hrange. cbn [SP.startDate SP.endDate SP.days SP.specificDate].
  rewrite Date_midnight, Date_lastNano.
  rewrite startOfDay_midnight, endOfDay_lastNano.
  rewrite dayIndex_midnight, dayIndex_lastNano. cbn [zoneOff midnight lastNano].
  change (redate (dayNumber 2024 1 1)) with 19723.
  change (redate (dayNumber 2024 12 31)) with 20088.
  fold (midnight 19723 (zoneOff now)). fold (lastNano 20088 (zoneOff now)).
  rewrite enqueueJobs_days.
  change (Z.to_nat (20088 - 19723 + 1)) with 366%nat.
  replace (86400 * 19723 - zoneOff now) with (1704067200 - zoneOff now) by lia.
  reflexivity.
Qed.

(** C8, amended.  In a local zone that keeps one offset, the SP-side
    driver enqueues for [y2024] 366 Jobs that start at the local
    midnights of the year.  The first 365 are 86 400 seconds wide; the
    last is 86 399 seconds wide and ends at 23:59:59 of 31 December,
    the second the end of the range falls in.  Together they hold every
    second from 1 January 00:00:00 up to, not including, 31 December
    23:59:59. *)
Theorem y2024_jobs (local : Location) (now : Time) (prog sp : string)
    (props : SP.Properties) :
  keepsOffset local (zoneOff now) →
  let first := 1704067200 - zoneOff now in
  ∃ p jobs,
    SP.start now [prog; sp; "y2024"] (Some props) = Done (SP.Enqueued p jobs)
    ∧ SP.days p = 366
    ∧ length jobs = 366%nat
    ∧ Forall (startsAtMidnight local) jobs
    ∧ (∀ k, (k < 365)%nat →
         jobs !! k = Some (mkJob (first + 86400 * Z.of_nat k)
                                 (first + 86400 * Z.of_nat k + 86400)))
    ∧ jobs !! 365%nat = Some (mkJob (first + 86400 * 365)
                                    (first + 86400 * 365 + 86399))
    ∧ partitions jobs first (first + 86400 * 366 - 1).
Proof.
  intros Hlocal first. eexists _, _. split; [apply sp_start_year_2024|].
  split; [reflexivity|]. split; [by rewrite length_map, length_seq|].
  split.
  { replace (1704067200 - zoneOff now) with (86400 * 19723 - zoneOff now) by lia.
    by apply dayJobs_midnights. }
  fold first. split; [|split].
  - intros k Hk. rewrite list_lookup_fmap, lookup_seq_lt by lia. simpl.
    unfold dayJob. destruct (Nat.ltb_spec (S k) 366); [|lia].
    do 2 f_equal. lia.
  - rewrite list_lookup_fmap, lookup_seq_lt by lia. simpl.
    unfold dayJob. change (366 <? 366)%nat with false. cbv iota.
    do 2 f_equal; lia.
  - apply dayJobs_partition; lia.
Qed.

Lemma y2024_jobs_witness :
  ∃ p jobs,
    SP.start nowUTC ["eduroam-sp"; "ku.ac.th"; "y2024"] (Some spProps)
      = Done (SP.Enqueued p jobs)
    ∧ length jobs = 366%nat
    ∧ jobs !! 0%nat = Some (mkJob 1704067200 1704153600)
    ∧ jobs !! 365%nat = Some (mkJob 1735603200 1735689599).
Proof.
  destruct (y2024_jobs (λ _, 0) nowUTC "eduroam-sp" "ku.ac.th" spProps)
    as (p & jobs & Hstart & _ & Hlen & _ & Hdays & Hlast & _).
  { intros unix. reflexivity. }
  exists p, jobs. split_and!; [exact Hstart|exact Hlen| |exact Hlast].
  apply (Hdays 0%nat). lia.
Defined.

(** C8 as stated fails in UTC: the Job of 31 December is not 86 400
    seconds wide. *)
Lemma y2024_last_job_is_short :
  ¬ (∀ p jobs,
       SP.start nowUTC ["eduroam-sp"; "ku.ac.th"; "y2024"] (Some spProps)
         = Done (SP.Enqueued p jobs) →
       length jobs = 366%nat
       ∧ Forall (λ j, EndTimestamp j - StartTimestamp j = 86400) jobs).
Proof.
  intros H.
  destruct (H _ _ (sp_start_year_2024 nowUTC "eduroam-sp" "ku.ac.th" spProps))
    as [_ Hwide].
  rewrite Forall_lookup in Hwide.
  specialize (Hwide 365%nat (mkJob 1735603200 1735689599) eq_refl).
  simpl in Hwide. lia.
Qed.

(** ** Merging the entry stream *)

Section RealmMerge.
Variable rt : Runtime.




Lemma observe_key userMap e u :
  is_Some (Realm.observe userMap e !! u)
  ↔ is_Some (userMap !! u) ∨ Realm.Username e = u.
Proof.
  unfold Realm.observe.
  destruct (decide (Realm.Username e = u)) as [<-|Hne].
  - rewrite lookup_alter_eq.
    destruct (userMap !! Realm.Username e) eqn:Hu; [rewrite Hu|rewrite lookup_insert_eq];
      simpl; naive_solver.
  - rewrite lookup_alter_ne by done.
    destruct (userMap !! Realm.Username e); [|rewrite lookup_insert_ne by done];
      naive_solver.
Qed.









End RealmMerge.

Section SPMerge.
Variable rt : Runtime.





End SPMerge.



(** ** The order of the report *)

Lemma StronglySorted_weaken {A} (R R' : A → A → Prop) l :
  (∀ a b, R a b → R' a b) → StronglySorted R l → StronglySorted R' l.
Proof.
  intros HR. induction 1 as [|a l _ IH Ha]; constructor; [done|].
  eapply Forall_impl; [exact Ha|]. auto.
Qed.

(** [sort.Slice] with [less(i, j) = key(i) > key(j)]. *)
Lemma sortSlice_descending (rt : Runtime) {A} (key : A → Z) (l : list A) :
  StronglySorted (λ a b, key b ≤ key a) (sortSlice rt (λ a b, key b <? key a) l).
Proof.
  eapply StronglySorted_weaken; [|apply sortSlice_sorted]; unfold notAfter;
    cbv beta.
  - intros a b H. apply Z.ltb_ge in H. lia.
  - intros a b.
    destruct (Z.ltb_spec (key a) (key b)), (Z.ltb_spec (key b) (key a)); auto; lia.
  - intros a b c H1 H2. apply Z.ltb_ge in H1, H2. apply Z.ltb_ge. lia.
Qed.

Lemma ltb_false_le (a b : string) : String.ltb b a = false ↔ (a ≤ b)%string.
Proof.
  unfold String.le, String.leb, String.ltb.
  rewrite (String.compare_antisym a b).
  destruct (String.compare b a); simpl; split; done.
Qed.

(** [sort.Slice] with [less(i, j) = key(i) < key(j)] on strings. *)
Lemma sortSlice_ascending (rt : Runtime) {A} (key : A → string) (l : list A) :
  StronglySorted (λ a b, (key a ≤ key b)%string)
                 (sortSlice rt (λ a b, String.ltb (key a) (key b)) l).
Proof.
  eapply StronglySorted_weaken; [|apply sortSlice_sorted]; unfold notAfter;
    cbv beta.
  - intros a b H. by apply ltb_false_le.
  - intros a b. rewrite !ltb_false_le.
    destruct (String.le_total (key a) (key b)); auto.
  - intros a b c. rewrite !ltb_false_le. intros ??. by etrans.
Qed.

(** C6, amended.  Whatever the run time: the realm report
    lists providers by descending user count and users by ascending
    user name; the SP report lists stations and realms by descending
    number of authentications, and the users of each station by
    ascending user name. *)
Theorem report_orders (rt : Runtime) :
  (∀ result domain startDate endDate days,
     let out := Realm.createOutputData rt result domain startDate endDate days in
     StronglySorted (λ a b, Realm.UserCount b ≤ Realm.UserCount a)
                    (Realm.OutProviderStats out)
     ∧ StronglySorted (λ a b, (Realm.StatUsername a ≤ Realm.StatUsername b)%string)
                      (Realm.OutUserStats out))
  ∧ (∀ (UsagePattern SessionAnalysis PotentialIssue : Type)
       usage sessions issues result serviceProvider startDate endDate days,
     let out := SP.createOutputData rt UsagePattern SessionAnalysis PotentialIssue
                  usage sessions issues result serviceProvider startDate endDate days in
     StronglySorted (λ a b, SP.OutTotalAuths _ _ _ b ≤ SP.OutTotalAuths _ _ _ a)
                    (SP.OutStationStats _ _ _ out)
     ∧ StronglySorted (λ a b, SP.StatTotalAuths b ≤ SP.StatTotalAuths a)
                      (SP.OutRealmStats _ _ _ out)
     ∧ Forall (λ station,
                 StronglySorted
                   (λ a b, (SP.DetailUsername a ≤ SP.DetailUsername b)%string)
                   (SP.OutUserDetails _ _ _ station))
              (SP.OutStationStats _ _ _ out)).
Proof.
  split.
  - intros. unfold out, Realm.createOutputData. simpl. split.
    + apply (sortSlice_descending rt Realm.UserCount).
    + apply (sortSlice_ascending rt Realm.StatUsername).
  - intros. unfold out, SP.createOutputData.
    destruct (fold_left _ _ _) as [uniqueUsers totalAuths]. simpl. split_and!.
    + apply (sortSlice_descending rt (SP.OutTotalAuths _ _ _)).
    + apply (sortSlice_descending rt SP.StatTotalAuths).
    + rewrite (sortSlice_perm rt). apply Forall_forall. intros station Hin.
      apply list_elem_of_fmap in Hin as ([stationID stats] & -> & _).
      unfold SP.stationOutput. simpl.
      apply (sortSlice_ascending rt SP.DetailUsername).
Qed.

Lemma report_orders_witness :
  StronglySorted (λ a b, SP.OutTotalAuths _ _ _ b ≤ SP.OutTotalAuths _ _ _ a)
                 (SP.OutStationStats _ _ _ stationReport)
  ∧ map (SP.OutTotalAuths _ _ _) (SP.OutStationStats _ _ _ stationReport) = [3; 2].
Proof.
  split; [|vm_compute; reflexivity].
  apply (proj2 (report_orders refRuntime) unit unit unit).
Defined.

(** C6 as stated fails on the SP side: the report on [stationEntries]
    lists station S1, with one user, before station S2, with two. *)
Lemma stations_not_by_user_count :
  map (λ st, (SP.OutStationID _ _ _ st, SP.OutTotalUsers _ _ _ st))
      (SP.OutStationStats _ _ _ stationReport) = [("S1", 1); ("S2", 2)]
  ∧ ¬ StronglySorted (λ a b, SP.OutTotalUsers _ _ _ b ≤ SP.OutTotalUsers _ _ _ a)
                     (SP.OutStationStats _ _ _ stationReport).
Proof.
  split; [vm_compute; reflexivity|].
  intros Hs.
  assert (Hlist : ∃ a b, SP.OutStationStats _ _ _ stationReport = [a; b]
                         ∧ SP.OutTotalUsers _ _ _ a = 1
                         ∧ SP.OutTotalUsers _ _ _ b = 2).
  { eexists _, _. split; [vm_compute; reflexivity|]. split; reflexivity. }
  destruct Hlist as (a & b & Hab & Ha & Hb). rewrite Hab in Hs.
  apply StronglySorted_inv in Hs as [_ Hhead].
  apply Forall_cons in Hhead as [Hle _]. lia.
Qed.

(** * Further properties *)

(** ** The retry loop *)

Section RetryFacts.
Variable server : Z → list Ingest.LogEntry → Ingest.response.
Variable config : Ingest.Config.
Variable entries : list Ingest.LogEntry.

Lemma quot2_bounds (n : Z) : 0 ≤ n → 0 ≤ n `quot` 2 ≤ n.
Proof.
  intros Hn. pose proof (Z.quot_pos n 2).
  pose proof (Z.quot_le_upper_bound n 2 n). lia.
Qed.

(** What a run of the loop leaves behind: at most [left] POSTs; on an
    error return no body was accepted; on [nil] the last POST, a prefix
    of the batch, was accepted, and no other. *)
Lemma retryLoop_outcome left i batchSize :
  0 ≤ batchSize ≤ len entries →
  (entries ≠ [] → 1 ≤ batchSize) →
  ∃ err tr, Ingest.retryLoop server config entries left i batchSize = Done (err, tr)
    ∧ (length (Ingest.posted tr) ≤ left)%nat
    ∧ match err with
      | Some _ => Ingest.delivered tr = []
      | None => ∃ n, (entries ≠ [] → 1 ≤ n ≤ length entries)%nat
                     ∧ Ingest.delivered tr = take n entries
                     ∧ last (Ingest.posted tr) = Some (take n entries)
      end.
Proof.
  revert i batchSize. induction left as [|left IH]; intros i batchSize Hb Hpos.
  - eexists _, []. split; [reflexivity|]. split; [simpl; lia|]. reflexivity.
  - cbn [Ingest.retryLoop]. rewrite (slice_prefix _ _ Hb). cbn [mbind run_bind].
    destruct (Ingest.sendToQuickwit server i (take (Z.to_nat batchSize) entries))
      as [msg|] eqn:Hsend.
    + destruct (Contains msg "413" || Contains msg "Payload Too Large").
      * cbv zeta. destruct (Z.ltb_spec (batchSize `quot` 2) 1) as [Hz|Hz].
        -- eexists _, _. split; [reflexivity|]. split; [simpl; lia|]. reflexivity.
        -- destruct (IH (i + 1) (batchSize `quot` 2)) as (err & tr & -> & Hn & Hout).
           { pose proof (quot2_bounds batchSize). lia. }
           { intros _. exact Hz. }
           eexists _, _. split; [reflexivity|]. split; [simpl; lia|].
           destruct err as [e|]; [exact Hout|].
           destruct Hout as (n & Hn1 & Hd & Hl). exists n. split_and!; [done|done|].
           simpl. destruct (Ingest.posted tr); [discriminate Hl|exact Hl].
      * destruct (IH (i + 1) batchSize Hb Hpos) as (err & tr & -> & Hn & Hout).
        eexists _, _. split; [reflexivity|]. split; [simpl; lia|].
        destruct err as [e|]; [exact Hout|].
        destruct Hout as (n & Hn1 & Hd & Hl). exists n. split_and!; [done|done|].
        simpl. destruct (Ingest.posted tr); [discriminate Hl|exact Hl].
    + eexists _, _. split; [reflexivity|]. split; [simpl; lia|].
      exists (Z.to_nat batchSize). split_and!.
      * intros Hne. specialize (Hpos Hne). unfold len in Hb. lia.
      * simpl. by rewrite app_nil_r.
      * reflexivity.
Qed.

End RetryFacts.

(** X1. [sendToQuickwitWithRetry] never panics, whatever the service
    answers.  When it returns an error, no body was accepted.  When it
    returns [nil], exactly one body was accepted, the last one posted:
    a prefix of the batch, not empty unless the batch is. *)
Theorem retry_accepts_one_prefix_or_nothing
    (server : Z → list Ingest.LogEntry → Ingest.response)
    (entries : list Ingest.LogEntry) (config : Ingest.Config) :
  ∃ err tr,
    Ingest.sendToQuickwitWithRetry server entries config = Done (err, tr)
    ∧ match err with
      | Some _ => Ingest.delivered tr = []
      | None => ∃ n, (entries ≠ [] → 1 ≤ n ≤ length entries)%nat
                     ∧ Ingest.delivered tr = take n entries
                     ∧ last (Ingest.posted tr) = Some (take n entries)
      end.
Proof.
  destruct (retryLoop_outcome server config entries
              (Z.to_nat (Ingest.MaxRetries config)) 0 (len entries))
    as (err & tr & Hrun & _ & Hout).
  - unfold len. lia.
  - intros Hne. unfold len. destruct entries; [done|simpl; lia].
  - by exists err, tr.
Qed.

(** X2. A call makes at most [MaxRetries] POSTs; with [MaxRetries] zero
    or negative it makes none and reports the failure of a delivery
    that was never tried. *)
Theorem retry_posts_at_most_MaxRetries
    (server : Z → list Ingest.LogEntry → Ingest.response)
    (entries : list Ingest.LogEntry) (config : Ingest.Config) :
  (∃ err tr,
     Ingest.sendToQuickwitWithRetry server entries config = Done (err, tr)
     ∧ len (Ingest.posted tr) ≤ Z.max 0 (Ingest.MaxRetries config))
  ∧ (Ingest.MaxRetries config ≤ 0 →
     Ingest.sendToQuickwitWithRetry server entries config
     = Done (Some ("failed after " +:+ itoa (Ingest.MaxRetries config) +:+ " attempts"),
             [])).
Proof.
  split.
  - destruct (retryLoop_outcome server config entries
                (Z.to_nat (Ingest.MaxRetries config)) 0 (len entries))
      as (err & tr & Hrun & Hn & _).
    + unfold len. lia.
    + intros Hne. unfold len. destruct entries; [done|simpl; lia].
    + exists err, tr. split; [exact Hrun|]. unfold len. lia.
  - intros Hz. unfold Ingest.sendToQuickwitWithRetry.
    by replace (Z.to_nat (Ingest.MaxRetries config)) with 0%nat by lia.
Qed.

Lemma retry_posts_at_most_MaxRetries_witness :
  Ingest.sendToQuickwitWithRetry (fakeServer 10) (batchOf 40)
    (Ingest.mkConfig "" "" "" "" 30000 0)
  = Done (Some "failed after 0 attempts", []).
Proof.
  apply (proj2 (retry_posts_at_most_MaxRetries (fakeServer 10) (batchOf 40)
                  (Ingest.mkConfig "" "" "" "" 30000 0))).
  simpl. lia.
Defined.

(** An error that does not make the loop halve the batch. *)
Definition transient (err : Go.error) : Prop :=
  ∃ msg, err = Some msg
         ∧ Contains msg "413" || Contains msg "Payload Too Large" = false.

Lemma wrap64_small z : - 2 ^ 63 ≤ z < 2 ^ 63 → wrap64 z = z.
Proof.
  intros Hz. unfold wrap64.
  rewrite Z.mod_small by lia. lia.
Qed.

Lemma backoff_exact i :
  0 ≤ i ≤ 33 → wrap64 (second * wrap64 (Z.shiftl 1 i)) = second * 2 ^ i.
Proof.
  intros Hi. rewrite Z.shiftl_1_l.
  assert (H33 : 2 ^ i ≤ 2 ^ 33) by (apply Z.pow_le_mono_r; lia).
  assert (0 < 2 ^ i) by (apply Z.pow_pos_nonneg; lia).
  change (2 ^ 33) with 8589934592 in H33.
  rewrite (wrap64_small (2 ^ i)) by (change (2 ^ 63) with 9223372036854775808; lia).
  apply wrap64_small. unfold second.
  change (2 ^ 63) with 9223372036854775808. lia.
Qed.

Section Backoff.
Variable server : Z → list Ingest.LogEntry → Ingest.response.
Variable config : Ingest.Config.
Variable entries : list Ingest.LogEntry.

Lemma retryLoop_backoff (left : nat) (i : Z) :
  0 ≤ i → i + Z.of_nat left ≤ 34 →
  (∀ k, i ≤ k < i + Z.of_nat left →
        transient (Ingest.sendToQuickwit server k entries)) →
  ∃ tr,
    Ingest.retryLoop server config entries left i (len entries)
    = Done (Some ("failed after " +:+ itoa (Ingest.MaxRetries config) +:+ " attempts"), tr)
    ∧ Ingest.posted tr = replicate left entries
    ∧ IngestFile.slept tr
      = map (λ k, second * 2 ^ (i + Z.of_nat k)) (seq 0 left)
    ∧ Ingest.delivered tr = [].
Proof.
  revert i. induction left as [|left IH]; intros i Hi Hmax Hfail.
  - eexists. split; [reflexivity|]. done.
  - cbn [Ingest.retryLoop].
    rewrite slice_prefix by (unfold len; lia).
    replace (take (Z.to_nat (len entries)) entries) with entries
      by (symmetry; apply take_ge; unfold len; lia).
    cbn [mbind run_bind].
    destruct (Hfail i) as (msg & -> & ->); [lia|].
    destruct (IH (i + 1)) as (tr & -> & Hp & Hs & Hd); [lia|lia| |].
    { intros k Hk. apply Hfail. lia. }
    eexists. split; [reflexivity|]. split_and!.
    + simpl. by rewrite Hp.
    + simpl. rewrite Hs, backoff_exact by lia. f_equal; [f_equal; f_equal; lia|].
      rewrite <- seq_shift, map_map. apply map_ext. intros k. do 2 f_equal. lia.
    + simpl. exact Hd.
Qed.

End Backoff.

(** X3. When every attempt fails with an error that mentions neither
    413 nor "Payload Too Large", the whole batch is posted [MaxRetries]
    times, and after the [i]-th failure (counting from 0) the call
    sleeps 2^i seconds, also after the last one, before it returns
    "failed after N attempts". *)
Theorem retry_backs_off_after_every_failure
    (server : Z → list Ingest.LogEntry → Ingest.response)
    (entries : list Ingest.LogEntry) (config : Ingest.Config) :
  0 ≤ Ingest.MaxRetries config ≤ 34 →
  (∀ k, 0 ≤ k < Ingest.MaxRetries config →
        transient (Ingest.sendToQuickwit server k entries)) →
  ∃ tr,
    Ingest.sendToQuickwitWithRetry server entries config
    = Done (Some ("failed after " +:+ itoa (Ingest.MaxRetries config) +:+ " attempts"), tr)
    ∧ Ingest.posted tr = replicate (Z.to_nat (Ingest.MaxRetries config)) entries
    ∧ IngestFile.slept tr
      = map (λ k, second * 2 ^ Z.of_nat k)
            (seq 0 (Z.to_nat (Ingest.MaxRetries config)))
    ∧ Ingest.delivered tr = [].
Proof.
  intros Hn Hfail. unfold Ingest.sendToQuickwitWithRetry.
  destruct (retryLoop_backoff server config entries
              (Z.to_nat (Ingest.MaxRetries config)) 0) as (tr & Hrun & Hp & Hs & Hd);
    [lia|lia| |].
  { intros k Hk. apply Hfail. lia. }
  exists tr. split_and!; try done.
Qed.

(** A service that is down: every POST fails in [client.Do]. *)
Definition downServer (attempt : Z) (body : list Ingest.LogEntry) : Ingest.response :=
  Ingest.SendError "connection refused".

Lemma retry_backs_off_after_every_failure_witness :
  ∃ tr,
    Ingest.sendToQuickwitWithRetry downServer (batchOf 2) config
    = Done (Some "failed after 3 attempts", tr)
    ∧ IngestFile.slept tr = [second; 2 * second; 4 * second].
Proof.
  destruct (retry_backs_off_after_every_failure downServer (batchOf 2) config)
    as (tr & Hrun & _ & Hs & _).
  - simpl. lia.
  - intros k _. eexists. split; [reflexivity|]. reflexivity.
  - exists tr. split; [exact Hrun|]. exact Hs.
Defined.

(** ** The line parser and the guarded field reader *)

Lemma index_Done {A} (l : list A) (i : Z) (x : A) :
  index l i = Done x ↔ 0 ≤ i < len l ∧ l !! Z.to_nat i = Some x.
Proof.
  unfold index, len. split.
  - destruct (Z.ltb_spec i 0); [done|].
    destruct (Z.leb_spec (Z.of_nat (length l)) i); [done|]. simpl.
    destruct (l !! Z.to_nat i); [|done]. intros [= ->]. split; [lia|done].
  - intros [Hi Hx]. rewrite Hx.
    destruct (Z.ltb_spec i 0); [lia|].
    destruct (Z.leb_spec (Z.of_nat (length l)) i); [lia|]. done.
Qed.

Lemma index_in_range {A} (l : list A) (i : Z) :
  0 ≤ i < len l → ∃ x, index l i = Done x ∧ l !! Z.to_nat i = Some x.
Proof.
  intros Hi. destruct (lookup_lt_is_Some_2 l (Z.to_nat i)) as [x Hx].
  { unfold len in Hi. lia. }
  exists x. split; [|done]. by apply index_Done.
Qed.

Lemma slice_in_range {A} (l : list A) (lo hi : Z) :
  0 ≤ lo ≤ hi → hi ≤ len l →
  slice l lo hi = Done (take (Z.to_nat (hi - lo)) (drop (Z.to_nat lo) l)).
Proof.
  intros Hlo Hhi. unfold slice, len in *.
  destruct (Z.ltb_spec lo 0); [lia|].
  destruct (Z.ltb_spec hi lo); [lia|].
  destruct (Z.ltb_spec (Z.of_nat (length l)) hi); [lia|]. done.
Qed.

Section ReaderFacts.
Variable parseIPv6 : string → option IP.

Lemma accessField_total parts i part entry :
  0 ≤ i → ∃ entry', IngestFile.accessField parseIPv6 parts i part entry = Done entry'.
Proof.
  intros Hi. unfold IngestFile.accessField.
  repeat match goal with
         | |- context [if ?c then _ else _] =>
             lazymatch c with
             | _ <? _ => destruct (Z.ltb_spec0 (i + 1) (len parts)) as [H1|H1] ||
                         destruct (Z.ltb_spec0 (i + 2) (len parts)) as [H2|H2]
             | _ => destruct c
             end
         | |- context [index parts ?k] =>
             let x := fresh "x" in let Hx := fresh "Hx" in
             destruct (index_in_range parts k) as (x & Hx & _); [lia|];
             rewrite Hx; cbn [mbind run_bind mret run_ret]
         end; by eexists.
Qed.

Lemma accessFields_total parts i rest entry :
  0 ≤ i → ∃ entry', IngestFile.accessFields parseIPv6 parts i rest entry = Done entry'.
Proof.
  revert i entry. induction rest as [|part rest IH]; intros i entry Hi; simpl.
  - by eexists.
  - destruct (accessField_total parts i part entry Hi) as [entry' ->].
    cbn [mbind run_bind]. apply IH. lia.
Qed.

(** Where the unguarded loop of [parseLine] reads an element, the
    guarded one reads the same element. *)
Lemma captureField_accessField parts startIndex i part entry entry' :
  0 ≤ startIndex → 0 ≤ i →
  Ingest.captureField parseIPv6 parts startIndex i part entry = Done entry' →
  IngestFile.accessField parseIPv6 (drop (Z.to_nat (startIndex + 2)) parts) i part entry
  = Done entry'.
Proof.
  intros Hs Hi. unfold Ingest.captureField, IngestFile.accessField.
  set (rest := drop (Z.to_nat (startIndex + 2)) parts).
  assert (Hnext : ∀ v, index parts (i + startIndex + 3) = Done v →
            (i + 1 <? len rest) = true ∧ index rest (i + 1) = Done v).
  { intros v [Hr Hv]%index_Done. unfold rest, len in *.
    rewrite length_drop. split; [apply Z.ltb_lt; lia|].
    apply index_Done. unfold len. rewrite length_drop, lookup_drop. split; [lia|].
    rewrite <- Hv. f_equal. lia. }
  assert (Hlen : len rest = Z.max 0 (len parts - (startIndex + 2))).
  { unfold rest, len. rewrite length_drop. lia. }
  destruct (HasPrefix part "user");
    [|destruct (HasPrefix part "stationid");
      [|destruct (String.eqb part "from"); [|destruct (String.eqb part "to"); [|done]]]].
  1-3: destruct (index parts (i + startIndex + 3)) as [v|] eqn:Hv; [|done];
       destruct (Hnext v eq_refl) as [-> ->]; done.
  destruct (index parts (i + startIndex + 3)) as [v|] eqn:Hv; [|done].
  destruct (Hnext v eq_refl) as [-> ->]. cbn [mbind run_bind]. cbv zeta.
  destruct (Z.ltb_spec (i + startIndex + 4) (len parts)) as [H4|H4].
  - destruct (Z.ltb_spec (i + 2) (len rest)) as [_|H2]; [|lia].
    destruct (index parts (i + startIndex + 4)) as [ip|] eqn:Hip; [|done].
    apply index_Done in Hip as [Hr Hip].
    assert (Hip' : index rest (i + 2) = Done ip).
    { apply index_Done. split; [lia|]. unfold rest. rewrite lookup_drop.
      rewrite <- Hip. f_equal. lia. }
    by rewrite Hip'.
  - destruct (Z.ltb_spec (i + 2) (len rest)) as [H2|_]; [lia|]. done.
Qed.

Lemma captureFields_accessFields parts startIndex i rest' entry entry' :
  0 ≤ startIndex → 0 ≤ i →
  Ingest.captureFields parseIPv6 parts startIndex i rest' entry = Done entry' →
  IngestFile.accessFields parseIPv6 (drop (Z.to_nat (startIndex + 2)) parts) i rest' entry
  = Done entry'.
Proof.
  intros Hs. revert i entry. induction rest' as [|part rest' IH]; intros i entry Hi;
    simpl; [done|].
  destruct (Ingest.captureField parseIPv6 parts startIndex i part entry) as [e1|] eqn:H1;
    [|done].
  rewrite (captureField_accessField _ _ _ _ _ _ Hs Hi H1). cbn [mbind run_bind].
  apply IH. lia.
Qed.

End ReaderFacts.

(** X4. [parseAccessMessage] checks every index it reads, so it never
    panics; and whenever the unguarded loop of [parseLine] gets through
    the tokens after the message type, [parseAccessMessage] called on
    those tokens sets the same fields. *)
Theorem parseAccessMessage_never_panics (parseIPv6 : string → option IP) :
  (∀ entry message,
     ∃ entry', IngestFile.parseAccessMessage parseIPv6 entry message = Done entry')
  ∧ (∀ parts startIndex entry entry' message,
       0 ≤ startIndex →
       Fields message = drop (Z.to_nat (startIndex + 2)) parts →
       Ingest.captureFields parseIPv6 parts startIndex 0 (Fields message) entry
         = Done entry' →
       IngestFile.parseAccessMessage parseIPv6 entry message = Done entry').
Proof.
  split.
  - intros entry message. by apply accessFields_total.
  - intros parts startIndex entry entry' message Hs Hrest Hloop.
    unfold IngestFile.parseAccessMessage. cbv zeta. rewrite Hrest at 1.
    by apply captureFields_accessFields.
Qed.

Lemma parseAccessMessage_never_panics_witness :
  ∃ entry',
    IngestFile.parseAccessMessage noIPv6 Ingest.zeroEntry
      "for user alice@ku.ac.th from eduroam.ku.ac.th to eduroam.example.ac.th"
    = Done entry'
    ∧ Ingest.Username entry' = "alice@ku.ac.th"
    ∧ Ingest.ServiceProvider entry' = "eduroam.example.ac.th".
Proof.
  eexists. split.
  - apply (proj2 (parseAccessMessage_never_panics noIPv6)
             ["2024-10-14T00:00:02Z"; "host-a"; "radiusd[123]:"; "Access-Accept";
              "for"; "user"; "alice@ku.ac.th"; "from"; "eduroam.ku.ac.th"; "to";
              "eduroam.example.ac.th"] 2).
    + lia.
    + vm_compute. reflexivity.
    + vm_compute. reflexivity.
  - split; reflexivity.
Defined.

(** *** Where [parseLine] is safe *)

(** [startIndex] and the message type as [parseLine] takes them from
    the tokens of a line, and the tokens its loop reads past. *)
Definition startIndexOf (parts : list string) : Z :=
  match parts with
  | p0 :: _ => if Contains p0 "T" then 2 else 4
  | [] => 4
  end.
Definition kindOf (parts : list string) : string :=
  TrimSuffix (default "" (parts !! Z.to_nat (startIndexOf parts + 1))) ":".
Definition marker (part : string) : bool :=
  HasPrefix part "user" || HasPrefix part "stationid"
  || String.eqb part "from" || String.eqb part "to".

Section LineFacts.
Variable now : Time.
Variable parseIPv6 : string → option IP.

Lemma captureField_FullMessage parts startIndex i part entry entry' :
  Ingest.captureField parseIPv6 parts startIndex i part entry = Done entry' →
  Ingest.FullMessage entry' = Ingest.FullMessage entry.
Proof.
  unfold Ingest.captureField.
  repeat match goal with
         | |- context [if ?c then _ else _] => destruct c
         | |- context [index ?l ?k] => destruct (index l k); cbn [mbind run_bind]
         end; try discriminate; by intros [= <-].
Qed.

Lemma captureFields_FullMessage parts startIndex i rest entry entry' :
  Ingest.captureFields parseIPv6 parts startIndex i rest entry = Done entry' →
  Ingest.FullMessage entry' = Ingest.FullMessage entry.
Proof.
  revert i entry. induction rest as [|part rest IH]; intros i entry; simpl.
  - by intros [= <-].
  - destruct (Ingest.captureField parseIPv6 parts startIndex i part entry) as [e1|] eqn:H1;
      [|done].
    cbn [mbind run_bind]. intros H%IH. rewrite H.
    by eapply captureField_FullMessage.
Qed.

(** The loop gets through when the last token of the line is not one of
    the markers it reads past. *)
Lemma captureFields_safe parts startIndex i rest entry :
  0 ≤ startIndex → 0 ≤ i →
  drop (Z.to_nat (startIndex + 2 + i)) parts = rest →
  (∀ x, last parts = Some x → marker x = false) →
  ∃ entry', Ingest.captureFields parseIPv6 parts startIndex i rest entry = Done entry'.
Proof.
  intros Hs. revert i entry. induction rest as [|part rest IH]; intros i entry Hi Hdrop Hlast.
  - by eexists.
  - assert (Hpart : parts !! Z.to_nat (startIndex + 2 + i) = Some part).
    { rewrite <- (Nat.add_0_r (Z.to_nat _)), <- lookup_drop, Hdrop. done. }
    assert (Hrest : drop (Z.to_nat (startIndex + 2 + (i + 1))) parts = rest).
    { replace (Z.to_nat (startIndex + 2 + (i + 1)))
        with (S (Z.to_nat (startIndex + 2 + i))) by lia.
      rewrite (drop_S _ _ _ Hpart) in Hdrop. by injection Hdrop. }
    assert (Hnext : ∃ entry',
              Ingest.captureField parseIPv6 parts startIndex i part entry = Done entry').
    { destruct rest as [|x rest'].
      - assert (Hl : last parts = Some part).
        { rewrite last_lookup, <- Hpart. f_equal.
          apply (f_equal length) in Hrest. rewrite length_drop in Hrest.
          simpl in Hrest. apply lookup_lt_Some in Hpart. lia. }
        specialize (Hlast _ Hl). unfold marker in Hlast.
        rewrite !orb_false_iff in Hlast. destruct Hlast as [[[H1 H2] H3] H4].
        unfold Ingest.captureField. rewrite H1, H2, H3, H4. by eexists.
      - assert (Hx : parts !! Z.to_nat (i + startIndex + 3) = Some x).
        { rewrite <- (Nat.add_0_r (Z.to_nat _)), <- lookup_drop.
          replace (i + startIndex + 3) with (startIndex + 2 + (i + 1)) by lia.
          by rewrite Hrest. }
        assert (Hix : index parts (i + startIndex + 3) = Done x)
          by (apply index_lookup; [lia|done]).
        unfold Ingest.captureField. rewrite Hix. cbn [mbind run_bind]. cbv zeta.
        destruct (HasPrefix part "user"); [by eexists|].
        destruct (HasPrefix part "stationid"); [by eexists|].
        destruct (String.eqb part "from"); [by eexists|].
        destruct (String.eqb part "to"); [|by eexists].
        destruct (Z.ltb_spec (i + startIndex + 4) (len parts)); [|by eexists].
        destruct (index_in_range parts (i + startIndex + 4)) as (ip & -> & _); [lia|].
        by eexists. }
    destruct Hnext as [entry1 H1]. simpl. rewrite H1. cbn [mbind run_bind].
    apply IH; [lia|done|done].
Qed.

(** Every branch of [parseLine] keeps the message text it starts with. *)
Lemma parseLine_FullMessage line entry err :
  Ingest.parseLine now parseIPv6 line = Done (entry, err) →
  Ingest.FullMessage entry = line.
Proof.
  unfold Ingest.parseLine. cbv zeta.
  repeat match goal with
         | |- context [if ?c then _ else _] => destruct c
         | |- context [mbind _ (index ?l ?k)] => destruct (index l k); cbn [mbind run_bind mret run_ret]
         | |- context [mbind _ (slice ?l ?a ?b)] => destruct (slice l a b); cbn [mbind run_bind mret run_ret]
         | |- context [match Ingest.parseTimestamp ?a ?b with _ => _ end] =>
             destruct (Ingest.parseTimestamp a b)
         | |- context [match Atoi ?a with _ => _ end] => destruct (Atoi a)
         | |- context [match ParseInt ?a with _ => _ end] => destruct (ParseInt a)
         | |- context [mbind _ (Ingest.captureFields ?v ?p ?s ?i ?r ?e)] =>
             let H := fresh "H" in
             destruct (Ingest.captureFields v p s i r e) eqn:H; cbn [mbind run_bind mret run_ret];
             [apply captureFields_FullMessage in H|]
         end; try discriminate; intros [= <- _]; try reflexivity; try (rewrite H; reflexivity).
Qed.

End LineFacts.

Lemma parseLine_returns now parseIPv6 line :
  let parts := Fields line in
  (len parts < 5 ∨ startIndexOf parts + 3 ≤ len parts) →
  (Ingest.isAccessKind (kindOf parts) = true →
   ∀ x, last parts = Some x → marker x = false) →
  ∃ r, Ingest.parseLine now parseIPv6 line = Done r.
Proof.
  intros parts Hlen Hmark. unfold Ingest.parseLine. cbv zeta. fold parts.
  destruct (Z.ltb_spec (len parts) 5) as [|H5]; [by eexists|].
  destruct Hlen as [|Hlen]; [lia|].
  clearbody parts.
  destruct parts as [|p0 [|p1 [|p2 [|p3 [|p4 rest]]]]];
    try (unfold len in H5; simpl in H5; lia).
  rewrite (index_lookup _ 0 p0) by (done || lia). cbn [mbind run_bind].
  unfold startIndexOf in Hlen. unfold kindOf, startIndexOf in Hmark.
  destruct (Contains p0 "T") eqn:HT.
  - rewrite (index_lookup _ 1 p1) by (done || lia). cbn [mbind run_bind mret run_ret].
    destruct (Ingest.parseTimestamp now p0) as [timestamp|msg]; [|by eexists].
    rewrite (slice_in_range _ 2 (2 + 3))
      by (unfold len in *; simpl length in *; lia).
    cbn [mbind run_bind].
    match goal with
    | |- context [String.eqb ?a "last message repeated"] =>
        destruct (String.eqb a "last message repeated")
    end.
    + destruct (index_in_range (p0 :: p1 :: p2 :: p3 :: p4 :: rest)
                  (len (p0 :: p1 :: p2 :: p3 :: p4 :: rest) - 2)) as (c & -> & _);
        [unfold len in *; simpl length in *; lia|].
      by eexists.
    + rewrite (index_lookup _ 2 p2) by (done || lia). cbn [mbind run_bind].
      destruct (Z.ltb_spec (2 + 1) (len (p0 :: p1 :: p2 :: p3 :: p4 :: rest)));
        [|by eexists].
      rewrite (index_lookup _ (2 + 1) p3) by (done || lia). cbn [mbind run_bind].
      match goal with
      | |- context [if Ingest.isAccessKind ?k then _ else _] =>
          destruct (Ingest.isAccessKind k) eqn:Hk; [|by eexists]
      end.
      rewrite slice_in_range by (unfold len in *; simpl length in *; lia).
      cbn [mbind run_bind].
      match goal with
      | |- context [Ingest.captureFields ?v ?p ?s ?i ?r ?e] =>
          destruct (captureFields_safe v p s i r e) as [e' ->]
      end; [lia|lia| | |by eexists].
      * symmetry. apply take_ge. rewrite length_drop. unfold len. lia.
      * cbn [Ingest.MessageType Ingest.setMessageType] in Hk. apply Hmark. exact Hk.

  - assert (H7 : 7 ≤ len (p0 :: p1 :: p2 :: p3 :: p4 :: rest)) by lia.
    destruct rest as [|p5 [|p6 rest]]; try (unfold len in H7; simpl in H7; lia).
    rewrite (slice_in_range _ 0 3) by (unfold len in *; simpl length in *; lia).
    cbn [mbind run_bind].
    rewrite (index_lookup _ 3 p3) by (done || lia). cbn [mbind run_bind mret run_ret].
    match goal with
    | |- context [Ingest.parseTimestamp ?n ?s] =>
        destruct (Ingest.parseTimestamp n s) as [timestamp|msg]; [|by eexists]
    end.
    rewrite (slice_in_range _ 4 (4 + 3)) by (unfold len in *; simpl length in *; lia).
    cbn [mbind run_bind].
    match goal with
    | |- context [String.eqb ?a "last message repeated"] =>
        destruct (String.eqb a "last message repeated")
    end.
    + destruct (index_in_range (p0 :: p1 :: p2 :: p3 :: p4 :: p5 :: p6 :: rest)
                  (len (p0 :: p1 :: p2 :: p3 :: p4 :: p5 :: p6 :: rest) - 2))
        as (c & -> & _); [unfold len in *; simpl length in *; lia|].
      by eexists.
    + rewrite (index_lookup _ 4 p4) by (done || lia). cbn [mbind run_bind].
      destruct (Z.ltb_spec (4 + 1) (len (p0 :: p1 :: p2 :: p3 :: p4 :: p5 :: p6 :: rest)));
        [|by eexists].
      rewrite (index_lookup _ (4 + 1) p5) by (done || lia). cbn [mbind run_bind].
      match goal with
      | |- context [if Ingest.isAccessKind ?k then _ else _] =>
          destruct (Ingest.isAccessKind k) eqn:Hk; [|by eexists]
      end.
      rewrite slice_in_range by (unfold len in *; simpl length in *; lia).
      cbn [mbind run_bind].
      match goal with
      | |- context [Ingest.captureFields ?v ?p ?s ?i ?r ?e] =>
          destruct (captureFields_safe v p s i r e) as [e' ->]
      end; [lia|lia| | |by eexists].
      * symmetry. apply take_ge. rewrite length_drop. unfold len. lia.
      * cbn [Ingest.MessageType Ingest.setMessageType] in Hk. apply Hmark. exact Hk.

Qed.

(** X5. On a line of ASCII text, [parseLine] returns, with the line
    as the entry's message text, when the line has fewer than five
    tokens or as many as the stamp needs (five with an ISO stamp, seven
    with a syslog stamp), provided that an Access-Accept, -Reject or
    -Challenge line does not end in one of the markers [user…],
    [stationid…], [from], [to]. *)
Theorem parseLine_returns_outside_short_and_trailing_marker
    (now : Time) (parseIPv6 : string → option IP) (line : string) :
  isASCII line = true →
  let parts := Fields line in
  (len parts < 5 ∨ startIndexOf parts + 3 ≤ len parts) →
  (Ingest.isAccessKind (kindOf parts) = true →
   ∀ x, last parts = Some x → marker x = false) →
  ∃ entry err,
    Ingest.parseLine now parseIPv6 line = Done (entry, err)
    ∧ Ingest.FullMessage entry = line.
Proof.
  intros _ parts Hlen Hmark.
  destruct (parseLine_returns now parseIPv6 line Hlen Hmark) as [[entry err] Hr].
  exists entry, err. split; [exact Hr|]. by eapply parseLine_FullMessage.
Qed.

Lemma parseLine_returns_outside_short_and_trailing_marker_witness :
  ∃ entry err,
    Ingest.parseLine nowUTC noIPv6
      "Oct 14 00:00:02 host-a radiusd[123]: Access-Reject for user bob@ku.ac.th from eduroam.ku.ac.th"
    = Done (entry, err)
    ∧ Ingest.FullMessage entry
      = "Oct 14 00:00:02 host-a radiusd[123]: Access-Reject for user bob@ku.ac.th from eduroam.ku.ac.th".
Proof.
  apply (parseLine_returns_outside_short_and_trailing_marker nowUTC noIPv6).
  - reflexivity.
  - right. vm_compute. discriminate.
  - intros _ x [= <-]. reflexivity.
Defined.

(** ** The loops over the log file *)

(** The entries of the lines [parseLine] accepts, in order. *)
Fixpoint parsedEntries (parseIPv6 : string → option IP)
    (lines : list (Time * string)) : list Ingest.LogEntry :=
  match lines with
  | [] => []
  | (now, line) :: rest =>
      match Ingest.parseLine now parseIPv6 line with
      | Done (entry, None) => entry :: parsedEntries parseIPv6 rest
      | _ => parsedEntries parseIPv6 rest
      end
  end.

(** Every line is ASCII text. *)
Definition asciiLines (lines : list (Time * string)) : Prop :=
  Forall (λ l, isASCII l.2 = true) lines.

(** No line makes [parseLine] panic. *)
Definition parseable (parseIPv6 : string → option IP)
    (lines : list (Time * string)) : Prop :=
  Forall (λ l, ∃ r, Ingest.parseLine l.1 parseIPv6 l.2 = Done r) lines.

Section LoopFacts.
Variable parseIPv6 : string → option IP.
Variable servers : nat → Z → list Ingest.LogEntry → Ingest.response.
Variable config : Ingest.Config.

(** The size at which [processExistingData] sends a batch. *)
Definition flushSize : Z := Z.max 1 (Ingest.BatchSize config).

(** A delivery is what [sendToQuickwitWithRetry] made of its batch
    against the service of its turn. *)
Definition delivers (k : nat) (d : IngestFile.delivery) : Prop :=
  Ingest.sendToQuickwitWithRetry (servers k) (IngestFile.batch d) config
  = Done (IngestFile.outcome d, IngestFile.wire d).

Lemma scanExisting_spec lines entries lineCount errorCount calls :
  parseable parseIPv6 lines →
  len entries < flushSize →
  ∃ pending lineCount' errorCount' new,
    IngestFile.scanExisting parseIPv6 servers config lines entries
      lineCount errorCount calls
    = Done (pending, lineCount', errorCount', calls ++ new)
    ∧ concat (map IngestFile.batch new) ++ pending
      = entries ++ parsedEntries parseIPv6 lines
    ∧ len pending < flushSize
    ∧ Forall (λ d, len (IngestFile.batch d) = flushSize) new
    ∧ (∀ k d, new !! k = Some d → delivers (length calls + k) d).
Proof.
  intros Hlines. revert entries lineCount errorCount calls.
  induction Hlines as [|[now line] lines [[entry err] Hline] _ IH];
    intros entries lineCount errorCount calls Hpending.
  - exists entries, lineCount, errorCount, []. simpl.
    rewrite !app_nil_r. split_and!; done.
  - simpl in Hline. cbn [IngestFile.scanExisting parsedEntries]. cbv zeta.
    rewrite Hline. cbn [mbind run_bind].
    destruct err as [msg|].
    { destruct (IH entries (wrap64 (lineCount + 1)) (wrap64 (errorCount + 1)) calls Hpending)
        as (pending & lc & ec & new & -> & H). by exists pending, lc, ec, new. }
    assert (Hlen : len (entries ++ [entry]) = len entries + 1).
    { unfold len. rewrite length_app. simpl. lia. }
    destruct (Z.leb_spec (Ingest.BatchSize config) (len (entries ++ [entry]))) as [Hfull|Hroom].
    + destruct (sendToQuickwitWithRetry_delivers_prefix
                  (servers (length calls)) config (entries ++ [entry]))
        as (e & tr & Hsend & _).
      rewrite Hsend. cbn [mbind run_bind].
      destruct (IH [] (wrap64 (lineCount + 1)) errorCount
                  (calls ++ [IngestFile.mkDelivery (entries ++ [entry]) e tr]))
        as (pending & lc & ec & new & -> & Hcat & Hp & Hsize & Hdel).
      { unfold flushSize, len. simpl. lia. }
      exists pending, lc, ec, (IngestFile.mkDelivery (entries ++ [entry]) e tr :: new).
      split_and!.
      * by rewrite <- app_assoc.
      * simpl. rewrite <- !app_assoc, Hcat. done.
      * done.
      * constructor; [|done]. cbn [IngestFile.batch].
        unfold flushSize, len in *. lia.
      * intros [|k] d Hk.
        -- injection Hk as <-. unfold delivers. simpl. by rewrite Nat.add_0_r.
        -- simpl in Hk. specialize (Hdel k d Hk).
           rewrite length_app in Hdel. simpl in Hdel.
           by replace (length calls + S k)%nat with (length calls + 1 + k)%nat by lia.
    + destruct (IH (entries ++ [entry]) (wrap64 (lineCount + 1)) errorCount calls)
        as (pending & lc & ec & new & -> & Hcat & H).
      { unfold flushSize in *. lia. }
      exists pending, lc, ec, new. split_and!; try tauto.
      by rewrite Hcat, <- app_assoc.
Qed.

Lemma scanNew_spec lines newEntries :
  parseable parseIPv6 lines →
  IngestFile.scanNew parseIPv6 lines newEntries
  = Done (newEntries ++ parsedEntries parseIPv6 lines).
Proof.
  intros Hlines. revert newEntries.
  induction Hlines as [|[now line] lines [[entry err] Hline] _ IH]; intros newEntries.
  - simpl. by rewrite app_nil_r.
  - simpl in Hline. cbn [IngestFile.scanNew parsedEntries]. rewrite Hline.
    cbn [mbind run_bind]. destruct err; [apply IH|].
    by rewrite IH, <- app_assoc.
Qed.

End LoopFacts.

(** X6. On a file of ASCII lines none of which makes [parseLine]
    panic, [processExistingData] returns [nil] whatever the service
    answers, and the batches it hands to [sendToQuickwitWithRetry] are,
    end to end, the entries of the accepted lines in file order.  Every batch has at least one
    entry; every batch but the last has [BatchSize] entries, or one
    entry when [BatchSize] is below one; the last has no more. *)
Theorem processExistingData_batches
    (parseIPv6 : string → option IP)
    (servers : nat → Z → list Ingest.LogEntry → Ingest.response)
    (lines : list (Time * string)) (config : Ingest.Config) :
  asciiLines lines →
  parseable parseIPv6 lines →
  ∃ calls lineCount errorCount,
    IngestFile.processExistingData parseIPv6 servers lines config
    = Done (None, calls, lineCount, errorCount)
    ∧ concat (map IngestFile.batch calls) = parsedEntries parseIPv6 lines
    ∧ (∀ k d, calls !! k = Some d →
         1 ≤ len (IngestFile.batch d) ≤ Z.max 1 (Ingest.BatchSize config)
         ∧ ((S k < length calls)%nat →
            len (IngestFile.batch d) = Z.max 1 (Ingest.BatchSize config))
         ∧ Ingest.sendToQuickwitWithRetry (servers k) (IngestFile.batch d) config
           = Done (IngestFile.outcome d, IngestFile.wire d)).
Proof.
  intros _ Hlines. unfold IngestFile.processExistingData.
  destruct (scanExisting_spec parseIPv6 servers config lines [] 0 0 [] Hlines)
    as (pending & lc & ec & new & -> & Hcat & Hp & Hsize & Hdel).
  { unfold flushSize, len. simpl. lia. }
  cbn [mbind run_bind]. simpl app in *. fold (flushSize config) in *.
  rewrite Forall_lookup in Hsize.
  destruct (Z.ltb_spec 0 (len pending)) as [Hsome|Hnone].
  - destruct (sendToQuickwitWithRetry_delivers_prefix
                (servers (length new)) config pending) as (e & tr & Hsend & _).
    rewrite Hsend. cbn [mbind run_bind mret run_ret].
    eexists _, _, _. split; [reflexivity|]. split.
    + rewrite map_app, concat_app. simpl. by rewrite app_nil_r.
    + intros k d Hk. rewrite length_app. simpl.
      apply lookup_app_Some in Hk as [Hk|[Hge Hk]].
      * rewrite (Hsize _ _ Hk). specialize (Hdel _ _ Hk). simpl in Hdel.
        unfold flushSize. split_and!; [lia|lia|done|exact Hdel].
      * destruct (k - length new)%nat as [|?] eqn:Hkn; [|by destruct n].
        injection Hk as <-. simpl. split_and!; [lia|lia|lia|].
        by replace k with (length new) by lia.
  - cbn [mbind run_bind mret run_ret].
    assert (pending = []) as ->.
    { destruct pending; [done|]. unfold len in Hnone. simpl in Hnone. lia. }
    rewrite app_nil_r in Hcat.
    eexists _, _, _. split; [reflexivity|]. split; [exact Hcat|].
    intros k d Hk. rewrite (Hsize _ _ Hk). specialize (Hdel _ _ Hk). simpl in Hdel.
    unfold flushSize. split_and!; [lia|lia|done|exact Hdel].
Qed.

(** Five lines, one of them rejected, against a batch size of two. *)
Definition fiveLines : list (Time * string) :=
  map (λ line, (nowUTC, line))
    ["2024-10-14T00:00:02Z host-a radiusd[123]: Login OK one";
     "2024-10-14T00:00:03Z host-a radiusd[123]: Login OK two";
     "too short";
     "2024-10-14T00:00:04Z host-a radiusd[123]: Login OK three";
     "2024-10-14T00:00:05Z host-a radiusd[123]: Login OK four"].

Lemma processExistingData_batches_witness :
  ∃ calls lineCount errorCount,
    IngestFile.processExistingData noIPv6 (λ _, fakeServer 10) fiveLines
      (Ingest.mkConfig "" "" "" "" 2 3)
    = Done (None, calls, lineCount, errorCount)
    ∧ map (λ d, len (IngestFile.batch d)) calls = [2; 2]
    ∧ concat (map IngestFile.batch calls) = parsedEntries noIPv6 fiveLines.
Proof.
  destruct (processExistingData_batches noIPv6 (λ _, fakeServer 10) fiveLines
              (Ingest.mkConfig "" "" "" "" 2 3))
    as (calls & lc & ec & Hrun & Hcat & _).
  - repeat constructor.
  - repeat constructor; eexists; vm_compute; reflexivity.
  - exists calls, lc, ec. split; [exact Hrun|]. split; [|exact Hcat].
    vm_compute in Hrun. injection Hrun as <- _ _. reflexivity.
Defined.

(** X7. [processNewData] does not batch: on ASCII lines none of
    which makes [parseLine] panic, and when the scanner ends without an
    error, the entries of all accepted lines are handed to
    [sendToQuickwitWithRetry] in one call, whatever [BatchSize]; no call
    is made when no line is accepted; and the error of that one call is
    the error returned. *)
Theorem processNewData_sends_one_batch
    (parseIPv6 : string → option IP)
    (servers : nat → Z → list Ingest.LogEntry → Ingest.response)
    (lines : list (Time * string)) (config : Ingest.Config) :
  asciiLines lines →
  parseable parseIPv6 lines →
  ∃ err calls,
    IngestFile.processNewData parseIPv6 servers (IngestFile.Scanned lines None) config
    = Done (err, calls)
    ∧ match parsedEntries parseIPv6 lines with
      | [] => err = None ∧ calls = []
      | newEntries =>
          ∃ sendErr tr,
            Ingest.sendToQuickwitWithRetry (servers 0%nat) newEntries config
            = Done (sendErr, tr)
            ∧ calls = [IngestFile.mkDelivery newEntries sendErr tr]
            ∧ (err = None ↔ sendErr = None)
      end.
Proof.
  intros _ Hlines. unfold IngestFile.processNewData, IngestFile.readNewEntries.
  rewrite (scanNew_spec parseIPv6 lines [] Hlines). simpl app.
  cbn [mbind run_bind mret run_ret].
  destruct (parsedEntries parseIPv6 lines) as [|entry rest] eqn:Hparsed.
  - eexists _, _. split; [reflexivity|]. done.
  - destruct (Z.ltb_spec 0 (len (entry :: rest))) as [_|Hz];
      [|unfold len in Hz; simpl in Hz; lia].
    destruct (sendToQuickwitWithRetry_delivers_prefix
                (servers 0%nat) config (entry :: rest)) as (e & tr & Hsend & _).
    rewrite Hsend. cbn [mbind run_bind mret run_ret].
    destruct e as [msg|]; eexists _, _; (split; [reflexivity|]);
      eexists _, tr; (split; [reflexivity|]); split; try done.
Qed.

Lemma processNewData_sends_one_batch_witness :
  ∃ err calls,
    IngestFile.processNewData noIPv6 (λ _, fakeServer 10)
      (IngestFile.Scanned fiveLines None) (Ingest.mkConfig "" "" "" "" 2 3)
    = Done (err, calls)
    ∧ map (λ d, len (IngestFile.batch d)) calls = [4].
Proof.
  destruct (processNewData_sends_one_batch noIPv6 (λ _, fakeServer 10) fiveLines
              (Ingest.mkConfig "" "" "" "" 2 3))
    as (err & calls & Hrun & _).
  - repeat constructor.
  - repeat constructor; eexists; vm_compute; reflexivity.
  - exists err, calls. split; [exact Hrun|].
    vm_compute in Hrun. injection Hrun as _ <-. reflexivity.
Defined.

(** ** The days of a range *)

Lemma yoe_bounds doe :
  0 ≤ doe < 146097 →
  0 ≤ (doe - doe / 1460 + doe / 36524 - doe / 146096) / 365 ≤ 399.
Proof. intros H. Z.div_mod_to_equations. lia. Qed.

Lemma doy_bounds doe :
  0 ≤ doe < 146097 →
  let yoe := (doe - doe / 1460 + doe / 36524 - doe / 146096) / 365 in
  0 ≤ doe - (365 * yoe + yoe / 4 - yoe / 100) ≤ 365.
Proof. intros H yoe. subst yoe. Z.div_mod_to_equations. lia. Qed.

Lemma dayNumber_civil (era doe yoe doy mp : Z) :
  0 ≤ yoe ≤ 399 → 0 ≤ mp ≤ 11 →
  doy = doe - (365 * yoe + yoe / 4 - yoe / 100) →
  dayNumber (if (if mp <? 10 then mp + 3 else mp - 9) <=? 2
             then yoe + era * 400 + 1 else yoe + era * 400)
            (if mp <? 10 then mp + 3 else mp - 9)
            (doy - (153 * mp + 2) / 5 + 1)
  = era * 146097 + doe - 719468.
Proof.
  intros Hyoe Hmp Hdoy.
  assert (Hera : (yoe + era * 400) / 400 = era).
  { rewrite Z.div_add by lia. rewrite Z.div_small by lia. lia. }
  unfold dayNumber, daysFromCivil.
  destruct (Z.ltb_spec mp 10) as [Hlt|Hge].
  - destruct (Z.leb_spec (mp + 3) 2) as [|_]; [lia|].
    replace ((mp + 3 - 1) / 12) with 0 by (Z.div_mod_to_equations; lia).
    replace ((mp + 3 - 1) mod 12 + 1) with (mp + 3) by (Z.div_mod_to_equations; lia).
    destruct (Z.leb_spec (mp + 3) 2) as [|_]; [lia|].
    rewrite Z.add_0_r, Hera.
    replace ((mp + 3 + 9) mod 12) with mp by (Z.div_mod_to_equations; lia).
    replace (yoe + era * 400 - era * 400) with yoe by lia.
    lia.
  - destruct (Z.leb_spec (mp - 9) 2) as [_|]; [|lia].
    replace ((mp - 9 - 1) / 12) with 0 by (Z.div_mod_to_equations; lia).
    replace ((mp - 9 - 1) mod 12 + 1) with (mp - 9) by (Z.div_mod_to_equations; lia).
    destruct (Z.leb_spec (mp - 9) 2) as [_|]; [|lia].
    replace (yoe + era * 400 + 1 + 0 - 1) with (yoe + era * 400) by lia.
    rewrite Hera.
    replace ((mp - 9 + 9) mod 12) with mp by (Z.div_mod_to_equations; lia).
    replace (yoe + era * 400 - era * 400) with yoe by lia.
    lia.
Qed.

(** [time.Date], handed the civil date of a day, arrives at that day. *)
Lemma redate_id z : redate z = z.
Proof.
  unfold redate, civilFromDays. cbv beta iota zeta.
  remember (z + 719468 - (z + 719468) / 146097 * 146097) as doe eqn:Edoe.
  assert (Hdoe : 0 ≤ doe < 146097).
  { pose proof (Z.div_mod (z + 719468) 146097 ltac:(lia)).
    pose proof (Z.mod_pos_bound (z + 719468) 146097 ltac:(lia)). lia. }
  pose proof (yoe_bounds doe Hdoe) as Hyoe. pose proof (doy_bounds doe Hdoe) as Hdoy.
  cbv zeta in Hdoy. revert Hyoe Hdoy.
  generalize ((doe - doe / 1460 + doe / 36524 - doe / 146096) / 365).
  intros yoe Hyoe Hdoy.
  rewrite (dayNumber_civil ((z + 719468) / 146097) doe yoe); [| done | | done].
  - lia.
  - Z.div_mod_to_equations; lia.
Qed.

Lemma dayIndex_redate t : dayIndex t = redate (wallSec t / 86400).
Proof.
  unfold dayIndex, Year, Month, Day, civil, redate.
  by destruct (civilFromDays (wallSec t / 86400)) as [[y m] d].
Qed.

Lemma dayIndex_wall t : dayIndex t = wallSec t / 86400.
Proof. by rewrite dayIndex_redate, redate_id. Qed.

Lemma second_pos : 0 < second.
Proof. unfold second. lia. Qed.

Lemma Date_dayNumber y m d s ns off :
  Date y m d 0 0 s ns off = mkTime (ns + second * (s + 86400 * dayNumber y m d - off)) off.
Proof. unfold Date, dayNumber. f_equal. lia. Qed.

(** [AddDate(0, 0, k)] moves the wall clock by [k] days and keeps the zone. *)
Lemma AddDate_days t k :
  wallSec (AddDate t 0 k) / 86400 = wallSec t / 86400 + k
  ∧ zoneOff (AddDate t 0 k) = zoneOff t.
Proof.
  unfold AddDate. cbv zeta. rewrite Date_dayNumber. split; [|reflexivity].
  replace (dayNumber (Year t + 0) (Month t) (Day t + k)) with (dayIndex t + k)
    by (unfold dayIndex, dayNumber; rewrite Z.add_0_r; lia).
  rewrite dayIndex_wall.
  generalize (wallSec t / 86400). intros W.
  pose proof (Z.mod_pos_bound (wallSec t) 86400 ltac:(lia)) as Hsod.
  revert Hsod. generalize (wallSec t mod 86400). intros sod Hsod.
  pose proof (Z.mod_pos_bound (nanos t) second second_pos) as Hns.
  revert Hns. generalize (nanos t mod second). intros ns Hns.
  unfold wallSec, Unix. cbn [nanos zoneOff].
  pose proof second_pos as Hs.
  replace ((ns + second * (sod + 86400 * (W + k) - zoneOff t)) / second)
    with (sod + 86400 * (W + k) - zoneOff t).
  2:{ apply (Z.div_unique _ _ _ ns); lia. }
  symmetry. apply (Z.div_unique _ _ _ sod); lia.
Qed.

Lemma startOfDay_AddDate t k :
  startOfDay (AddDate t 0 k) = midnight (wallSec t / 86400 + k) (zoneOff t).
Proof.
  rewrite startOfDay_midnight, dayIndex_wall.
  destruct (AddDate_days t k) as [-> ->]. done.
Qed.

Lemma startOfDay_wall t : startOfDay t = midnight (wallSec t / 86400) (zoneOff t).
Proof. by rewrite startOfDay_midnight, dayIndex_wall. Qed.

Lemma endOfDay_wall t : endOfDay t = lastNano (wallSec t / 86400) (zoneOff t).
Proof. by rewrite endOfDay_lastNano, dayIndex_wall. Qed.

Lemma endOfDay_AddDate t k :
  endOfDay (AddDate t 0 k) = lastNano (wallSec t / 86400 + k) (zoneOff t).
Proof.
  rewrite endOfDay_lastNano, dayIndex_wall.
  destruct (AddDate_days t k) as [-> ->]. done.
Qed.

(** The Jobs of [n] whole days from second [a]. *)
Definition dayJobs (a : Z) (n : nat) : list Job := map (dayJob a n) (seq 0 n).

(** A range of [n] days that ends today. *)
Lemma enqueueJobs_back now (n : Z) :
  0 ≤ n →
  enqueueJobs (startOfDay (AddDate now 0 (- n + 1))) (endOfDay now)
  = dayJobs (86400 * (wallSec now / 86400 - n + 1) - zoneOff now) (Z.to_nat n).
Proof.
  intros Hn. rewrite startOfDay_AddDate, endOfDay_wall, enqueueJobs_days.
  unfold dayJobs.
  replace (wallSec now / 86400 - (wallSec now / 86400 + (- n + 1)) + 1) with n by lia.
  do 2 f_equal. lia.
Qed.

(** *** Arguments that are numbers, years and dates *)

Lemma HasPrefix_no_y s : inCutset s "y" = false → HasPrefix s "y" = false.
Proof.
  destruct s as [|d r]; [done|]. cbn [inCutset HasPrefix].
  intros [H _]%orb_false_iff. by rewrite H.
Qed.

Lemma eqb_last_no_y s :
  inCutset s "y" = false → String.eqb (dropS (String.length s - 1) s) "y" = false.
Proof.
  induction s as [|d r IH]; [done|]. cbn [inCutset String.length].
  intros [Hd Hr]%orb_false_iff.
  replace (S (String.length r) - 1)%nat with (String.length r) by lia.
  destruct r as [|e r'].
  - cbn [String.length dropS String.eqb]. by rewrite Ascii.eqb_sym, Hd.
  - specialize (IH Hr). cbn [String.length] in IH.
    replace (S (String.length r') - 1)%nat with (String.length r') in IH by lia.
    exact IH.
Qed.

Lemma HasSuffix_no_y s : inCutset s "y" = false → HasSuffix s "y" = false.
Proof.
  intros H. unfold HasSuffix. change (String.length "y") with 1%nat.
  rewrite (eqb_last_no_y s H). apply andb_false_r.
Qed.

Lemma isDigit_no_y c : isDigit c = true → Ascii.eqb "y" c = false.
Proof.
  intros Hc. apply Ascii.eqb_neq. intros <-. discriminate Hc.
Qed.

Lemma allDigits_no_y s : allDigits s = true → inCutset s "y" = false.
Proof.
  induction s as [|c r IH]; [done|]. cbn [allDigits inCutset].
  intros [Hc Hr]%andb_prop. by rewrite (isDigit_no_y c Hc), IH.
Qed.

Lemma ParseInt_body s d :
  ParseInt s = Some d →
  ∃ c r, s = String c r
         ∧ (allDigits s = true
            ∨ ((c = "-"%char ∨ c = "+"%char) ∧ allDigits r = true ∧ r ≠ "")).
Proof.
  unfold ParseInt. destruct s as [|c r]; [done|].
  intros H. exists c, r. split; [done|].
  destruct (Ascii.eqb_spec c "-") as [->|Hm].
  { right. split; [by left|]. destruct r; [done|].
    destruct (allDigits (String a r)); [done|discriminate H]. }
  destruct (Ascii.eqb_spec c "+") as [->|Hp].
  { right. split; [by right|]. destruct r; [done|].
    destruct (allDigits (String a r)); [done|discriminate H]. }
  left.
  assert (Hbody : (let '(neg, body) :=
            match String c r with
            | String "-" r0 => (true, r0)
            | String "+" r0 => (false, r0)
            | _ => (false, String c r)
            end in (neg, body)) = (false, String c r)).
  { destruct c as [[] [] [] [] [] [] [] []]; try reflexivity; congruence. }
  destruct (match String c r with
            | String "-" r0 => (true, r0)
            | String "+" r0 => (false, r0)
            | _ => (false, String c r)
            end) as [neg body].
  injection Hbody as -> ->.
  destruct (allDigits (String c r)); [done|discriminate H].
Qed.

Lemma Atoi_no_y arg d : Atoi arg = Some d → inCutset arg "y" = false.
Proof.
  intros (c & r & -> & [H|([-> | ->] & H & _)])%ParseInt_body.
  - by apply allDigits_no_y.
  - cbn [inCutset]. by rewrite (allDigits_no_y r H).
  - cbn [inCutset]. by rewrite (allDigits_no_y r H).
Qed.

Lemma Atoi_nonempty arg d : Atoi arg = Some d → arg ≠ "".
Proof. by intros (c & r & -> & _)%ParseInt_body. Qed.

Lemma realm_range_days now prog domain arg d :
  Atoi arg = Some d → 1 ≤ d ≤ 366 →
  Realm.requestedRange now [prog; domain; arg]
  = inr (Realm.mkPlan d (AddDate now 0 (- d + 1)) now false).
Proof.
  intros Hd Hr. unfold Realm.requestedRange.
  change (len [prog; domain; arg]) with 3.
  change (default "" ([prog; domain; arg] !! 2%nat)) with arg.
  change ((3 <? 2) || (3 <? 3)) with false. change (3 =? 3) with true. cbv iota.
  rewrite Hd. destruct (Z.leb_spec d 366); [|lia].
  rewrite (wrap64_small (- d)) by (change (2 ^ 63) with 9223372036854775808; lia).
  rewrite wrap64_small by (change (2 ^ 63) with 9223372036854775808; lia).
  done.
Qed.

Lemma sp_range_days now prog sp arg d :
  Atoi arg = Some d →
  SP.requestedRange now [prog; sp; arg]
  = if (1 <=? d) && (d <=? 3650)
    then inr (SP.mkPlan d (AddDate now 0 (- d + 1)) now false)
    else inl (SP.Fatal "Invalid number of days. Must be between 1 and 3650").
Proof.
  intros Hd. unfold SP.requestedRange.
  change (len [prog; sp; arg]) with 3.
  change (default "" ([prog; sp; arg] !! 2%nat)) with arg.
  change ((3 <? 2) || (3 <? 3)) with false. change (3 =? 3) with true. cbv iota zeta.
  rewrite (HasPrefix_no_y arg (Atoi_no_y _ _ Hd)), (HasSuffix_no_y arg (Atoi_no_y _ _ Hd)).
  cbn [andb]. by rewrite Hd.
Qed.

(** X8. In a local zone that keeps one offset, a days argument the
    tool accepts, 1 to 366 for eduroam-accept and 1 to 3650 for
    eduroam-sp, yields exactly that many Jobs: one for each local day
    from [days - 1] days before today up to today, each starting at a
    local midnight. *)
Theorem days_argument_enqueues_one_job_per_day
    (local : Location) (now : Time) (prog target arg : string) (d : Z) :
  keepsOffset local (zoneOff now) →
  Atoi arg = Some d →
  let today := wallSec now / 86400 in
  let first := 86400 * (today - d + 1) - zoneOff now in
  Forall (startsAtMidnight local) (dayJobs first (Z.to_nat d))
  ∧ (1 ≤ d ≤ 366 →
   ∀ props,
     Realm.start now [prog; target; arg] (Some props)
     = Done (Realm.Enqueued
               (Realm.mkPlan d (midnight (today - d + 1) (zoneOff now))
                             (lastNano today (zoneOff now)) false)
               (dayJobs first (Z.to_nat d))))
  ∧ (1 ≤ d ≤ 3650 →
     ∀ props,
       SP.start now [prog; target; arg] (Some props)
       = Done (SP.Enqueued
                 (SP.mkPlan d (midnight (today - d + 1) (zoneOff now))
                            (lastNano today (zoneOff now)) false)
                 (dayJobs first (Z.to_nat d)))).
Proof.
  intros Hlocal Hd today first.
  split; [by apply dayJobs_midnights|]. split; intros Hr props.
  - unfold Realm.start. rewrite (realm_range_days _ _ _ _ _ Hd Hr).
    cbn [Realm.startDate Realm.endDate Realm.days Realm.specificDate].
    unfold Realm.makeJobs. destruct (Z.ltb_spec d 0); [lia|].
    cbn [mbind run_bind mret run_ret].
    rewrite enqueueJobs_back by lia.
    rewrite startOfDay_AddDate, endOfDay_wall.
    replace (wallSec now / 86400 + (- d + 1)) with (today - d + 1) by (unfold today; lia).
    done.
  - unfold SP.start. rewrite (sp_range_days _ _ _ _ _ Hd).
    destruct (Z.leb_spec 1 d); [|lia]. destruct (Z.leb_spec d 3650); [|lia].
    cbn [andb SP.startDate SP.endDate SP.days SP.specificDate].
    unfold SP.makeJobs. destruct (Z.ltb_spec d 0); [lia|].
    cbn [mbind run_bind mret run_ret].
    rewrite enqueueJobs_back by lia.
    rewrite startOfDay_AddDate, endOfDay_wall.
    replace (wallSec now / 86400 + (- d + 1)) with (today - d + 1) by (unfold today; lia).
    done.
Qed.

Lemma days_argument_enqueues_one_job_per_day_witness :
  ∃ p jobs,
    SP.start nowUTC ["eduroam-sp"; "ku.ac.th"; "400"] (Some spProps)
    = Done (SP.Enqueued p jobs)
    ∧ length jobs = 400%nat.
Proof.
  eexists _, _. split.
  - apply (proj2 (proj2 (days_argument_enqueues_one_job_per_day (λ _, 0) nowUTC
                           "eduroam-sp" "ku.ac.th" "400" 400
                           (λ _, eq_refl) eq_refl))).
    lia.
  - unfold dayJobs. by rewrite length_map, length_seq.
Defined.



Lemma getnum_fixed_shape s n v :
  getnum s true = Some (n, v) →
  ∃ c1 c2, s = String c1 (String c2 v) ∧ isDigit c1 = true ∧ isDigit c2 = true.
Proof.
  unfold getnum. destruct s as [|c1 [|c2 r]]; [done| |].
  - destruct (isDigit c1); done.
  - destruct (isDigit c1) eqn:H1; [|done]. destruct (isDigit c2) eqn:H2; [|done].
    intros [= _ <-]. by exists c1, c2.
Qed.

Lemma skip_dash s v : skip s "-" = Some v → s = String "-" v.
Proof.
  unfold skip. cbn [String.length skipN].
  change (Ascii.eqb "-" " ") with false. cbv iota.
  destruct s as [|c r]; [done|].
  destruct (Ascii.eqb_spec c "-") as [->|]; [|done]. by intros [= ->].
Qed.

Lemma takeS_dropS s n : takeS n s +:+ dropS n s = s.
Proof.
  revert s. induction n as [|n IH]; intros s; [done|].
  destruct s as [|c r]; [done|]. cbn [takeS dropS].
  change (String c (takeS n r +:+ dropS n r) = String c r). by rewrite IH.
Qed.

(** A value [time.Parse] reads as DD-MM-YYYY is ten bytes long: digits
    and two dashes. *)
Lemma Parse_DMY_shape arg t :
  Parse layoutDMY arg = Some t →
  ∃ c1 c2 c3 c4 y,
    arg = String c1 (String c2 (String "-" (String c3 (String c4 (String "-" y)))))
    ∧ isDigit c1 = true ∧ isDigit c2 = true ∧ isDigit c3 = true ∧ isDigit c4 = true
    ∧ allDigits y = true.
Proof.
  unfold Parse, layoutDMY. cbn [parseChunks parseChunk].
  destruct (getnum arg true) as [[d v1]|] eqn:Hd; [|done].
  apply getnum_fixed_shape in Hd as (c1 & c2 & -> & H1 & H2).
  cbn [mbind option_bind].
  destruct (skip v1 "-") as [v2|] eqn:Hs1; [|done].
  apply skip_dash in Hs1 as ->. cbn [mbind option_bind].
  destruct (getnum v2 true) as [[m v3]|] eqn:Hm; [|done].
  apply getnum_fixed_shape in Hm as (c3 & c4 & -> & H3 & H4).
  cbn [mbind option_bind].
  destruct (inRange 1 12 m); [|done]. cbn [mbind option_bind].
  destruct (skip v3 "-") as [v4|] eqn:Hs2; [|done].
  apply skip_dash in Hs2 as ->. cbn [mbind option_bind].
  destruct v4 as [|c0 r0]; [done|].
  destruct (isDigit c0 && (4 <=? String.length (String c0 r0))%nat
            && allDigits (takeS 4 (String c0 r0))) eqn:Hy; [|done].
  apply andb_prop in Hy as [_ Hy].
  destruct (dropS 4 (String c0 r0)) eqn:Hrest; [|done].
  intros _. exists c1, c2, c3, c4, (String c0 r0). split_and!; try done.
  rewrite <- (takeS_dropS (String c0 r0) 4), Hrest.
  revert Hy. generalize (takeS 4 (String c0 r0)). intros y Hy.
  induction y as [|c y IH]; [done|]. cbn [allDigits] in *. simpl.
  apply andb_prop in Hy as [-> Hy]. by apply IH.
Qed.

(** It is a time in UTC: the layout names no zone. *)
Lemma Parse_DMY_utc arg t : Parse layoutDMY arg = Some t → zoneOff t = 0.
Proof.
  unfold Parse, layoutDMY. cbn [parseChunks parseChunk].
  destruct (getnum arg true) as [[d v1]|]; [|done]. cbn [mbind option_bind].
  destruct (skip v1 "-") as [v2|]; [|done]. cbn [mbind option_bind].
  destruct (getnum v2 true) as [[m v3]|]; [|done]. cbn [mbind option_bind].
  destruct (inRange 1 12 m); [|done]. cbn [mbind option_bind].
  destruct (skip v3 "-") as [v4|]; [|done]. cbn [mbind option_bind].
  destruct v4 as [|c0 r0]; [done|].
  destruct (isDigit c0 && (4 <=? String.length (String c0 r0))%nat
            && allDigits (takeS 4 (String c0 r0))); [|done].
  destruct (dropS 4 (String c0 r0)); [|done].
  cbn [mbind option_bind mret option_ret fZone noFields fMonth fDay fYear].
  change (-1 =? -1) with true. cbv iota.
  match goal with |- context [if ?b || ?c then _ else _] => destruct (b || c) end;
    [done|]. by intros [= <-].
Qed.

Lemma Parse_DMY_no_y arg t : Parse layoutDMY arg = Some t → inCutset arg "y" = false.
Proof.
  intros (c1 & c2 & c3 & c4 & y & -> & H1 & H2 & H3 & H4 & Hy)%Parse_DMY_shape.
  cbn [inCutset].
  rewrite (isDigit_no_y c1 H1), (isDigit_no_y c2 H2), (isDigit_no_y c3 H3),
          (isDigit_no_y c4 H4), (allDigits_no_y y Hy).
  reflexivity.
Qed.

Lemma Parse_DMY_not_number arg t : Parse layoutDMY arg = Some t → Atoi arg = None.
Proof.
  intros Ht. destruct (Atoi arg) as [d|] eqn:Hd; [|done].
  by rewrite (Parse_DMY_rejects_numbers _ _ Hd) in Ht.
Qed.

Lemma realm_range_date now prog domain arg startDate :
  Parse layoutDMY arg = Some startDate →
  Realm.requestedRange now [prog; domain; arg]
  = inr (Realm.mkPlan 1 startDate (AddDate startDate 0 1) true).
Proof.
  intros Ht. unfold Realm.requestedRange.
  change (len [prog; domain; arg]) with 3.
  change (default "" ([prog; domain; arg] !! 2%nat)) with arg.
  change ((3 <? 2) || (3 <? 3)) with false. change (3 =? 3) with true. cbv iota zeta.
  by rewrite (Parse_DMY_not_number _ _ Ht), Ht.
Qed.

Lemma sp_range_date now prog sp arg startDate :
  Parse layoutDMY arg = Some startDate →
  SP.requestedRange now [prog; sp; arg]
  = inr (SP.mkPlan 1 startDate (AddDate startDate 0 1) true).
Proof.
  intros Ht. unfold SP.requestedRange.
  change (len [prog; sp; arg]) with 3.
  change (default "" ([prog; sp; arg] !! 2%nat)) with arg.
  change ((3 <? 2) || (3 <? 3)) with false. change (3 =? 3) with true. cbv iota zeta.
  rewrite (HasPrefix_no_y arg (Parse_DMY_no_y _ _ Ht)),
          (HasSuffix_no_y arg (Parse_DMY_no_y _ _ Ht)).
  cbn [andb]. by rewrite (Parse_DMY_not_number _ _ Ht), Ht.
Qed.

(** A range of two days: the day of [t] and the next. *)
Lemma enqueueJobs_two_days t :
  enqueueJobs (startOfDay t) (endOfDay (AddDate t 0 1))
  = dayJobs (86400 * (wallSec t / 86400) - zoneOff t) 2.
Proof.
  rewrite startOfDay_wall, endOfDay_AddDate, enqueueJobs_days. unfold dayJobs.
  by replace (wallSec t / 86400 + 1 - wallSec t / 86400 + 1) with 2 by lia.
Qed.

(** X10. Without a days argument both tools report [days = 1] and yet
    enqueue two Jobs.  By default, in a local zone that keeps one
    offset, they are yesterday and today, from local midnight.  For a
    DD-MM-YYYY argument they are the day named and the day after it,
    both in UTC whatever the local zone. *)
Theorem one_day_ranges_enqueue_two_jobs
    (local : Location) (now : Time) (prog target : string) :
  (keepsOffset local (zoneOff now) →
   Forall (startsAtMidnight local)
     (dayJobs (86400 * (wallSec now / 86400 - 1) - zoneOff now) 2)
   ∧ ∀ props,
     Realm.start now [prog; target] (Some props)
     = Done (Realm.Enqueued
               (Realm.mkPlan 1 (midnight (wallSec now / 86400 - 1) (zoneOff now))
                             (lastNano (wallSec now / 86400) (zoneOff now)) false)
               (dayJobs (86400 * (wallSec now / 86400 - 1) - zoneOff now) 2))
     ∧ ∀ props',
       SP.start now [prog; target] (Some props')
       = Done (SP.Enqueued
                 (SP.mkPlan 1 (midnight (wallSec now / 86400 - 1) (zoneOff now))
                            (lastNano (wallSec now / 86400) (zoneOff now)) false)
                 (dayJobs (86400 * (wallSec now / 86400 - 1) - zoneOff now) 2)))
  ∧ (∀ arg startDate, Parse layoutDMY arg = Some startDate →
     let day := wallSec startDate / 86400 in
     zoneOff startDate = 0
     ∧ (∀ props,
        Realm.start now [prog; target; arg] (Some props)
        = Done (Realm.Enqueued
                  (Realm.mkPlan 1 (midnight day (zoneOff startDate))
                                (lastNano (day + 1) (zoneOff startDate)) true)
                  (dayJobs (86400 * day - zoneOff startDate) 2)))
     ∧ (∀ props,
        SP.start now [prog; target; arg] (Some props)
        = Done (SP.Enqueued
                  (SP.mkPlan 1 (midnight day (zoneOff startDate))
                             (lastNano (day + 1) (zoneOff startDate)) true)
                  (dayJobs (86400 * day - zoneOff startDate) 2)))).
Proof.
  assert (Hback : enqueueJobs (startOfDay (AddDate now 0 (-1))) (endOfDay now)
                  = dayJobs (86400 * (wallSec now / 86400 - 1) - zoneOff now) 2).
  { change (-1) with (- (2) + 1). rewrite (enqueueJobs_back now 2) by lia.
    do 2 f_equal. lia. }
  assert (Hstart : startOfDay (AddDate now 0 (-1))
                   = midnight (wallSec now / 86400 - 1) (zoneOff now)).
  { rewrite startOfDay_AddDate. f_equal. }
  
  split.
  - intros Hlocal. split; [by apply dayJobs_midnights|].
    intros props. split; [|intros props'].
    + unfold Realm.start, Realm.requestedRange.
      change (len [prog; target]) with 2.
      change ((2 <? 2) || (3 <? 2)) with false. change (2 =? 3) with false. cbv iota.
      cbn [Realm.startDate Realm.endDate Realm.days Realm.specificDate
           Realm.makeJobs mbind run_bind mret run_ret].
      change (1 <? 0) with false. cbv iota. cbn [mbind run_bind mret run_ret].
      by rewrite Hback, Hstart, endOfDay_wall.
    + unfold SP.start, SP.requestedRange.
      change (len [prog; target]) with 2.
      change ((2 <? 2) || (3 <? 2)) with false. change (2 =? 3) with false. cbv iota.
      cbn [SP.startDate SP.endDate SP.days SP.specificDate
           SP.makeJobs mbind run_bind mret run_ret].
      change (1 <? 0) with false. cbv iota. cbn [mbind run_bind mret run_ret].
      by rewrite Hback, Hstart, endOfDay_wall.
  - intros arg startDate Ht day. split; [by eapply Parse_DMY_utc|].
    split; intros props.
    + unfold Realm.start. rewrite (realm_range_date _ _ _ _ _ Ht).
      cbn [Realm.startDate Realm.endDate Realm.days Realm.specificDate
           Realm.makeJobs mbind run_bind mret run_ret].
      change (1 <? 0) with false. cbv iota. cbn [mbind run_bind mret run_ret].
      by rewrite enqueueJobs_two_days, startOfDay_wall, endOfDay_AddDate.
    + unfold SP.start. rewrite (sp_range_date _ _ _ _ _ Ht).
      cbn [SP.startDate SP.endDate SP.days SP.specificDate
           SP.makeJobs mbind run_bind mret run_ret].
      change (1 <? 0) with false. cbv iota. cbn [mbind run_bind mret run_ret].
      by rewrite enqueueJobs_two_days, startOfDay_wall, endOfDay_AddDate.
Qed.

Lemma one_day_ranges_enqueue_two_jobs_witness :
  (∃ p jobs,
     Realm.start nowUTC ["eduroam-accept"; "ku.ac.th"] (Some props)
     = Done (Realm.Enqueued p jobs)
     ∧ Realm.days p = 1
     ∧ jobs = [mkJob 1730332800 1730419200; mkJob 1730419200 1730505599])
  ∧ (∃ p jobs,
     Realm.start nowUTC ["eduroam-accept"; "ku.ac.th"; "14-10-2024"] (Some props)
     = Done (Realm.Enqueued p jobs)
     ∧ Realm.days p = 1
     ∧ jobs = [mkJob 1728864000 1728950400; mkJob 1728950400 1729036799]).
Proof.
  split.
  - eexists _, _. split.
    + apply (proj1 (one_day_ranges_enqueue_two_jobs (λ _, 0) nowUTC
                      "eduroam-accept" "ku.ac.th") (λ _, eq_refl)).
    + split; [reflexivity|]. vm_compute. reflexivity.
  - eexists _, _. split.
    + apply (proj2 (one_day_ranges_enqueue_two_jobs (λ _, 0) nowUTC
                      "eduroam-accept" "ku.ac.th")
               "14-10-2024" (Date 2024 10 14 0 0 0 0 0)).
      vm_compute. reflexivity.
    + split; [reflexivity|]. vm_compute. reflexivity.
Defined.

(** The days of a civil year, as the Gregorian rule of [isLeapYear]
    counts them. *)
Lemma year_length year :
  0 ≤ year →
  dayNumber year 12 31
  = dayNumber year 1 1 + (if SP.isLeapYear year then 366 else 365) - 1.
Proof.
  intros Hy. unfold dayNumber, daysFromCivil, SP.isLeapYear.
  change ((12 - 1) / 12) with 0. change ((12 - 1) mod 12 + 1) with 12.
  change ((1 - 1) / 12) with 0. change ((1 - 1) mod 12 + 1) with 1.
  change (12 <=? 2) with false. change (1 <=? 2) with true. cbv iota.
  change ((12 + 9) mod 12) with 9. change ((1 + 9) mod 12) with 10.
  change ((153 * 9 + 2) / 5) with 275. change ((153 * 10 + 2) / 5) with 306.
  rewrite !Z.rem_mod_nonneg by lia. rewrite Z.add_0_r.
  destruct (Z.eqb_spec (year mod 4) 0) as [H4|H4];
    destruct (Z.eqb_spec (year mod 100) 0) as [H100|H100];
    destruct (Z.eqb_spec (year mod 400) 0) as [H400|H400];
    cbn [andb orb negb]; Z.div_mod_to_equations; lia.
Qed.

Lemma length_append s t :
  String.length (s +:+ t) = (String.length s + String.length t)%nat.
Proof. induction s as [|c s IH]; [done|]. simpl. by rewrite IH. Qed.

Lemma dropS_append s t : dropS (String.length s) (s +:+ t) = t.
Proof. induction s as [|c s IH]; [by destruct t|]. exact IH. Qed.

Lemma takeS_append s t : takeS (String.length s) (s +:+ t) = s.
Proof.
  induction s as [|c s IH]; [by destruct t|].
  change (String c (takeS (String.length s) (s +:+ t)) = String c s). by rewrite IH.
Qed.

Lemma HasSuffix_append s t : HasSuffix (s +:+ t) t = true.
Proof.
  unfold HasSuffix. rewrite length_append.
  replace (String.length s + String.length t - String.length t)%nat
    with (String.length s) by lia.
  rewrite dropS_append, String.eqb_refl, andb_true_r.
  apply Nat.leb_le. lia.
Qed.

Lemma TrimSuffix_append s t : TrimSuffix (s +:+ t) t = s.
Proof.
  unfold TrimSuffix. rewrite HasSuffix_append, length_append.
  replace (String.length s + String.length t - String.length t)%nat
    with (String.length s) by lia.
  apply takeS_append.
Qed.

Lemma startOfDay_Date y m d off :
  startOfDay (Date y m d 0 0 0 0 off) = midnight (dayNumber y m d) off.
Proof.
  rewrite Date_midnight, startOfDay_midnight, dayIndex_midnight, redate_id. done.
Qed.

Lemma endOfDay_Date y m d off :
  endOfDay (Date y m d 23 59 59 999999999 off) = lastNano (dayNumber y m d) off.
Proof.
  rewrite Date_lastNano, endOfDay_lastNano, dayIndex_lastNano, redate_id. done.
Qed.

Lemma sp_range_year now prog sp yearStr year :
  String.length yearStr = 4%nat → Atoi yearStr = Some year → 2000 ≤ year ≤ 2100 →
  SP.requestedRange now [prog; sp; "y" +:+ yearStr]
  = inr (SP.mkPlan (if SP.isLeapYear year then 366 else 365)
           (Date year 1 1 0 0 0 0 (zoneOff now))
           (Date year 12 31 23 59 59 999999999 (zoneOff now)) false).
Proof.
  intros Hlen Hyear Hr. unfold SP.requestedRange.
  change (len [prog; sp; "y" +:+ yearStr]) with 3.
  change (default "" ([prog; sp; "y" +:+ yearStr] !! 2%nat)) with (String "y" yearStr).
  change ((3 <? 2) || (3 <? 3)) with false. change (3 =? 3) with true. cbv iota zeta.
  assert (Hp : HasPrefix (String "y" yearStr) "y" = true) by (by destruct yearStr).
  rewrite Hp. cbn [String.length]. rewrite Hlen. cbn [Nat.eqb andb dropS].
  rewrite Hyear.
  destruct (Z.leb_spec 2000 year); [|lia]. destruct (Z.leb_spec year 2100); [|lia].
  done.
Qed.

Lemma sp_range_years now prog sp yearsStr years :
  Atoi yearsStr = Some years → 1 ≤ years ≤ 10 →
  SP.requestedRange now [prog; sp; yearsStr +:+ "y"]
  = inr (SP.mkPlan (years * 365) (AddDate now 0 (- (years * 365) + 1)) now false).
Proof.
  intros Hyears Hr. unfold SP.requestedRange.
  change (len [prog; sp; yearsStr +:+ "y"]) with 3.
  change (default "" ([prog; sp; yearsStr +:+ "y"] !! 2%nat)) with (yearsStr +:+ "y").
  change ((3 <? 2) || (3 <? 3)) with false. change (3 =? 3) with true. cbv iota zeta.
  assert (Hp : HasPrefix (yearsStr +:+ "y") "y" = false).
  { pose proof (Atoi_no_y _ _ Hyears) as Hy.
    destruct yearsStr as [|c r]; [by apply Atoi_nonempty in Hyears|].
    cbn [inCutset] in Hy. apply orb_false_iff in Hy as [Hc _].
    change (HasPrefix (String c (r +:+ "y")) "y" = false).
    cbn [HasPrefix]. by rewrite Hc. }
  rewrite Hp, HasSuffix_append, TrimSuffix_append. cbn [andb].
  rewrite Hyears.
  destruct (Z.leb_spec 1 years); [|lia]. destruct (Z.leb_spec years 10); [|lia].
  done.
Qed.

(** X11. The year forms of eduroam-sp, in a local zone that keeps one
    offset.  For [yNNNN] with a year from 2000 to 2100 the number of
    Jobs is the number of days of that civil year, 366 in a leap year
    and 365 otherwise, from its 1 January.  For [Ny] with N from 1 to
    10 it is 365 times N, counted back from today: leap days are not
    counted in.  Every Job starts at a local midnight. *)
Theorem sp_year_arguments
    (local : Location) (now : Time) (prog sp : string) (props : SP.Properties) :
  keepsOffset local (zoneOff now) →
  (∀ yearStr year,
     String.length yearStr = 4%nat → Atoi yearStr = Some year → 2000 ≤ year ≤ 2100 →
     let days := if SP.isLeapYear year then 366 else 365 in
     let first := dayNumber year 1 1 in
     Forall (startsAtMidnight local)
       (dayJobs (86400 * first - zoneOff now) (Z.to_nat days))
     ∧ SP.start now [prog; sp; "y" +:+ yearStr] (Some props)
     = Done (SP.Enqueued
               (SP.mkPlan days (midnight first (zoneOff now))
                          (lastNano (first + days - 1) (zoneOff now)) false)
               (dayJobs (86400 * first - zoneOff now) (Z.to_nat days))))
  ∧ (∀ yearsStr years,
     Atoi yearsStr = Some years → 1 ≤ years ≤ 10 →
     let days := years * 365 in
     let today := wallSec now / 86400 in
     Forall (startsAtMidnight local)
       (dayJobs (86400 * (today - days + 1) - zoneOff now) (Z.to_nat days))
     ∧ SP.start now [prog; sp; yearsStr +:+ "y"] (Some props)
     = Done (SP.Enqueued
               (SP.mkPlan days (midnight (today - days + 1) (zoneOff now))
                          (lastNano today (zoneOff now)) false)
               (dayJobs (86400 * (today - days + 1) - zoneOff now) (Z.to_nat days)))).
Proof.
  intros Hlocal. split.
  - intros yearStr year Hlen Hyear Hr days first.
    split; [by apply dayJobs_midnights|].
    unfold SP.start. rewrite (sp_range_year _ _ _ _ _ Hlen Hyear Hr).
    cbn [SP.startDate SP.endDate SP.days SP.specificDate]. fold days.
    assert (Hdays : 365 ≤ days ≤ 366) by (unfold days; destruct (SP.isLeapYear year); lia).
    unfold SP.makeJobs. destruct (Z.ltb_spec days 0); [lia|].
    cbn [mbind run_bind mret run_ret].
    rewrite startOfDay_Date, endOfDay_Date, (year_length year) by lia.
    fold days first. rewrite enqueueJobs_days. unfold dayJobs.
    by replace (first + days - 1 - first + 1) with days by lia.
  - intros yearsStr years Hyears Hr days today.
    split; [by apply dayJobs_midnights|].
    unfold SP.start. rewrite (sp_range_years _ _ _ _ _ Hyears Hr).
    cbn [SP.startDate SP.endDate SP.days SP.specificDate]. fold days.
    unfold SP.makeJobs. destruct (Z.ltb_spec days 0); [unfold days in *; lia|].
    cbn [mbind run_bind mret run_ret].
    rewrite enqueueJobs_back by (unfold days; lia).
    rewrite startOfDay_AddDate, endOfDay_wall. fold today.
    by replace (today + (- days + 1)) with (today - days + 1) by lia.
Qed.

Lemma sp_year_arguments_witness :
  ∃ p jobs,
    SP.start nowUTC ["eduroam-sp"; "ku.ac.th"; "y2023"] (Some spProps)
    = Done (SP.Enqueued p jobs)
    ∧ SP.days p = 365 ∧ length jobs = 365%nat.
Proof.
  eexists _, _. split.
  - apply (proj1 (sp_year_arguments (λ _, 0) nowUTC "eduroam-sp" "ku.ac.th" spProps
                    (λ _, eq_refl)) "2023" 2023);
      [reflexivity|reflexivity|lia].
  - split; [reflexivity|]. unfold dayJobs. by rewrite length_map, length_seq.
Defined.

(** ** The reports *)

Section RealmReport.
Variable rt : Runtime.

Lemma rangeMap_keys {V} (m : gmap string V) :
  (rangeMap rt m).*1 ≡ₚ (map_to_list m).*1.
Proof. by rewrite (rangeMap_perm rt V m). Qed.

Lemma rangeMap_NoDup_keys {V} (m : gmap string V) : NoDup (rangeMap rt m).*1.
Proof. rewrite rangeMap_keys. apply NoDup_fst_map_to_list. Qed.

Lemma rangeMap_length {V} (m : gmap string V) : length (rangeMap rt m) = size m.
Proof. by rewrite (rangeMap_perm rt V m), length_map_to_list. Qed.

Lemma rangeSet_length (s : gset string) : length (rangeSet rt s) = size s.
Proof. by rewrite (rangeSet_perm rt s). Qed.

Lemma rangeSet_NoDup (s : gset string) : NoDup (rangeSet rt s).
Proof. rewrite (rangeSet_perm rt s). apply NoDup_elements. Qed.

Lemma rangeSet_elem (s : gset string) x : x ∈ rangeSet rt s ↔ x ∈ s.
Proof. by rewrite (rangeSet_perm rt s), elem_of_elements. Qed.

End RealmReport.

Lemma map_key_fst {V B} (f : string * V → B) (key : B → string) (l : list (string * V)) :
  (∀ kv, key (f kv) = kv.1) → map key (map f l) = l.*1.
Proof. intros H. rewrite map_map. apply map_ext. exact H. Qed.

(** X12. The realm report accounts for the whole [Result], whatever
    the run time: [user_stats] has one row for each user of the result
    and [provider_stats] one row for each provider, with no name
    twice; the two totals of the summary are the lengths of the two
    arrays; and a provider's [user_count] is the length of its [users]
    list, which holds each user of the provider once. *)
Theorem realm_report_accounts_for_result (rt : Runtime)
    (result : Realm.Result) (domain : string) (startDate endDate : Time) (days : Z) :
  let out := Realm.createOutputData rt result domain startDate endDate days in
  map Realm.StatUsername (Realm.OutUserStats out) ≡ₚ (map_to_list (Realm.Users result)).*1
  ∧ map Realm.Provider (Realm.OutProviderStats out)
    ≡ₚ (map_to_list (Realm.Providers result)).*1
  ∧ NoDup (map Realm.StatUsername (Realm.OutUserStats out))
  ∧ NoDup (map Realm.Provider (Realm.OutProviderStats out))
  ∧ Realm.SummaryTotalUsers out = len (Realm.OutUserStats out)
  ∧ Realm.SummaryTotalProviders out = len (Realm.OutProviderStats out)
  ∧ (∀ row, row ∈ Realm.OutProviderStats out →
       Realm.UserCount row = len (Realm.StatUsers row)
       ∧ NoDup (Realm.StatUsers row)
       ∧ ∃ stats, Realm.Providers result !! Realm.Provider row = Some stats
                  ∧ ∀ u, u ∈ Realm.StatUsers row ↔ u ∈ Realm.ProviderUsers stats).
Proof.
  intros out. unfold out, Realm.createOutputData. cbn [Realm.OutUserStats
    Realm.OutProviderStats Realm.SummaryTotalUsers Realm.SummaryTotalProviders].
  split_and!.
  - rewrite (sortSlice_perm rt), map_key_fst by (by intros [??]).
    apply rangeMap_keys.
  - rewrite (sortSlice_perm rt), map_key_fst by (by intros [??]).
    apply rangeMap_keys.
  - rewrite (sortSlice_perm rt), map_key_fst by (by intros [??]).
    apply rangeMap_NoDup_keys.
  - rewrite (sortSlice_perm rt), map_key_fst by (by intros [??]).
    apply rangeMap_NoDup_keys.
  - unfold len. by rewrite (sortSlice_perm rt), length_map, rangeMap_length.
  - unfold len. by rewrite (sortSlice_perm rt), length_map, rangeMap_length.
  - intros row Hrow. rewrite (sortSlice_perm rt) in Hrow.
    apply list_elem_of_fmap in Hrow as ([p st] & -> & Hin).
    rewrite (rangeMap_perm rt) in Hin. apply elem_of_map_to_list in Hin.
    cbn. split_and!; [done|apply rangeSet_NoDup|].
    exists st. split; [done|]. intros u. apply rangeSet_elem.
Qed.

(** ** What eduroam-sp records of the entry stream *)

(** The record of user [u] at station [s]. *)
Definition activityOf (r : SP.Result) (s u : string) : option SP.UserActivity :=
  SP.Stations r !! s ≫= λ st, SP.StationUsers st !! u.

(** The entries of user [u] at station [s], in stream order. *)
Definition entriesOf (entries : list SP.LogEntry) (s u : string) : list SP.LogEntry :=
  filter (λ e, SP.StationID e = s ∧ SP.Username e = u) entries.

(** What one more entry makes of a record. *)
Definition extend (acc : option SP.UserActivity) (e : SP.LogEntry)
  : option SP.UserActivity :=
  Some match acc with
       | Some a => SP.mkUserActivity (SP.ActivityUsername a) (SP.ActivityRealm a)
                     (SP.AuthTimestamps a ++ [SP.Timestamp e])
       | None => SP.mkUserActivity (SP.Username e) (SP.Realm e) [SP.Timestamp e]
       end.

Lemma recordEntry_activity r e s u :
  activityOf (SP.recordEntry r e) s u
  = if decide (SP.StationID e = s ∧ SP.Username e = u)
    then extend (activityOf r s u) e
    else activityOf r s u.
Proof.
  unfold activityOf, SP.recordEntry. cbn [SP.Stations].
  destruct (decide (SP.StationID e = s)) as [<-|Hs].
  - rewrite lookup_alter_eq.
    destruct (SP.Stations r !! SP.StationID e) as [st|] eqn:Hst.
    + rewrite Hst. cbn.
      destruct (decide (SP.Username e = u)) as [<-|Hu].
      * rewrite decide_True by done. rewrite lookup_alter_eq.
        destruct (SP.StationUsers st !! SP.Username e) as [a|] eqn:Ha.
        -- by rewrite Ha.
        -- by rewrite lookup_insert_eq.
      * rewrite decide_False by (intros [_ ?]; done).
        rewrite lookup_alter_ne by done.
        destruct (SP.StationUsers st !! SP.Username e);
          [done|by rewrite lookup_insert_ne].
    + rewrite lookup_insert_eq. cbn. rewrite lookup_empty.
      destruct (decide (SP.Username e = u)) as [<-|Hu].
      * rewrite decide_True by done. by rewrite lookup_alter_eq, lookup_insert_eq.
      * rewrite decide_False by (intros [_ ?]; done).
        rewrite lookup_alter_ne by done. by rewrite lookup_insert_ne, lookup_empty.
  - rewrite decide_False by (intros [? _]; done).
    rewrite lookup_alter_ne by done.
    destruct (SP.Stations r !! SP.StationID e); [done|by rewrite lookup_insert_ne].
Qed.

Lemma fold_recordEntry_activity entries r s u :
  activityOf (fold_left SP.recordEntry entries r) s u
  = fold_left extend (entriesOf entries s u) (activityOf r s u).
Proof.
  revert r. induction entries as [|e entries IH]; intros r; [done|].
  cbn [fold_left]. rewrite IH, recordEntry_activity. unfold entriesOf.
  rewrite filter_cons. by destruct (decide (SP.StationID e = s ∧ SP.Username e = u)).
Qed.

Lemma fold_extend_some es a :
  fold_left extend es (Some a)
  = Some (SP.mkUserActivity (SP.ActivityUsername a) (SP.ActivityRealm a)
            (SP.AuthTimestamps a ++ map SP.Timestamp es)).
Proof.
  revert a. induction es as [|e es IH]; intros a.
  - simpl. rewrite app_nil_r. by destruct a.
  - change (fold_left extend (e :: es) (Some a))
      with (fold_left extend es
              (Some (SP.mkUserActivity (SP.ActivityUsername a) (SP.ActivityRealm a)
                       (SP.AuthTimestamps a ++ [SP.Timestamp e])))).
    rewrite IH. cbn. by rewrite <- app_assoc.
Qed.

Lemma fold_extend_none es :
  fold_left extend es None
  = match es with
    | [] => None
    | e :: _ => Some (SP.mkUserActivity (SP.Username e) (SP.Realm e)
                        (map SP.Timestamp es))
    end.
Proof.
  destruct es as [|e es]; [done|].
  change (fold_left extend (e :: es) None)
    with (fold_left extend es
            (Some (SP.mkUserActivity (SP.Username e) (SP.Realm e) [SP.Timestamp e]))).
  by rewrite fold_extend_some.
Qed.

Lemma Before_total t1 t2 : notAfter Before t1 t2 ∨ notAfter Before t2 t1.
Proof.
  unfold notAfter, Before.
  destruct (Z.ltb_spec (nanos t1) (nanos t2)), (Z.ltb_spec (nanos t2) (nanos t1));
    auto; lia.
Qed.

Lemma Before_trans t1 t2 t3 :
  notAfter Before t1 t2 → notAfter Before t2 t3 → notAfter Before t1 t3.
Proof.
  unfold notAfter, Before. intros H1%Z.ltb_ge H2%Z.ltb_ge. apply Z.ltb_ge. lia.
Qed.

Lemma processResults_activity rt entries r s u :
  activityOf (SP.processResults rt entries r) s u
  = SP.sortActivity rt <$> activityOf (fold_left SP.recordEntry entries r) s u.
Proof.
  unfold SP.processResults, activityOf. cbn [SP.Stations]. rewrite lookup_fmap.
  destruct (SP.Stations (fold_left SP.recordEntry entries r) !! s) as [st|]; [|done].
  cbn. by rewrite lookup_fmap.
Qed.

(** X13. What eduroam-sp keeps of a user at a station, whatever the
    run time: a record exists exactly when the stream has an entry of
    that user at that station; its time stamps are those of these
    entries, each as often as it came, in ascending order; and its
    realm is the realm of the first of them, whatever realm the later
    ones carry. *)
Theorem sp_activity_is_sorted_stream (rt : Runtime)
    (entries : list SP.LogEntry) (s u : string) :
  match activityOf (SP.processResults rt entries (SP.mkResult ∅ ∅)) s u with
  | Some a =>
      SP.AuthTimestamps a ≡ₚ map SP.Timestamp (entriesOf entries s u)
      ∧ StronglySorted (λ t1 t2, nanos t1 ≤ nanos t2) (SP.AuthTimestamps a)
      ∧ head (map SP.Realm (entriesOf entries s u)) = Some (SP.ActivityRealm a)
      ∧ SP.ActivityUsername a = u
  | None => entriesOf entries s u = []
  end.
Proof.
  rewrite processResults_activity, fold_recordEntry_activity.
  assert (Hnone : activityOf (SP.mkResult ∅ ∅) s u = None).
  { unfold activityOf. cbn [SP.Stations]. by rewrite lookup_empty. }
  rewrite Hnone, fold_extend_none.
  destruct (entriesOf entries s u) as [|e es] eqn:Hes; [done|].
  cbn. split_and!.
  - by rewrite (sortSlice_perm rt).
  - eapply StronglySorted_weaken; [|apply (sortSlice_sorted rt)].
    + intros t1 t2 H. unfold notAfter, Before in H. apply Z.ltb_ge in H. exact H.
    + apply Before_total.
    + apply Before_trans.
  - done.
  - assert (He : e ∈ entriesOf entries s u) by (rewrite Hes; left).
    unfold entriesOf in He. apply list_elem_of_filter in He as [[_ Hu] _]. done.
Qed.

(** *** Counting authentications *)

Definition sumOf {A} (f : A → Z) (l : list A) : Z := foldr (λ x acc, f x + acc) 0 l.

Lemma sumOf_perm {A} (f : A → Z) l l' : l ≡ₚ l' → sumOf f l = sumOf f l'.
Proof. induction 1; simpl; lia. Qed.

Lemma sumOf_map {A B} (f : B → Z) (g : A → B) l : sumOf f (map g l) = sumOf (f ∘ g) l.
Proof. induction l as [|x l IH]; [done|]. simpl. by rewrite IH. Qed.

Lemma sumOf_ext {A} (f g : A → Z) l : (∀ x, f x = g x) → sumOf f l = sumOf g l.
Proof. intros H. induction l as [|x l IH]; [done|]. simpl. by rewrite IH, H. Qed.

Lemma sumOf_nonneg {A} (f : A → Z) l : Forall (λ x, 0 ≤ f x) l → 0 ≤ sumOf f l.
Proof. induction 1; simpl; lia. Qed.

(** The sum of a count [T] over the values of a map. *)
Definition total {V} (T : V → Z) (m : gmap string V) : Z :=
  sumOf (λ kv, T kv.2) (map_to_list m).

Definition counted {V} (T : V → Z) (m : gmap string V) : Prop :=
  ∀ k v, m !! k = Some v → 0 ≤ T v.

Lemma total_empty {V} (T : V → Z) : total T (∅ : gmap string V) = 0.
Proof. unfold total. by rewrite map_to_list_empty. Qed.

Lemma total_insert {V} (T : V → Z) (m : gmap string V) k v :
  m !! k = None → total T (<[k := v]> m) = T v + total T m.
Proof. intros Hk. unfold total. by rewrite (sumOf_perm _ _ _ (map_to_list_insert m k v Hk)). Qed.

Lemma total_delete {V} (T : V → Z) (m : gmap string V) k v :
  m !! k = Some v → total T m = T v + total T (delete k m).
Proof.
  intros Hk. unfold total.
  by rewrite <- (sumOf_perm _ _ _ (map_to_list_delete m k v Hk)).
Qed.

Lemma counted_total_nonneg {V} (T : V → Z) (m : gmap string V) :
  counted T m → 0 ≤ total T m.
Proof.
  intros Hm. apply sumOf_nonneg, Forall_forall. intros [k v] Hkv.
  apply elem_of_map_to_list in Hkv. by apply (Hm k).
Qed.

Lemma counted_delete {V} (T : V → Z) (m : gmap string V) k :
  counted T m → counted T (delete k m).
Proof. intros Hm k' v Hk'. apply lookup_delete_Some in Hk' as [_ Hk']. by apply (Hm k'). Qed.

(** The step of [processResults] on one map: the record of [k] is made
    if it is missing, then changed by [g]. *)
Definition upsert {V} (fresh : V) (g : V → V) (k : string) (m : gmap string V)
  : gmap string V :=
  alter g k (match m !! k with Some _ => m | None => <[k := fresh]> m end).

Lemma upsert_insert {V} (fresh : V) (g : V → V) k (m : gmap string V) :
  upsert fresh g k m = <[k := g (default fresh (m !! k))]> (delete k m).
Proof.
  unfold upsert. apply map_eq. intros k'.
  destruct (decide (k' = k)) as [->|Hne].
  - rewrite lookup_alter_eq, lookup_insert_eq.
    destruct (m !! k) as [v|] eqn:Hk; [by rewrite Hk|by rewrite lookup_insert_eq].
  - rewrite lookup_alter_ne, lookup_insert_ne, lookup_delete_ne by done.
    destruct (m !! k); [done|by rewrite lookup_insert_ne].
Qed.

(** A count that the step raises by one stays exact below 2^63. *)
Lemma upsert_counts {V} (T : V → Z) (fresh : V) (g : V → V) k (m : gmap string V) :
  counted T m → T fresh = 0 → (∀ v, T (g v) = wrap64 (T v + 1)) →
  total T m + 1 < 2 ^ 63 →
  counted T (upsert fresh g k m) ∧ total T (upsert fresh g k m) = total T m + 1.
Proof.
  intros Hm Hfresh Hg Hbound. rewrite upsert_insert.
  pose proof (counted_total_nonneg T _ (counted_delete T m k Hm)) as Hrest.
  assert (Hold : total T m = T (default fresh (m !! k)) + total T (delete k m)
                 ∧ 0 ≤ T (default fresh (m !! k))).
  { destruct (m !! k) as [v|] eqn:Hk; cbn.
    - split; [by apply total_delete|by apply (Hm k)].
    - rewrite Hfresh, delete_id by done. lia. }
  destruct Hold as [Hold Hnn].
  assert (Hnew : T (g (default fresh (m !! k))) = T (default fresh (m !! k)) + 1).
  { rewrite Hg. apply wrap64_small. lia. }
  split.
  - intros k' v Hk'. apply lookup_insert_Some in Hk' as [[_ <-]|[_ Hk']].
    + lia.
    + by apply (counted_delete T m k Hm k').
  - rewrite total_insert by apply lookup_delete_eq. lia.
Qed.

Definition stationAuths (r : SP.Result) : Z := total SP.StationTotalAuths (SP.Stations r).
Definition realmAuths (r : SP.Result) : Z := total SP.RealmTotalAuths (SP.Realms r).

Lemma recordEntry_upsert r e :
  SP.recordEntry r e
  = SP.mkResult
      (upsert (SP.mkStationStats (SP.StationID e) 0 ∅)
         (λ station,
            SP.mkStationStats (SP.StationStatsID station)
              (wrap64 (SP.StationTotalAuths station + 1))
              (upsert (SP.mkUserActivity (SP.Username e) (SP.Realm e) [])
                 (λ activity,
                    SP.mkUserActivity (SP.ActivityUsername activity)
                      (SP.ActivityRealm activity)
                      (SP.AuthTimestamps activity ++ [SP.Timestamp e]))
                 (SP.Username e) (SP.StationUsers station)))
         (SP.StationID e) (SP.Stations r))
      (upsert (SP.mkRealmStats (SP.Realm e) ∅ ∅ 0)
         (λ realm,
            SP.mkRealmStats (SP.RealmStatsRealm realm)
              ({[SP.Username e]} ∪ SP.RealmUsers realm)
              ({[SP.StationID e]} ∪ SP.RealmStations realm)
              (wrap64 (SP.RealmTotalAuths realm + 1)))
         (SP.Realm e) (SP.Realms r)).
Proof. reflexivity. Qed.

Lemma fold_recordEntry_counts entries r :
  counted SP.StationTotalAuths (SP.Stations r) →
  counted SP.RealmTotalAuths (SP.Realms r) →
  stationAuths r + len entries < 2 ^ 63 →
  realmAuths r + len entries < 2 ^ 63 →
  let r' := fold_left SP.recordEntry entries r in
  counted SP.StationTotalAuths (SP.Stations r')
  ∧ counted SP.RealmTotalAuths (SP.Realms r')
  ∧ stationAuths r' = stationAuths r + len entries
  ∧ realmAuths r' = realmAuths r + len entries.
Proof.
  revert r. induction entries as [|e entries IH]; intros r Hs Hr Hbs Hbr.
  - cbn. unfold len. simpl. split_and!; [done|done|lia|lia].
  - assert (Hlen : len (e :: entries) = len entries + 1)
      by (unfold len; simpl; lia).
    assert (0 ≤ len entries) by (unfold len; lia).
    rewrite Hlen in *. cbn [fold_left]. cbv zeta.
    destruct (upsert_counts SP.StationTotalAuths
                (SP.mkStationStats (SP.StationID e) 0 ∅)
                (λ station,
                   SP.mkStationStats (SP.StationStatsID station)
                     (wrap64 (SP.StationTotalAuths station + 1))
                     (upsert (SP.mkUserActivity (SP.Username e) (SP.Realm e) [])
                        (λ activity,
                           SP.mkUserActivity (SP.ActivityUsername activity)
                             (SP.ActivityRealm activity)
                             (SP.AuthTimestamps activity ++ [SP.Timestamp e]))
                        (SP.Username e) (SP.StationUsers station)))
                (SP.StationID e) (SP.Stations r) Hs eq_refl (λ _, eq_refl))
      as [Hs' Hts]; [unfold stationAuths in Hbs; lia|].
    destruct (upsert_counts SP.RealmTotalAuths
                (SP.mkRealmStats (SP.Realm e) ∅ ∅ 0)
                (λ realm,
                   SP.mkRealmStats (SP.RealmStatsRealm realm)
                     ({[SP.Username e]} ∪ SP.RealmUsers realm)
                     ({[SP.StationID e]} ∪ SP.RealmStations realm)
                     (wrap64 (SP.RealmTotalAuths realm + 1)))
                (SP.Realm e) (SP.Realms r) Hr eq_refl (λ _, eq_refl))
      as [Hr' Htr]; [unfold realmAuths in Hbr; lia|].
    destruct (IH (SP.recordEntry r e)) as (H1 & H2 & H3 & H4).
    + rewrite recordEntry_upsert. exact Hs'.
    + rewrite recordEntry_upsert. exact Hr'.
    + rewrite recordEntry_upsert. unfold stationAuths in *. cbn [SP.Stations].
      rewrite Hts. lia.
    + rewrite recordEntry_upsert. unfold realmAuths in *. cbn [SP.Realms].
      rewrite Htr. lia.
    + split_and!; [done|done|..].
      * rewrite H3, recordEntry_upsert. unfold stationAuths. cbn [SP.Stations].
        rewrite Hts. lia.
      * rewrite H4, recordEntry_upsert. unfold realmAuths. cbn [SP.Realms].
        rewrite Htr. lia.
Qed.

Lemma total_fmap {V W} (T : W → Z) (f : V → W) (m : gmap string V) :
  total T (f <$> m) = total (T ∘ f) m.
Proof.
  unfold total. rewrite map_to_list_fmap.
  change (prod_map id f <$> map_to_list m) with (map (prod_map id f) (map_to_list m)).
  rewrite sumOf_map. apply sumOf_ext. by intros [k v].
Qed.

Lemma counted_fmap {V W} (T : W → Z) (f : V → W) (m : gmap string V) :
  counted (T ∘ f) m → counted T (f <$> m).
Proof.
  intros Hm k w Hk. rewrite lookup_fmap in Hk.
  destruct (m !! k) as [v|] eqn:Hv; [|done]. injection Hk as <-. by apply (Hm k v).
Qed.

Section SPTotals.
Variable rt : Runtime.
Variables UsagePattern SessionAnalysis PotentialIssue : Type.
Variable analyzeUsagePatterns : list Time → option UsagePattern.
Variable analyzeSessionPatterns : list Time → option SessionAnalysis.
Variable analyzePotentialIssues : UsagePattern → list PotentialIssue.

Lemma addUserDetail_keeps_counts users stationStat :
  let out := fold_left (SP.addUserDetail rt _ _ _ analyzeUsagePatterns analyzeSessionPatterns
                         analyzePotentialIssues) users stationStat in
  SP.OutTotalAuths _ _ _ out = SP.OutTotalAuths _ _ _ stationStat
  ∧ SP.OutStationID _ _ _ out = SP.OutStationID _ _ _ stationStat
  ∧ SP.OutTotalUsers _ _ _ out = SP.OutTotalUsers _ _ _ stationStat.
Proof.
  revert stationStat. induction users as [|[u a] users IH]; intros stationStat; [done|].
  cbn [fold_left]. cbv zeta. destruct (IH (SP.addUserDetail rt _ _ _ analyzeUsagePatterns analyzeSessionPatterns
                  analyzePotentialIssues stationStat (u, a))) as (-> & -> & ->).
  unfold SP.addUserDetail. by destruct (analyzeUsagePatterns (SP.AuthTimestamps a)).
Qed.

Lemma stationOutput_total item :
  SP.OutTotalAuths _ _ _
    (SP.stationOutput rt _ _ _ analyzeUsagePatterns analyzeSessionPatterns
       analyzePotentialIssues item)
  = SP.StationTotalAuths item.2.
Proof.
  destruct item as [stationID stats]. unfold SP.stationOutput. cbn [SP.OutTotalAuths].
  by destruct (addUserDetail_keeps_counts (rangeMap rt (SP.StationUsers stats))
                 (SP.mkStationStatsOutput _ _ _ stationID (SP.StationTotalAuths stats)
                    (Z.of_nat (size (SP.StationUsers stats))) None None [] []))
    as (-> & _).
Qed.

Lemma summary_fold (l : list (string * SP.StationStats)) (uniqueUsers : gset string) acc :
  Forall (λ kv, 0 ≤ SP.StationTotalAuths kv.2) l →
  0 ≤ acc → acc + sumOf (λ kv, SP.StationTotalAuths kv.2) l < 2 ^ 63 →
  (fold_left (λ '(uniqueUsers, totalAuths) '(_, stats),
                (dom (SP.StationUsers stats) ∪ uniqueUsers,
                 wrap64 (totalAuths + SP.StationTotalAuths stats)))
             l (uniqueUsers, acc)).2
  = acc + sumOf (λ kv, SP.StationTotalAuths kv.2) l.
Proof.
  intros Hl. revert uniqueUsers acc.
  induction Hl as [|[k st] l Hst Hl IH]; intros uniqueUsers acc Hacc Hbound.
  - simpl. lia.
  - cbn [fold_left sumOf foldr] in *. cbn [snd] in *.
    pose proof (sumOf_nonneg _ _ Hl) as Hrest. unfold sumOf in Hrest.
    rewrite IH.
    + rewrite wrap64_small by lia. unfold sumOf. lia.
    + rewrite wrap64_small by lia. lia.
    + rewrite wrap64_small by lia. unfold sumOf. lia.
Qed.

(** X14. eduroam-sp loses no authentication in its counts: for a
    stream of at most 2^63 - 1 entries, the [total_authentications] of
    the summary, the sum of the stations' [total_auths] and the sum of
    the realms' [total_auths] are each the number of entries received,
    whatever the run time and the pattern analysis. *)
Theorem sp_counts_add_up_to_entries entries serviceProvider startDate endDate days :
  len entries ≤ maxInt64 →
  let out := SP.createOutputData rt _ _ _ analyzeUsagePatterns analyzeSessionPatterns
               analyzePotentialIssues (SP.processResults rt entries (SP.mkResult ∅ ∅))
               serviceProvider startDate endDate days in
  SP.SummaryTotalAuths _ _ _ out = len entries
  ∧ sumOf (SP.OutTotalAuths _ _ _) (SP.OutStationStats _ _ _ out) = len entries
  ∧ sumOf SP.StatTotalAuths (SP.OutRealmStats _ _ _ out) = len entries.
Proof.
  intros Hmax out. unfold maxInt64 in Hmax.
  destruct (fold_recordEntry_counts entries (SP.mkResult ∅ ∅))
    as (Hcs & Hcr & Hts & Htr).
  { intros k v Hk. cbn in Hk. by rewrite lookup_empty in Hk. }
  { intros k v Hk. cbn in Hk. by rewrite lookup_empty in Hk. }
  { unfold stationAuths. cbn [SP.Stations]. rewrite total_empty. lia. }
  { unfold realmAuths. cbn [SP.Realms]. rewrite total_empty. lia. }
  cbv zeta in Hcs, Hcr, Hts, Htr.
  unfold stationAuths in Hts. unfold realmAuths in Htr.
  cbn [SP.Stations SP.Realms] in Hts, Htr.
  rewrite total_empty, Z.add_0_l in Hts. rewrite total_empty, Z.add_0_l in Htr.
  set (folded := fold_left SP.recordEntry entries (SP.mkResult ∅ ∅)) in *.
  set (result := SP.processResults rt entries (SP.mkResult ∅ ∅)) in *.
  assert (Hstations : SP.Stations result = SP.sortStation rt <$> SP.Stations folded)
    by reflexivity.
  assert (Hrealms : SP.Realms result = SP.Realms folded) by reflexivity.
  assert (Htotal : sumOf (λ kv, SP.StationTotalAuths kv.2)
                     (rangeMap rt (SP.Stations result)) = len entries).
  { rewrite (sumOf_perm _ _ _ (rangeMap_perm rt _ _)). fold (total SP.StationTotalAuths (SP.Stations result)).
    rewrite Hstations, total_fmap. unfold total in *. rewrite <- Hts.
    apply sumOf_ext. by intros [k v]. }
  assert (Hnonneg : Forall (λ kv, 0 ≤ SP.StationTotalAuths kv.2)
                      (rangeMap rt (SP.Stations result))).
  { rewrite (rangeMap_perm rt). apply Forall_forall. intros [k v] Hkv.
    apply elem_of_map_to_list in Hkv. rewrite Hstations, lookup_fmap in Hkv.
    destruct (SP.Stations folded !! k) as [v0|] eqn:Hv0; [|done].
    injection Hkv as <-. cbn. by apply (Hcs k). }
  split_and!.
  - unfold out, SP.createOutputData.
    pose proof (summary_fold (rangeMap rt (SP.Stations result)) ∅ 0 Hnonneg
                  ltac:(lia) ltac:(rewrite Htotal; lia)) as Hsum.
    destruct (fold_left _ (rangeMap rt (SP.Stations result)) (∅, 0))
      as [uniqueUsers totalAuths].
    cbn [SP.SummaryTotalAuths]. cbn [snd] in Hsum. rewrite Hsum, Htotal. lia.
  - unfold out, SP.createOutputData.
    destruct (fold_left _ (rangeMap rt (SP.Stations result)) (∅, 0))
      as [uniqueUsers totalAuths].
    cbn [SP.OutStationStats].
    rewrite (sumOf_perm _ _ _ (sortSlice_perm rt _ _ _)), sumOf_map.
    rewrite <- Htotal. apply sumOf_ext. intros item. apply stationOutput_total.
  - unfold out, SP.createOutputData.
    destruct (fold_left _ (rangeMap rt (SP.Stations result)) (∅, 0))
      as [uniqueUsers totalAuths].
    cbn [SP.OutRealmStats].
    rewrite (sumOf_perm _ _ _ (sortSlice_perm rt _ _ _)), sumOf_map.
    rewrite (sumOf_perm _ _ _ (rangeMap_perm rt _ _)), Hrealms.
    unfold total in Htr. rewrite <- Htr. apply sumOf_ext. by intros [k v].
Qed.

End SPTotals.

Lemma sp_counts_add_up_to_entries_witness :
  SP.SummaryTotalAuths _ _ _ stationReport = 5
  ∧ map (SP.OutTotalAuths _ _ _) (SP.OutStationStats _ _ _ stationReport) = [3; 2].
Proof.
  split; [|vm_compute; reflexivity].
  apply (sp_counts_add_up_to_entries refRuntime unit unit unit
           (λ _, None) (λ _, None) (λ _, []) stationEntries).
  vm_compute. discriminate.
Defined.

(** *** The pattern analysis of a station *)

Section StationAnalysis.
Variable rt : Runtime.
Variables UsagePattern SessionAnalysis PotentialIssue : Type.
Variable analyzeUsagePatterns : list Time → option UsagePattern.
Variable analyzeSessionPatterns : list Time → option SessionAnalysis.
Variable analyzePotentialIssues : UsagePattern → list PotentialIssue.

(** The users of a station whose time stamps [analyzeUsagePatterns]
    returns a pattern for, each with that pattern, in the order of the
    loop. *)
Definition analysed (users : list (string * SP.UserActivity))
  : list (SP.UserActivity * UsagePattern) :=
  omap (λ kv, (λ p, (kv.2, p)) <$> analyzeUsagePatterns (SP.AuthTimestamps kv.2)) users.

(** The three analysis fields of a station row. *)
Definition analysisOf (row : SP.StationStatsOutput UsagePattern SessionAnalysis PotentialIssue)
  : option UsagePattern * option SessionAnalysis * list PotentialIssue :=
  (SP.OutUsagePatterns _ _ _ row, SP.OutSessionAnalysis _ _ _ row,
   SP.OutPotentialIssues _ _ _ row).

Lemma analysed_snoc users u a :
  analysed (users ++ [(u, a)])
  = analysed users ++ match analyzeUsagePatterns (SP.AuthTimestamps a) with
                      | Some p => [(a, p)]
                      | None => []
                      end.
Proof.
  unfold analysed. rewrite omap_app. f_equal. cbn.
  by destruct (analyzeUsagePatterns (SP.AuthTimestamps a)).
Qed.

Lemma fold_addUserDetail users row :
  let out := fold_left (SP.addUserDetail rt _ _ _ analyzeUsagePatterns
                          analyzeSessionPatterns analyzePotentialIssues) users row in
  analysisOf out
  = match last (analysed users) with
    | Some (a, p) =>
        (Some p, analyzeSessionPatterns (sortSlice rt Before (SP.AuthTimestamps a)),
         analyzePotentialIssues p)
    | None => analysisOf row
    end
  ∧ SP.OutUserDetails _ _ _ out
    = SP.OutUserDetails _ _ _ row
      ++ map (λ kv, SP.mkUserDetail kv.1 (SP.ActivityRealm kv.2)
                      (map FormatRFC3339 (SP.AuthTimestamps kv.2))) users.
Proof.
  induction users as [|[u a] users IH] using rev_ind.
  - cbn. by rewrite app_nil_r.
  - cbv zeta in *. rewrite fold_left_app. cbn [fold_left].
    destruct IH as [IHa IHd]. rewrite analysed_snoc, map_app.
    unfold SP.addUserDetail at 1 3.
    destruct (analyzeUsagePatterns (SP.AuthTimestamps a)) as [p|] eqn:Hp.
    + rewrite last_snoc. split; [done|].
      cbn [SP.OutUserDetails]. by rewrite IHd, <- app_assoc.
    + rewrite app_nil_r. split.
      * rewrite <- IHa. done.
      * cbn [SP.OutUserDetails]. by rewrite IHd, <- app_assoc.
Qed.

End StationAnalysis.

(** X15. The analysis fields of a station row come from one user only.
    The loop over the station's users overwrites [usage_patterns],
    [session_analysis] and [potential_issues] at every user with time
    stamps to analyse, so the row keeps those of the last such user the
    map range visits; [user_details] has a row for every user. *)
Theorem station_analysis_is_of_last_user (rt : Runtime)
    (UsagePattern SessionAnalysis PotentialIssue : Type)
    (analyzeUsagePatterns : list Time → option UsagePattern)
    (analyzeSessionPatterns : list Time → option SessionAnalysis)
    (analyzePotentialIssues : UsagePattern → list PotentialIssue)
    (stationID : string) (stats : SP.StationStats) :
  let row := SP.stationOutput rt _ _ _ analyzeUsagePatterns analyzeSessionPatterns
               analyzePotentialIssues (stationID, stats) in
  let users := rangeMap rt (SP.StationUsers stats) in
  analysisOf _ _ _ row
  = match last (analysed _ analyzeUsagePatterns users) with
    | Some (a, p) =>
        (Some p, analyzeSessionPatterns (sortSlice rt Before (SP.AuthTimestamps a)),
         analyzePotentialIssues p)
    | None => (None, None, [])
    end
  ∧ map SP.DetailUsername (SP.OutUserDetails _ _ _ row)
    ≡ₚ (map_to_list (SP.StationUsers stats)).*1.
Proof.
  intros row users. unfold row, SP.stationOutput.
  destruct (fold_addUserDetail rt _ _ _ analyzeUsagePatterns analyzeSessionPatterns
              analyzePotentialIssues users
              (SP.mkStationStatsOutput _ _ _ stationID (SP.StationTotalAuths stats)
                 (Z.of_nat (size (SP.StationUsers stats))) None None [] []))
    as [Ha Hd].
  cbv zeta in Ha, Hd. fold users. split.
  - unfold analysisOf in *. cbn [SP.OutUsagePatterns SP.OutSessionAnalysis
      SP.OutPotentialIssues]. exact Ha.
  - cbn [SP.OutUserDetails]. rewrite (sortSlice_perm rt), Hd.
    cbn [app SP.OutUserDetails]. rewrite map_map. unfold users.
    rewrite <- (rangeMap_keys rt (SP.StationUsers stats)). done.
Qed.

(** ** agg-uid: the query windows *)

(** The [k]-th window of the seconds from [s] up to [e]. *)
Definition windowOf (s e : Z) (k : nat) : Z * Z :=
  (s + AggUid.window * Z.of_nat k, Z.min (s + AggUid.window * Z.of_nat (S k)) e).

Lemma windowOf_shift s e k :
  windowOf s e (S k) = windowOf (s + AggUid.window) e k.
Proof. unfold windowOf. f_equal; lia. Qed.

Lemma rangesLoop_windows (n rounds : nat) (s e : Z) :
  - 2 ^ 62 ≤ s → e < 2 ^ 62 →
  e - s ≤ AggUid.window * Z.of_nat n →
  (n ≠ 0%nat → AggUid.window * (Z.of_nat n - 1) < e - s) →
  (n ≤ rounds)%nat →
  AggUid.rangesLoop rounds s e = Some (map (windowOf s e) (seq 0 n)).
Proof.
  revert rounds s. induction n as [|n IH]; intros rounds s Hs He Hup Hlow Hr.
  - destruct rounds; cbn [AggUid.rangesLoop];
      by destruct (Z.ltb_spec s e); [lia|].
  - destruct rounds as [|rounds]; [lia|]. cbn [AggUid.rangesLoop].
    specialize (Hlow ltac:(done)). unfold AggUid.window in *.
    destruct (Z.ltb_spec s e); [|lia]. cbv zeta.
    rewrite wrap64_small by lia.
    rewrite (IH rounds (s + 30 * 24 * 60 * 60)) by lia.
    cbn [fmap option_fmap option_map seq map]. f_equal. f_equal.
    + unfold windowOf, AggUid.window. f_equal; [lia|].
      destruct (Z.ltb_spec e (s + 30 * 24 * 60 * 60)); lia.
    + rewrite <- seq_shift, map_map. apply map_ext. intros k.
      by rewrite windowOf_shift.
Qed.

Lemma windows_partition (s e : Z) (n : nat) :
  e - s ≤ AggUid.window * Z.of_nat n →
  (n ≠ 0%nat → AggUid.window * (Z.of_nat n - 1) < e - s) →
  partitions (map (λ r, mkJob r.1 r.2) (map (windowOf s e) (seq 0 n))) s e.
Proof.
  intros Hup Hlow. rewrite map_map. unfold AggUid.window in *.
  assert (Hw : ∀ k, (k < n)%nat →
    s + 2592000 * Z.of_nat k < Z.min (s + 2592000 * Z.of_nat (S k)) e).
  { intros k Hk. specialize (Hlow ltac:(lia)). lia. }
  split; [|split].
  - apply Forall_forall. intros j Hj.
    apply list_elem_of_fmap in Hj as (k & -> & Hk). apply elem_of_seq in Hk.
    unfold windowOf, AggUid.window. cbn. apply Hw. lia.
  - intros i k ji jk t Hne Hi Hk [Hci Hck].
    rewrite list_lookup_fmap in Hi, Hk.
    destruct (seq 0 n !! i) as [i'|] eqn:Ei; [|done].
    destruct (seq 0 n !! k) as [k'|] eqn:Ek; [|done].
    apply lookup_seq in Ei as [-> Hin]. apply lookup_seq in Ek as [-> Hkn].
    cbn in Hi, Hk. injection Hi as <-. injection Hk as <-.
    unfold covers, windowOf, AggUid.window in Hci, Hck. cbn in Hci, Hck. lia.
  - intros t. split.
    + intros (j & Hj & Hc).
      apply list_elem_of_fmap in Hj as (k & -> & Hk). apply elem_of_seq in Hk.
      unfold covers, windowOf, AggUid.window in Hc. cbn in Hc. lia.
    + intros Ht.
      pose proof (Z.div_mod (t - s) 2592000 ltac:(lia)) as Hdm.
      pose proof (Z.mod_pos_bound (t - s) 2592000 ltac:(lia)) as Hm.
      assert (Hq : 0 ≤ (t - s) `div` 2592000 < Z.of_nat n) by lia.
      exists (mkJob (windowOf s e (Z.to_nat ((t - s) `div` 2592000))).1
                    (windowOf s e (Z.to_nat ((t - s) `div` 2592000))).2). split.
      * apply list_elem_of_fmap. eexists. split; [reflexivity|].
        apply elem_of_seq. lia.
      * unfold covers, windowOf, AggUid.window. cbn. lia.
Qed.

(** X16. The windows agg-uid queries tile the period asked for: for a
    clock before the year 2^62 seconds and up to 10^13 days,
    [getTimestampRanges] returns one window for every 30 days begun, of
    30 days each but for the last, and every second from
    [now - totalDays] days up to, not including, [now] is in exactly one
    of them.  With zero or a negative number of days there is no window,
    hence no query. *)
Theorem timestamp_ranges_tile_the_period (now : Time) (totalDays : Z) :
  0 ≤ Unix now < 2 ^ 62 → - 10 ^ 13 ≤ totalDays ≤ 10 ^ 13 →
  ∃ ranges,
    AggUid.getTimestampRanges now totalDays = Some ranges
    ∧ len ranges = Z.max 0 ((totalDays + 29) / 30)
    ∧ partitions (map (λ r, mkJob r.1 r.2) ranges)
                 (Unix now - 86400 * totalDays) (Unix now)
    ∧ (∀ k r, ranges !! k = Some r →
         r.2 - r.1 ≤ AggUid.window
         ∧ ((S k < length ranges)%nat → r.2 - r.1 = AggUid.window)).
Proof.
  intros Hnow Hdays. unfold AggUid.getTimestampRanges. cbv zeta.
  rewrite (wrap64_small (totalDays * 24 * 60 * 60)) by lia.
  rewrite wrap64_small by lia.
  set (e := Unix now) in *. set (s := e - totalDays * 24 * 60 * 60).
  set (n := Z.to_nat (Z.max 0 ((totalDays + 29) / 30))).
  assert (Hn : Z.of_nat n = Z.max 0 ((totalDays + 29) / 30)) by lia.
  pose proof (Z.div_mod (totalDays + 29) 30 ltac:(lia)) as Hdm.
  pose proof (Z.mod_pos_bound (totalDays + 29) 30 ltac:(lia)) as Hm.
  assert (Hup : e - s ≤ AggUid.window * Z.of_nat n).
  { unfold AggUid.window, s. rewrite Hn. lia. }
  assert (Hlow : n ≠ 0%nat → AggUid.window * (Z.of_nat n - 1) < e - s).
  { unfold AggUid.window, s. rewrite Hn. lia. }
  exists (map (windowOf s e) (seq 0 n)). split_and!.
  - apply rangesLoop_windows; [unfold s; lia..|done|done|].
    unfold AggUid.window in *.
    destruct (decide (n = 0%nat)) as [Hn0|Hn0]; [lia|].
    specialize (Hlow Hn0).
    assert (Z.of_nat n - 1 ≤ (e - s) `div` (30 * 24 * 60 * 60)); [|lia].
    apply Z.div_le_lower_bound; lia.
  - unfold len. by rewrite length_map, length_seq.
  - replace (e - 86400 * totalDays) with s by (unfold s; lia).
    by apply windows_partition.
  - intros k r Hr. rewrite list_lookup_fmap in Hr.
    destruct (seq 0 n !! k) as [k'|] eqn:Ek; [|done].
    apply lookup_seq in Ek as [-> Hk]. cbn in Hr. injection Hr as <-.
    rewrite length_map, length_seq. unfold windowOf, AggUid.window in *. cbn.
    split; [lia|]. intros Hlast. lia.
Qed.

Lemma timestamp_ranges_tile_the_period_witness :
  AggUid.getTimestampRanges nowUTC 45
  = Some [(1726574400, 1729166400); (1729166400, 1730462400)]
  ∧ ∃ ranges,
      AggUid.getTimestampRanges nowUTC 45 = Some ranges
      ∧ len ranges = Z.max 0 ((45 + 29) / 30)
      ∧ partitions (map (λ r, mkJob r.1 r.2) ranges)
                   (Unix nowUTC - 86400 * 45) (Unix nowUTC)
      ∧ (∀ k r, ranges !! k = Some r →
           r.2 - r.1 ≤ AggUid.window
           ∧ ((S k < length ranges)%nat → r.2 - r.1 = AggUid.window)).
Proof.
  split; [vm_compute; reflexivity|].
  apply (timestamp_ranges_tile_the_period nowUTC 45).
  - vm_compute. split; [discriminate|reflexivity].
  - lia.
Defined.

(** ** The realm and provider names *)

Lemma HasPrefix_append p s : HasPrefix (p +:+ s) p = true.
Proof.
  induction p as [|c p IH]; [by destruct s|].
  change (HasPrefix (String c (p +:+ s)) (String c p) = true).
  cbn [HasPrefix]. by rewrite Ascii.eqb_refl.
Qed.

Lemma getDomain_prefixed input :
  HasPrefix ("eduroam." +:+ input) "eduroam." = true.
Proof. apply HasPrefix_append. Qed.

Lemma prefixed_longer input : "eduroam." +:+ input ≠ input.
Proof.
  intros H. apply (f_equal String.length) in H.
  rewrite length_append in H. cbn in H. lia.
Qed.

(** X17. eduroam-sp leaves a name that already starts with [eduroam.]
    as it is, so its [getDomain] applied twice gives what it gives
    once, except on the two short names [etlr1] and [etlr2];
    eduroam-accept prefixes every other name again, and the two tools
    give the same name exactly for the inputs that are [etlr1], [etlr2]
    or do not start with [eduroam.]. *)
Theorem getDomain_of_qualified_name (input : string) :
  (input ≠ "etlr1" → input ≠ "etlr2" →
   HasPrefix (SP.getDomain input) "eduroam." = true
   ∧ SP.getDomain (SP.getDomain input) = SP.getDomain input)
  ∧ (Realm.getDomain input = SP.getDomain input
     ↔ input = "etlr1" ∨ input = "etlr2" ∨ HasPrefix input "eduroam." = false).
Proof.
  unfold SP.getDomain, Realm.getDomain.
  destruct (String.eqb_spec input "etlr1") as [->|H1].
  { split; [done|]. split; [by left|done]. }
  destruct (String.eqb_spec input "etlr2") as [->|H2].
  { split; [done|]. split; [by right; left|done]. }
  destruct (HasPrefix input "eduroam.") eqn:Hp.
  - split.
    + intros _ _. split; [done|].
      destruct (String.eqb_spec input "etlr1"); [done|].
      destruct (String.eqb_spec input "etlr2"); [done|].
      by rewrite Hp.
    + split; [intros H; by apply prefixed_longer in H|].
      intros [?|[?|?]]; done.
  - split.
    + intros _ _. split; [apply getDomain_prefixed|].
      change (String.eqb ("eduroam." +:+ input) "etlr1") with false.
      change (String.eqb ("eduroam." +:+ input) "etlr2") with false.
      by rewrite getDomain_prefixed.
    + split; [by right; right|done].
Qed.

Lemma getDomain_of_qualified_name_witness :
  SP.getDomain "eduroam.ku.ac.th" = "eduroam.ku.ac.th"
  ∧ Realm.getDomain "eduroam.ku.ac.th" = "eduroam.eduroam.ku.ac.th"
  ∧ SP.getDomain (SP.getDomain "ku.ac.th") = SP.getDomain "ku.ac.th".
Proof.
  split; [reflexivity|]. split; [reflexivity|].
  apply (proj1 (getDomain_of_qualified_name "ku.ac.th")); intros [=].
Defined.

(** ** The pattern analysis of eduroam-sp *)

(** *** Runs of time stamps *)

(** The stamps [prev :: rest], cut before every stamp that [breaks]
    with the one before it. *)
Fixpoint segments (breaks : Time → Time → bool) (prev : Time) (rest : list Time)
  : list (list Time) :=
  match rest with
  | [] => [[prev]]
  | ts :: rest' =>
      if breaks prev ts then [prev] :: segments breaks ts rest'
      else match segments breaks ts rest' with
           | g :: gs => (prev :: g) :: gs
           | [] => [[prev]]
           end
  end.

(** [groups] cut [ts] into runs: put end to end they are [ts], none is
    empty, no stamp inside a run [breaks] with the one before it, and
    the first stamp of every run but the first does. *)
Definition cutsInto (breaks : Time → Time → bool) (ts : list Time)
    (groups : list (list Time)) : Prop :=
  concat groups = ts
  ∧ Forall (λ g, g ≠ []) groups
  ∧ Forall (λ g, ∀ i a b, g !! i = Some a → g !! S i = Some b → breaks a b = false)
           groups
  ∧ (∀ i g h a b, groups !! i = Some g → groups !! S i = Some h →
       last g = Some a → head h = Some b → breaks a b = true).

Lemma segments_head breaks prev rest :
  ∃ g gs, segments breaks prev rest = (prev :: g) :: gs.
Proof.
  destruct rest as [|ts rest]; cbn [segments]; [by eexists _, _|].
  destruct (breaks prev ts); [by eexists _, _|].
  destruct (segments breaks ts rest); by eexists _, _.
Qed.

Lemma segments_cutsInto breaks prev rest :
  cutsInto breaks (prev :: rest) (segments breaks prev rest).
Proof.
  revert prev. induction rest as [|ts rest IH]; intros prev.
  { cbn. split_and!; [done|by repeat constructor| |].
    - repeat constructor. by intros [|i] a b Ha Hb.
    - by intros [|i] g h a b Hg Hh. }
  cbn [segments]. destruct (IH ts) as (Hcat & Hne & Hin & Hcut).
  destruct (segments_head breaks ts rest) as (g & gs & Hseg).
  rewrite Hseg in *. clear IH.
  apply Forall_cons in Hne as [_ Hne]. apply Forall_cons in Hin as [Hg Hin].
  destruct (breaks prev ts) eqn:Hb.
  - split_and!.
    + simpl in *. by rewrite Hcat.
    + by repeat constructor.
    + constructor; [by intros [|i] a b Ha Hb'|]. by constructor.
    + intros [|i] g' h a b Hg' Hh Ha Hb'.
      * cbn in Hg', Hh. injection Hg' as <-. injection Hh as <-.
        cbn in Ha, Hb'. by injection Ha as <-; injection Hb' as <-.
      * by apply (Hcut i g' h).
  - split_and!.
    + simpl in *. by rewrite Hcat.
    + by constructor.
    + constructor; [|done]. intros [|i] a b Ha Hb'.
      * cbn in Ha, Hb'. by injection Ha as <-; injection Hb' as <-.
      * by apply (Hg i).
    + intros [|i] g' h a b Hg' Hh Ha Hb'.
      * cbn in Hg', Hh. injection Hg' as <-.
        apply (Hcut 0%nat (ts :: g) h a b); [done|done| |done].
        by rewrite last_cons_cons in Ha.
      * by apply (Hcut (S i) g' h).
Qed.

Lemma cutsInto_length breaks ts groups :
  cutsInto breaks ts groups → sumOf len groups = len ts.
Proof.
  intros (<- & _). induction groups as [|g gs IH]; [done|].
  cbn [sumOf foldr concat]. unfold sumOf in IH. rewrite IH.
  unfold len. rewrite length_app. lia.
Qed.

Lemma segments_length breaks prev rest g gs :
  segments breaks prev rest = g :: gs → (length g ≤ S (length rest))%nat.
Proof.
  intros Hseg. pose proof (segments_cutsInto breaks prev rest) as (Hcat & _).
  rewrite Hseg in Hcat. apply (f_equal length) in Hcat.
  cbn [concat] in Hcat. rewrite length_app in Hcat. cbn in Hcat. lia.
Qed.

(** *** Active periods *)

(** The stamp [ts] comes more than 15 minutes after [prev]. *)
Definition farApart (prev ts : Time) : bool :=
  Patterns.flt (Patterns.ofInt 15) (Patterns.Minutes (Patterns.Sub ts prev)).

(** A period or session from [start] to [end_] with [count]
    authentications is that of the run [g]. *)
Definition spans (start end_ : string) (count : Z) (g : list Time) : Prop :=
  FormatRFC3339 <$> head g = Some start
  ∧ FormatRFC3339 <$> last g = Some end_
  ∧ count = len g.

Definition periodOf (g : list Time) : Patterns.Period :=
  match head g, last g with
  | Some first, Some final => Patterns.closePeriod (FormatRFC3339 first) final (len g)
  | _, _ => Patterns.mkPeriod "" "" 0 0
  end.

Lemma last_cons_some {A} (x : A) l : ∃ y, last (x :: l) = Some y.
Proof. rewrite last_cons. destruct (last l); eauto. Qed.

Lemma periodsLoop_segments rest : ∀ prev start n periods g gs,
  segments farApart prev rest = g :: gs →
  1 ≤ n → n + len rest ≤ maxInt64 →
  Patterns.periodsLoop prev rest start n periods
  = periods ++ Patterns.closePeriod start (default prev (last g)) (n + len g - 1)
               :: map periodOf gs.
Proof.
  unfold maxInt64, len.
  induction rest as [|ts rest IH]; intros prev start n periods g gs Hseg Hn Hmax.
  { cbn [segments] in Hseg. injection Hseg as <- <-.
    cbn [Patterns.periodsLoop last default length map].
    by replace (n + Z.of_nat 1 - 1) with n by lia. }
  cbn [segments] in Hseg. cbn [Patterns.periodsLoop]. cbv zeta.
  change Patterns.maxGapMinutes with 15. fold (farApart prev ts).
  destruct (segments_head farApart ts rest) as (g' & gs' & Hseg').
  rewrite Hseg' in Hseg. cbn [length] in Hmax.
  destruct (farApart prev ts).
  - injection Hseg as <- <-.
    rewrite (IH _ _ _ _ _ _ Hseg') by lia. rewrite <- app_assoc.
    cbn [app map last default length]. do 3 f_equal; [f_equal; lia|].
    unfold periodOf. cbn [head].
    destruct (last_cons_some ts g') as [final ->].
    cbn [default]. f_equal. unfold len. cbn [length]. lia.
  - injection Hseg as <- <-.
    rewrite wrap64_small by lia.
    rewrite (IH _ _ _ _ _ _ Hseg') by lia.
    do 3 f_equal.
    + rewrite last_cons_cons. by destruct (last_cons_some ts g') as [final ->].
    + cbn [length]. lia.
Qed.

Lemma periodOf_spans g :
  g ≠ [] →
  spans (Patterns.PeriodStart (periodOf g)) (Patterns.PeriodEnd (periodOf g))
        (Patterns.AuthCount (periodOf g)) g.
Proof.
  destruct g as [|first g]; [done|]. intros _. unfold periodOf, spans.
  destruct (last_cons_some first g) as [final ->]. by cbn.
Qed.

(** X18. [findActivePeriods] returns nothing for fewer than two time
    stamps.  Otherwise (up to 2^63 - 1 stamps) its periods are the runs
    the stamps fall into when a run ends wherever the next stamp comes
    more than 15 minutes later: each period starts at the first stamp
    of its run, ends at the last, and counts the stamps of the run, so
    the counts add up to the number of stamps. *)
Theorem active_periods_are_runs (timestamps : list Time) :
  len timestamps ≤ maxInt64 →
  (len timestamps < 2 → Patterns.findActivePeriods timestamps = [])
  ∧ (2 ≤ len timestamps →
     ∃ groups,
       cutsInto farApart timestamps groups
       ∧ Forall2 (λ p g, spans (Patterns.PeriodStart p) (Patterns.PeriodEnd p)
                               (Patterns.AuthCount p) g)
                 (Patterns.findActivePeriods timestamps) groups
       ∧ sumOf Patterns.AuthCount (Patterns.findActivePeriods timestamps)
         = len timestamps).
Proof.
  intros Hmax. split.
  { destruct timestamps as [|first [|second rest]]; [done|done|].
    unfold len. cbn [length]. lia. }
  destruct timestamps as [|first [|second rest]]; [done|done|]. intros _.
  pose proof (segments_cutsInto farApart first (second :: rest)) as Hcut.
  destruct (segments_head farApart first (second :: rest)) as (g & gs & Hseg).
  assert (Hperiods : Patterns.findActivePeriods (first :: second :: rest)
                     = map periodOf (segments farApart first (second :: rest))).
  { unfold Patterns.findActivePeriods.
    rewrite (periodsLoop_segments _ _ _ _ _ _ _ Hseg), Hseg;
      [|lia|unfold len in *; cbn [length] in *; lia].
    cbn [app map]. f_equal. unfold periodOf. cbn [head].
    destruct (last_cons_some first g) as [final ->]. cbn [default].
    f_equal. unfold len. cbn [length]. lia. }
  exists (segments farApart first (second :: rest)). split; [done|].
  rewrite Hperiods. destruct Hcut as (Hcat & Hne & Hrest). split.
  - apply Forall2_fmap_l, Forall_Forall2_diag.
    eapply Forall_impl; [exact Hne|]. intros g'. apply periodOf_spans.
  - rewrite sumOf_map, <- (cutsInto_length farApart _ _ (conj Hcat (conj Hne Hrest))).
    clear Hcat Hrest Hseg Hperiods.
    induction Hne as [|g' gs' Hg' Hne IH]; [done|].
    cbn [sumOf foldr]. unfold sumOf in IH. rewrite IH. f_equal.
    unfold compose. by destruct (periodOf_spans g' Hg') as (_ & _ & ->).
Qed.

Lemma active_periods_are_runs_witness :
  map Patterns.AuthCount
      (Patterns.findActivePeriods
         [at_ 1728950400; at_ 1728950460; at_ 1728950530; at_ 1728954000; at_ 1728954007])
  = [3; 2]
  ∧ sumOf Patterns.AuthCount
          (Patterns.findActivePeriods
             [at_ 1728950400; at_ 1728950460; at_ 1728950530; at_ 1728954000;
              at_ 1728954007])
    = 5.
Proof.
  split; [vm_compute; reflexivity|].
  destruct (active_periods_are_runs
              [at_ 1728950400; at_ 1728950460; at_ 1728950530; at_ 1728954000;
               at_ 1728954007]) as [_ H]; [vm_compute; discriminate|].
  destruct H as (groups & _ & _ & H); [vm_compute; discriminate|].
  exact H.
Defined.

(** *** Sessions *)

(** A session and a period that tell of the same run: same start, end
    and count, and the same number of minutes, rounded to the nearest
    whole number in the session's text and cut to a whole number in
    the period. *)
Definition sameRun (s : Patterns.Session) (p : Patterns.Period) : Prop :=
  Patterns.SessionStart s = Patterns.PeriodStart p
  ∧ Patterns.SessionEnd s = Patterns.PeriodEnd p
  ∧ Patterns.AuthsCount s = Patterns.AuthCount p
  ∧ ∃ minutes,
      Patterns.Duration s = Patterns.formatFixed 0 minutes +:+ " minutes"
      ∧ Patterns.DurationMinutes p = Patterns.toInt minutes.

Lemma closeSession_closePeriod start final authCount :
  sameRun (Patterns.closeSession start final authCount)
          (Patterns.closePeriod start final authCount).
Proof.
  unfold sameRun, Patterns.closeSession, Patterns.closePeriod.
  cbn [Patterns.SessionStart Patterns.SessionEnd Patterns.AuthsCount Patterns.Duration
       Patterns.PeriodStart Patterns.PeriodEnd Patterns.AuthCount
       Patterns.DurationMinutes].
  split_and!; [done..|]. by eexists.
Qed.

Lemma sessionsLoop_periodsLoop rest : ∀ prev start n sessions periods,
  Forall2 sameRun sessions periods →
  Forall2 sameRun (Patterns.sessionsLoop prev rest start n sessions)
                  (Patterns.periodsLoop prev rest start n periods).
Proof.
  induction rest as [|ts rest IH]; intros prev start n sessions periods Hsame.
  - cbn [Patterns.sessionsLoop Patterns.periodsLoop].
    apply Forall2_app; [done|]. constructor; [|constructor].
    apply closeSession_closePeriod.
  - cbn [Patterns.sessionsLoop Patterns.periodsLoop]. cbv zeta.
    change Patterns.sessionTimeout with Patterns.maxGapMinutes.
    destruct (Patterns.flt _ _).
    + apply IH. apply Forall2_app; [done|]. constructor; [|constructor].
      apply closeSession_closePeriod.
    + by apply IH.
Qed.

(** X19. [analyzeSessionPatterns] cuts the stamps as [findActivePeriods]
    does.  It returns nothing exactly when there are fewer than two
    stamps; otherwise [total_sessions] is the number of active periods
    and the sessions are, one for one and in order, the periods: same
    start, same end, same count, and the session's duration text is the
    rounding of the number of minutes the period's [duration_minutes]
    is the whole part of. *)
Theorem sessions_are_the_active_periods (timestamps : list Time) :
  (Patterns.analyzeSessionPatterns timestamps = None ↔ len timestamps < 2)
  ∧ ∀ analysis,
      Patterns.analyzeSessionPatterns timestamps = Some analysis →
      Patterns.TotalSessions analysis = len (Patterns.findActivePeriods timestamps)
      ∧ Forall2 sameRun (Patterns.SessionDetails analysis)
                        (Patterns.findActivePeriods timestamps).
Proof.
  destruct timestamps as [|first [|second rest]].
  - split; [done|]. intros analysis [=].
  - split; [done|]. intros analysis [=].
  - split. { split; [done|]. unfold len. cbn [length]. lia. }
    intros analysis. unfold Patterns.analyzeSessionPatterns, Patterns.findActivePeriods.
    cbv zeta. intros [= <-].
    cbn [Patterns.TotalSessions Patterns.SessionDetails].
    pose proof (sessionsLoop_periodsLoop (second :: rest) first (FormatRFC3339 first)
                  1 [] [] ltac:(constructor)) as Hsame.
    split; [|exact Hsame]. unfold len. f_equal.
    by apply Forall2_length in Hsame.
Qed.

(** *** Frequent re-authentications *)

(** The stamp [next] comes more than 2 minutes after [prev]. *)
Definition notNear (prev next : Time) : bool :=
  negb (Patterns.fle (Patterns.Minutes (Patterns.Sub next prev)) (Patterns.ofInt 2)).

(** The report [r] is that of the run [g]. *)
Definition reports (r : Patterns.FrequentReauth) (g : list Time) : Prop :=
  ∃ first final,
    head g = Some first ∧ last g = Some final
    ∧ Patterns.ReauthPeriod r
      = Patterns.FormatHourMinute first +:+ "-" +:+ Patterns.FormatHourMinute final
    ∧ Patterns.Count r = len g
    ∧ Patterns.Interval r = "2min".

Lemma reauthOf_short g : len g < 3 → Patterns.reauthOf g = [].
Proof.
  intros Hg. unfold Patterns.reauthOf. change Patterns.minCount with 3.
  by destruct (Z.leb_spec 3 (len g)); [lia|].
Qed.

Lemma reauthOf_long g :
  3 ≤ len g → ∃ r, Patterns.reauthOf g = [r] ∧ reports r g.
Proof.
  intros Hg. unfold Patterns.reauthOf. change Patterns.minCount with 3.
  destruct (Z.leb_spec 3 (len g)); [|lia].
  destruct g as [|first g]; [done|].
  destruct (last_cons_some first g) as [final Hfinal]. rewrite Hfinal.
  cbn [head]. eexists. split; [done|]. by exists first, final.
Qed.

Lemma reauthsLoop_segments rest : ∀ prev pre reauths g gs,
  segments notNear prev rest = g :: gs →
  Patterns.reauthsLoop prev rest (pre ++ [prev]) reauths
  = reauths ++ Patterns.reauthOf (pre ++ g) ++ concat (map Patterns.reauthOf gs)
  ∧ Patterns.reauthsLoop prev rest [] reauths
    = reauths ++ Patterns.reauthOf g ++ concat (map Patterns.reauthOf gs).
Proof.
  induction rest as [|next rest IH]; intros prev pre reauths g gs Hseg.
  { cbn [segments] in Hseg. injection Hseg as <- <-.
    cbn [Patterns.reauthsLoop map concat]. rewrite !app_nil_r. by split. }
  cbn [segments] in Hseg. cbn [Patterns.reauthsLoop]. cbv zeta.
  destruct (segments_head notNear next rest) as (g' & gs' & Hseg').
  rewrite Hseg' in Hseg.
  assert (Hlen : (len (pre ++ [prev]) =? 0) = false).
  { apply Z.eqb_neq. unfold len. rewrite length_app. cbn [length]. lia. }
  rewrite Hlen. change (len [] =? 0) with true. cbv iota. cbn [app].
  change Patterns.maxInterval with 2. unfold notNear in Hseg.
  destruct (Patterns.fle _ _); cbn [negb] in Hseg; injection Hseg as <- <-.
  - destruct (IH next (pre ++ [prev]) reauths _ _ Hseg') as [H1 _].
    destruct (IH next [prev] reauths _ _ Hseg') as [H2 _].
    cbn [app] in H1, H2. rewrite H1, H2. by rewrite <- !app_assoc.
  - destruct (IH next [] (reauths ++ Patterns.reauthOf (pre ++ [prev])) _ _ Hseg')
      as [_ H1].
    destruct (IH next [] (reauths ++ Patterns.reauthOf [prev]) _ _ Hseg') as [_ H2].
    rewrite H1, H2. cbn [map concat]. by rewrite <- !app_assoc.
Qed.

Lemma reauthOf_reports groups :
  Forall2 reports (concat (map Patterns.reauthOf groups))
                  (filter (λ g, 3 ≤ len g) groups).
Proof.
  induction groups as [|g groups IH]; [constructor|].
  cbn [map concat]. rewrite filter_cons. case_decide as Hg.
  - destruct (reauthOf_long g Hg) as (r & -> & Hr). by constructor.
  - rewrite reauthOf_short by lia. done.
Qed.

(** X20. [findFrequentReauths] reports the runs of at least three
    stamps, a run ending wherever the next stamp comes more than 2
    minutes later: one report for each such run, in order, with the
    run's first and last hour and minute, and the number of its stamps
    as [count].  So every [count] is 3 or more, and together the counts
    do not exceed the number of stamps. *)
Theorem frequent_reauths_are_long_runs (timestamps : list Time) :
  ∃ groups,
    cutsInto notNear timestamps groups
    ∧ Forall2 reports (Patterns.findFrequentReauths timestamps)
                      (filter (λ g, 3 ≤ len g) groups)
    ∧ Forall (λ r, 3 ≤ Patterns.Count r) (Patterns.findFrequentReauths timestamps)
    ∧ sumOf Patterns.Count (Patterns.findFrequentReauths timestamps) ≤ len timestamps.
Proof.
  assert (Hmain : ∃ groups,
    cutsInto notNear timestamps groups
    ∧ Forall2 reports (Patterns.findFrequentReauths timestamps)
                      (filter (λ g, 3 ≤ len g) groups)).
  { destruct timestamps as [|first rest].
    - exists []. split; [|constructor].
      split_and!; [done|constructor|constructor|]. by intros [|i] g h a b Hg.
    - exists (segments notNear first rest).
      split; [apply segments_cutsInto|].
      destruct (segments_head notNear first rest) as (g & gs & Hseg).
      unfold Patterns.findFrequentReauths.
      destruct (reauthsLoop_segments rest first [] [] _ _ Hseg) as [_ ->].
      rewrite Hseg. cbn [app]. apply (reauthOf_reports ((first :: g) :: gs)). }
  destruct Hmain as (groups & Hcut & Hrep). exists groups.
  split; [done|]. split; [done|].
  pose proof (cutsInto_length _ _ _ Hcut) as Hlen. rewrite <- Hlen. clear Hlen Hcut.
  assert (Hall : Forall (λ g : list Time, 0 ≤ len g) groups).
  { apply Forall_forall. intros g _. unfold len. lia. }
  revert Hrep. generalize (Patterns.findFrequentReauths timestamps). intros rs.
  induction groups as [|g groups IH] in rs, Hall |- *; intros Hrep.
  - apply Forall2_nil_inv_r in Hrep as ->. by split; [constructor|].
  - apply Forall_cons in Hall as [Hg Hall].
    rewrite filter_cons in Hrep. cbn [sumOf foldr]. case_decide as Hlong.
    + apply Forall2_cons_inv_r in Hrep as (r & rs' & Hr & Hrep & ->).
      destruct (IH Hall rs' Hrep) as [Hcounts Hsum].
      destruct Hr as (first & final & _ & _ & _ & Hcount & _).
      split; [constructor; [lia|done]|].
      cbn [sumOf foldr]. unfold sumOf in Hsum. lia.
    + destruct (IH Hall rs Hrep) as [Hcounts Hsum]. split; [done|].
      unfold sumOf in *. lia.
Qed.

(** *** The hourly distribution *)

(** The hour of the day and the second of the minute a stamp shows in
    its own zone. *)
Definition hourOf (t : Time) : Z := wallSec t mod 86400 / 3600.
Definition secondOf (t : Time) : Z := wallSec t mod 86400 mod 60.

Definition bucket (h s : Z) : string :=
  padInt 2 h +:+ ":00-" +:+ padInt 2 h +:+ ":" +:+ itoa s +:+ "9".

(** Reads the hour and the second back from a key. *)
Definition unbucket (key : string) : option (Z * Z) :=
  h ← Atoi (takeS 2 key);
  s ← Atoi (takeS (String.length key - 10) (dropS 9 key));
  Some (h, s).

Lemma FormatHourBucket_bucket t :
  Patterns.FormatHourBucket t = bucket (hourOf t) (secondOf t).
Proof. reflexivity. Qed.

Lemma hourOf_range t : 0 ≤ hourOf t < 24.
Proof.
  unfold hourOf. pose proof (Z.mod_pos_bound (wallSec t) 86400 ltac:(lia)).
  Z.div_mod_to_equations. lia.
Qed.

Lemma secondOf_range t : 0 ≤ secondOf t < 60.
Proof. unfold secondOf. apply Z.mod_pos_bound. lia. Qed.

Lemma unbucket_bucket h s :
  0 ≤ h < 24 → 0 ≤ s < 60 → unbucket (bucket h s) = Some (h, s).
Proof.
  intros Hh Hs.
  assert (Hall : forallb (λ h, forallb (λ s,
                    match unbucket (bucket h s) with
                    | Some (h', s') => (h =? h') && (s =? s')
                    | None => false
                    end) (map Z.of_nat (seq 0 60))) (map Z.of_nat (seq 0 24)) = true)
    by (vm_compute; reflexivity).
  rewrite forallb_forall in Hall.
  specialize (Hall h). rewrite forallb_forall in Hall.
  assert (Hin : ∀ n x, 0 ≤ x < Z.of_nat n → In x (map Z.of_nat (seq 0 n))).
  { intros n x Hx. apply in_map_iff. exists (Z.to_nat x).
    split; [lia|]. apply in_seq. lia. }
  specialize (Hall (Hin 24%nat h Hh) s (Hin 60%nat s Hs)).
  destruct (unbucket (bucket h s)) as [[h' s']|]; [|done].
  apply andb_true_iff in Hall as [->%Z.eqb_eq ->%Z.eqb_eq]. done.
Qed.

Lemma same_bucket t u :
  Patterns.FormatHourBucket u = Patterns.FormatHourBucket t
  ↔ hourOf u = hourOf t ∧ secondOf u = secondOf t.
Proof.
  rewrite !FormatHourBucket_bucket. split; [|by intros [-> ->]].
  intros Heq. apply (f_equal unbucket) in Heq.
  rewrite !unbucket_bucket in Heq by (apply hourOf_range || apply secondOf_range).
  by injection Heq.
Qed.

(** The stamps counted under [key]. *)
Definition countOf (key : string) (ts : list Time) : Z :=
  len (filter (λ t, Patterns.FormatHourBucket t = key) ts).

Lemma fold_countHour ts : ∀ m B,
  (∀ k v, m !! k = Some v → 1 ≤ v ≤ B) → 0 ≤ B → B + len ts ≤ maxInt64 →
  (∀ k v, fold_left Patterns.countHour ts m !! k = Some v → 1 ≤ v ≤ B + len ts)
  ∧ (∀ key, default 0 (fold_left Patterns.countHour ts m !! key)
            = default 0 (m !! key) + countOf key ts).
Proof.
  unfold maxInt64, len, countOf, len.
  induction ts as [|t ts IH]; intros m B Hm HB Hmax.
  { cbn [fold_left length filter]. split.
    - intros k v Hk. specialize (Hm k v Hk). cbn. lia.
    - intros key. cbn. lia. }
  cbn [fold_left length] in *.
  assert (Hstep : Patterns.countHour m t
                  = <[Patterns.FormatHourBucket t :=
                        default 0 (m !! Patterns.FormatHourBucket t) + 1]> m).
  { unfold Patterns.countHour. cbv zeta. rewrite wrap64_small; [done|].
    destruct (m !! Patterns.FormatHourBucket t) as [v|] eqn:Hv; cbn [from_option id];
      [specialize (Hm _ _ Hv)|]; lia. }
  rewrite Hstep.
  destruct (IH (<[Patterns.FormatHourBucket t :=
                    default 0 (m !! Patterns.FormatHourBucket t) + 1]> m) (B + 1))
    as [Hvals Hcount]; [|lia|lia|].
  { intros k v. destruct (decide (k = Patterns.FormatHourBucket t)) as [->|Hk].
    - rewrite lookup_insert_eq. intros [= <-].
      destruct (m !! Patterns.FormatHourBucket t) as [v|] eqn:Hv; cbn [from_option id];
        [specialize (Hm _ _ Hv)|]; lia.
    - rewrite lookup_insert_ne by done. intros Hv. specialize (Hm _ _ Hv). lia. }
  split.
  - intros k v Hk. specialize (Hvals k v Hk). lia.
  - intros key. rewrite Hcount, filter_cons.
    destruct (decide (key = Patterns.FormatHourBucket t)) as [->|Hk].
    + rewrite lookup_insert_eq, decide_True by done. cbn [from_option id length]. lia.
    + rewrite lookup_insert_ne, decide_False by done. lia.
Qed.

Lemma analyzeUsagePatterns_some rt timestamps :
  timestamps ≠ [] →
  ∃ averageMinutes minMinutes maxMinutes,
    Patterns.analyzeUsagePatterns rt timestamps
    = Some (Patterns.mkUsagePattern
              (fold_left Patterns.countHour (sortSlice rt Before timestamps) ∅)
              averageMinutes minMinutes maxMinutes
              (Patterns.findActivePeriods (sortSlice rt Before timestamps))
              (Patterns.findFrequentReauths (sortSlice rt Before timestamps))
              (Patterns.findLongestGap (sortSlice rt Before timestamps))).
Proof.
  intros Hne. unfold Patterns.analyzeUsagePatterns.
  destruct (Z.eqb_spec (len timestamps) 0) as [Hlen|Hlen].
  { destruct timestamps; [done|]. unfold len in Hlen. cbn [length] in Hlen. lia. }
  cbv zeta.
  destruct (match
       match sortSlice rt Before timestamps with
       | [] => []
       | first :: rest => Patterns.intervalsLoop first rest
       end with [] => _ | _ :: _ => _ end) as [[average minMinutes] maxMinutes].
  by eexists _, _, _.
Qed.

(** X21. [analyzeUsagePatterns] returns nothing exactly for an empty
    list.  Otherwise (up to 2^63 - 1 stamps) the key a stamp is counted
    under in [hourly_distribution] is made of its hour and of its
    second of the minute: the number stored under the key of a stamp is
    the number of stamps that show the same hour and the same second,
    whatever their minutes; and there is no key but those of the
    stamps. *)
Theorem hourly_distribution_counts_by_hour_and_second
    (rt : Runtime) (timestamps : list Time) :
  len timestamps ≤ maxInt64 →
  (Patterns.analyzeUsagePatterns rt timestamps = None ↔ timestamps = [])
  ∧ ∀ patterns,
      Patterns.analyzeUsagePatterns rt timestamps = Some patterns →
      (∀ t, t ∈ timestamps →
         Patterns.HourlyDistribution patterns !! Patterns.FormatHourBucket t
         = Some (len (filter (λ u, hourOf u = hourOf t ∧ secondOf u = secondOf t)
                             timestamps)))
      ∧ (∀ key n, Patterns.HourlyDistribution patterns !! key = Some n →
           ∃ t, t ∈ timestamps ∧ key = Patterns.FormatHourBucket t).
Proof.
  intros Hmax. destruct (decide (timestamps = [])) as [->|Hne].
  { split; [done|]. by intros p [=]. }
  destruct (analyzeUsagePatterns_some rt timestamps Hne)
    as (average & minMinutes & maxMinutes & Hsome).
  rewrite Hsome. split; [done|]. intros patterns [= <-].
  cbn [Patterns.HourlyDistribution].
  pose proof (sortSlice_perm rt _ Before timestamps) as Hperm.
  destruct (fold_countHour (sortSlice rt Before timestamps) ∅ 0) as [Hvals Hcount].
  { intros k v Hk. by rewrite lookup_empty in Hk. }
  { done. }
  { unfold len. rewrite Hperm. unfold len in Hmax. lia. }
  assert (Hsame : ∀ key, countOf key (sortSlice rt Before timestamps)
                         = countOf key timestamps).
  { intros key. unfold countOf, len. by rewrite Hperm. }
  split.
  - intros t Ht.
    specialize (Hcount (Patterns.FormatHourBucket t)).
    rewrite lookup_empty, Hsame in Hcount. cbn [from_option id] in Hcount.
    assert (Hpos : 1 ≤ countOf (Patterns.FormatHourBucket t) timestamps).
    { unfold countOf, len.
      assert (Hin : t ∈ filter (λ u, Patterns.FormatHourBucket u
                                     = Patterns.FormatHourBucket t) timestamps)
        by (by apply list_elem_of_filter).
      destruct (filter _ timestamps); [by apply elem_of_nil in Hin|].
      cbn [length]. lia. }
    destruct (fold_left Patterns.countHour (sortSlice rt Before timestamps) ∅
                !! Patterns.FormatHourBucket t) as [n|]; cbn [from_option id] in Hcount; [|lia].
    rewrite Hcount, Z.add_0_l. unfold countOf. do 2 f_equal.
    apply list_filter_iff. intros u. apply same_bucket.
  - intros key n Hkey. specialize (Hcount key). specialize (Hvals key n Hkey).
    rewrite Hkey, lookup_empty, Hsame in Hcount. cbn [from_option id] in Hcount.
    unfold countOf, len in Hcount.
    destruct (filter (λ t, Patterns.FormatHourBucket t = key) timestamps)
      as [|t l] eqn:Hf; [cbn [length] in Hcount; lia|].
    assert (Hin : t ∈ filter (λ t, Patterns.FormatHourBucket t = key) timestamps)
      by (rewrite Hf; left).
    apply list_elem_of_filter in Hin as [<- Hin]. by exists t.
Qed.

Lemma hourly_distribution_counts_by_hour_and_second_witness :
  ∃ patterns,
    Patterns.analyzeUsagePatterns refRuntime
      [at_ 1728950407; at_ 1728950467; at_ 1728950408] = Some patterns
    ∧ Patterns.HourlyDistribution patterns !! "00:00-00:79" = Some 2
    ∧ Patterns.HourlyDistribution patterns !! "00:00-00:89" = Some 1.
Proof.
  destruct (Patterns.analyzeUsagePatterns refRuntime
              [at_ 1728950407; at_ 1728950467; at_ 1728950408]) as [patterns|] eqn:Hp;
    [|by vm_compute in Hp].
  exists patterns. split; [done|].
  destruct (hourly_distribution_counts_by_hour_and_second refRuntime
              [at_ 1728950407; at_ 1728950467; at_ 1728950408]) as [_ H];
    [vm_compute; discriminate|].
  destruct (H patterns Hp) as [Hcount _]. split.
  - apply (Hcount (at_ 1728950407)). by left.
  - apply (Hcount (at_ 1728950408)). by right; right; left.
Defined.

(** *** A user seen once *)

(** X22. A user with a single authentication at a station is analysed
    as follows, whatever the stamp and the run time: no session
    analysis, no active period, no frequent re-authentication, and the
    minimum interval left at zero, so that [analyzePotentialIssues]
    reports one issue, [rapid_reauth], "Some re-authentications
    occurred less than 1 minute apart". *)
Theorem lone_stamp_is_reported_as_rapid_reauth (rt : Runtime) (t : Time) :
  Patterns.analyzeSessionPatterns [t] = None
  ∧ ∃ patterns,
      Patterns.analyzeUsagePatterns rt [t] = Some patterns
      ∧ Patterns.HourlyDistribution patterns = {[ Patterns.FormatHourBucket t := 1 ]}
      ∧ Patterns.MinMinutes patterns = 0
      ∧ Patterns.ActivePeriods patterns = []
      ∧ Patterns.FrequentReauths patterns = []
      ∧ Patterns.analyzePotentialIssues patterns
        = [Patterns.mkPotentialIssue "rapid_reauth" "throughout session"
             "Some re-authentications occurred less than 1 minute apart"].
Proof.
  split; [done|].
  assert (Hsort : sortSlice rt Before [t] = [t]).
  { apply Permutation_singleton_r. apply (sortSlice_perm rt). }
  unfold Patterns.analyzeUsagePatterns. change (len [t] =? 0) with false.
  cbv iota zeta. rewrite Hsort. eexists. split; [reflexivity|].
  cbn [Patterns.HourlyDistribution Patterns.MinMinutes Patterns.ActivePeriods
       Patterns.FrequentReauths Patterns.findActivePeriods
       Patterns.findFrequentReauths Patterns.reauthsLoop app fold_left].
  split_and!; [|done|done| |].
  - unfold Patterns.countHour. cbv zeta. by rewrite lookup_empty.
  - by rewrite (reauthOf_short []).
  - unfold Patterns.analyzePotentialIssues.
    cbn [Patterns.FrequentReauths Patterns.LongestGap Patterns.MinMinutes
         Patterns.findFrequentReauths Patterns.reauthsLoop
         Patterns.findLongestGap Patterns.longestGapLoop Patterns.DurationMinutes app].
    rewrite (reauthOf_short []) by done. done.
Qed.

(** ** Well-formed aggregation responses *)

(** [bucket] is a bucket of a terms aggregation with the key [k]. *)
Definition keyed (bucket : value) (k : string) : Prop :=
  ∃ m, bucket = Object m ∧ m !! "key" = Some (Str k).

(** [bucket] is a bucket of a date histogram that holds [ck.1]
    documents at [ck.2] milliseconds. *)
Definition slot (bucket : value) (ck : Z * Z) : Prop :=
  ∃ m, bucket = Object m
       ∧ m !! "doc_count" = Some (Number ck.1) ∧ m !! "key" = Some (Number ck.2).

(** The aggregation [name] inside [bucket] has the buckets [vs]. *)
Definition subBuckets (bucket : gmap string value) (name : string)
    (vs : list value) : Prop :=
  ∃ agg, bucket !! name = Some (Object agg) ∧ agg !! "buckets" = Some (Array vs).

(** The instant of a histogram key, as the tools read it. *)
Definition instantOf (rt : Runtime) (ck : Z * Z) : Time :=
  mkTime (Z.quot ck.2 1000 * second) (localZone rt).

(** The Unix second of a histogram key. *)
Definition keySecond (ck : Z * Z) : Z := Z.quot ck.2 1000.

(** The numbers of a response are float64 values.  A whole number up
    to 2^53 is one of them, and [int64] of it is the number itself.  A
    key up to 10^15 milliseconds, divided by 1000 as a float64, is
    within 2^-13 of the true quotient, so its whole part is the whole
    part of the true quotient.  The embedding computes with integers:
    it is the program on such numbers. *)
Definition exactCount (docCount : Z) : Prop := 0 ≤ docCount ≤ 2 ^ 53.
Definition exactSlot (ck : Z * Z) : Prop :=
  exactCount ck.1 ∧ 0 ≤ ck.2 ≤ 10 ^ 15.

(** The histogram buckets that hold a document. *)
Definition active (slots : list (Z * Z)) : list (Z * Z) :=
  filter (λ ck, ck.1 ≠ 0) slots.

(** The sum [totalHits] is left with. *)
Definition hits (counts : list Z) : Z :=
  fold_left (λ totalHits docCount, wrap64 (totalHits + docCount)) counts 0.

Lemma subBuckets_member bucket name vs :
  subBuckets bucket name vs →
  ∃ agg, asObject (member bucket name) = Some agg
         ∧ asArray (member agg "buckets") = Some vs.
Proof.
  intros (agg & Hagg & Hvs). exists agg. unfold member. by rewrite Hagg, Hvs.
Qed.

Lemma realm_concatRun {A B} (f : A → run (list B)) (g : A → list B) items :
  Forall (λ x, f x = Done (g x)) items →
  Realm.concatRun f items = Done (concat (map g items)).
Proof.
  induction 1 as [|x items Hx _ IH]; [done|].
  cbn [Realm.concatRun map concat]. rewrite Hx, IH. done.
Qed.

Lemma sp_concatRun {A B} (f : A → run (list B)) (g : A → list B) items :
  Forall (λ x, f x = Done (g x)) items →
  SP.concatRun f items = Done (concat (map g items)).
Proof.
  induction 1 as [|x items Hx _ IH]; [done|].
  cbn [SP.concatRun map concat]. rewrite Hx, IH. done.
Qed.

(** A loop over shaped buckets sends what the shapes say. *)
Lemma realm_concatRun_shaped {A B S} (f : A → run (list B)) (shaped : A → S → Prop)
    (g : S → list B) items shapes :
  Forall2 shaped items shapes →
  (∀ x s, shaped x s → f x = Done (g s)) →
  Realm.concatRun f items = Done (concat (map g shapes)).
Proof.
  intros Hshapes Hf. induction Hshapes as [|x s items shapes Hx _ IH]; [done|].
  cbn [Realm.concatRun map concat]. rewrite (Hf x s Hx), IH. done.
Qed.

Lemma sp_concatRun_shaped {A B S} (f : A → run (list B)) (shaped : A → S → Prop)
    (g : S → list B) items shapes :
  Forall2 shaped items shapes →
  (∀ x s, shaped x s → f x = Done (g s)) →
  SP.concatRun f items = Done (concat (map g shapes)).
Proof.
  intros Hshapes Hf. induction Hshapes as [|x s items shapes Hx _ IH]; [done|].
  cbn [SP.concatRun map concat]. rewrite (Hf x s Hx), IH. done.
Qed.

Lemma concat_map_singleton_filter {A B} (P : A → Prop) `{∀ x, Decision (P x)}
    (f : A → B) l :
  concat (map (λ x, if decide (P x) then [f x] else []) l) = map f (filter P l).
Proof.
  induction l as [|x l IH]; [done|].
  cbn [map concat]. rewrite filter_cons, IH. by destruct (decide (P x)).
Qed.

(** *** eduroam-accept *)

(** A user bucket of the realm query: the user, the documents counted,
    the providers and the daily histogram. *)
Record userRow := mkUserRow {
  rowUser : string;
  rowCount : Z;
  rowProviders : list string;
  rowDays : list (Z * Z) }.

Definition userShaped (bucket : value) (row : userRow) : Prop :=
  ∃ m pbs dbs,
    bucket = Object m
    ∧ m !! "key" = Some (Str (rowUser row))
    ∧ m !! "doc_count" = Some (Number (rowCount row))
    ∧ subBuckets m "providers" pbs ∧ Forall2 keyed pbs (rowProviders row)
    ∧ subBuckets m "daily" dbs ∧ Forall2 slot dbs (rowDays row).

Definition exactUser (row : userRow) : Prop :=
  exactCount (rowCount row) ∧ Forall exactSlot (rowDays row).

(** What an entry says whatever the local zone: the user, the provider
    and the Unix second. *)
Definition realmView (e : Realm.LogEntry) : string * string * Z :=
  (Realm.Username e, Realm.ServiceProvider e, Unix (Realm.Timestamp e)).

(** Every provider of the user with every active day of the user. *)
Definition userViews (row : userRow) : list (string * string * Z) :=
  concat (map (λ provider,
                 map (λ ck, (rowUser row, provider, keySecond ck))
                     (active (rowDays row)))
              (rowProviders row)).

Definition userEntries (rt : Runtime) (row : userRow) : list Realm.LogEntry :=
  concat (map (λ provider,
                 map (λ ck, Realm.mkLogEntry (rowUser row) provider (instantOf rt ck))
                     (active (rowDays row)))
              (rowProviders row)).

Lemma processUserProviderDaily_shaped rt m username provider dbs days :
  subBuckets m "daily" dbs → Forall2 slot dbs days →
  Realm.processUserProviderDaily rt m username provider
  = Done (map (λ ck, Realm.mkLogEntry username provider (instantOf rt ck)) (active days)).
Proof.
  intros Hdaily Hslots. unfold Realm.processUserProviderDaily.
  destruct (subBuckets_member _ _ _ Hdaily) as (agg & Hagg & Hvs).
  rewrite Hagg. cbv beta iota. rewrite Hvs. unfold active. rewrite <- concat_map_singleton_filter.
  apply (realm_concatRun_shaped _ slot); [done|].
  intros v [c k] (b & -> & Hc & Hk). unfold Realm.dailyEntry, member.
  cbn [asObject fst snd] in *. rewrite Hc, Hk.
  cbn [from_option id mustNumber mbind run_bind].
  destruct (Z.eqb_spec c 0) as [->|Hne].
  - by rewrite decide_False by (intros ?; done).
  - by rewrite decide_True by done.
Qed.

Lemma processUserBucket_shaped rt bucket row :
  userShaped bucket row →
  ∃ m, bucket = Object m
       ∧ Realm.processUserBucket rt m (rowUser row) = Done (userEntries rt row).
Proof.
  intros (m & pbs & dbs & -> & Hkey & Hcount & Hprov & Hpbs & Hdaily & Hdbs).
  exists m. split; [done|]. unfold Realm.processUserBucket.
  destruct (subBuckets_member _ _ _ Hprov) as (agg & Hagg & Hvs).
  rewrite Hagg. cbv beta iota. rewrite Hvs.
  apply (realm_concatRun_shaped _ keyed); [done|].
  intros v provider (b & -> & Hb). unfold member. cbn [asObject]. rewrite Hb.
  cbn [from_option id mustString mbind run_bind].
  by apply processUserProviderDaily_shaped with dbs.
Qed.

Lemma userBuckets_shaped rt buckets rows : ∀ totalHits,
  Forall2 userShaped buckets rows →
  Realm.userBuckets rt buckets totalHits
  = Done (fold_left (λ totalHits docCount, wrap64 (totalHits + docCount))
                    (map rowCount rows) totalHits,
          concat (map (userEntries rt) rows)).
Proof.
  intros totalHits Hrows. revert totalHits.
  induction Hrows as [|bucket row buckets rows Hrow _ IH]; intros totalHits; [done|].
  destruct (processUserBucket_shaped rt bucket row Hrow) as (m & -> & Hout).
  destruct Hrow as (m' & pbs & dbs & [= <-] & Hkey & Hcount & _).
  cbn [Realm.userBuckets asObject]. unfold member. rewrite Hkey, Hcount.
  cbn [from_option id mustString mustNumber mbind run_bind]. cbv zeta.
  rewrite Hout. cbn [mbind run_bind]. rewrite IH. done.
Qed.

Lemma realm_processAggregations_shaped (rt : Runtime)
    (result aggs : gmap string value) (buckets : list value) (rows : list userRow) :
  result !! "aggregations" = Some (Object aggs) →
  subBuckets aggs "unique_users" buckets →
  Forall2 userShaped buckets rows →
  Realm.processAggregations rt result
  = Done (hits (map rowCount rows), None, concat (map (userEntries rt) rows)).
Proof.
  intros Haggs Husers Hrows. unfold Realm.processAggregations.
  replace (member result "aggregations") with (Object aggs)
    by (unfold member; by rewrite Haggs).
  cbn [asObject].
  destruct (subBuckets_member _ _ _ Husers) as (agg & Hagg & Hbuckets).
  rewrite Hagg. cbv beta iota. rewrite Hbuckets.
  by rewrite (userBuckets_shaped rt buckets rows 0 Hrows).
Qed.

Lemma Unix_instantOf rt ck : Unix (instantOf rt ck) = keySecond ck.
Proof.
  unfold Unix, instantOf, keySecond. cbn [nanos]. by apply Z.div_mul.
Qed.

Lemma realmView_userEntries rt row :
  map realmView (userEntries rt row) = userViews row.
Proof.
  unfold userEntries, userViews. rewrite concat_map, map_map. f_equal.
  apply map_ext. intros provider. rewrite map_map. apply map_ext. intros ck.
  unfold realmView. cbn [Realm.Username Realm.ServiceProvider Realm.Timestamp].
  by rewrite Unix_instantOf.
Qed.

(** X23. On a response of the shape the realm query asks for, whose
    numbers are whole, the counts up to 2^53 and the keys from 0 to
    10^15 milliseconds, [processAggregations] of eduroam-accept does
    not panic and returns no error; the hit count is the sum of the
    users' [doc_count]; and for each user it sends one entry for every
    provider of the user with every day of the user's histogram that
    holds a document, stamped with the second of the day's key: the
    providers and the days are two lists of the same user bucket, and
    each provider is paired with each day. *)
Theorem realm_response_pairs_providers_with_days (rt : Runtime)
    (result aggs : gmap string value) (buckets : list value) (rows : list userRow) :
  result !! "aggregations" = Some (Object aggs) →
  subBuckets aggs "unique_users" buckets →
  Forall2 userShaped buckets rows →
  Forall exactUser rows →
  ∃ out,
    Realm.processAggregations rt result = Done (hits (map rowCount rows), None, out)
    ∧ map realmView out = concat (map userViews rows).
Proof.
  intros Haggs Husers Hrows _. exists (concat (map (userEntries rt) rows)).
  split; [by eapply realm_processAggregations_shaped|].
  rewrite concat_map, map_map. f_equal. apply map_ext. intros row.
  apply realmView_userEntries.
Qed.

(** The aggregation value that holds the buckets [vs]. *)
Definition bucketsOf (vs : list value) : value := obj [("buckets", Array vs)].

Definition pairedProviders : list value :=
  [obj [("key", Str "eduroam.cmu.ac.th"); ("doc_count", Number 2)];
   obj [("key", Str "eduroam.psu.ac.th"); ("doc_count", Number 1)]].
Definition pairedDays : list value :=
  [obj [("key", Number 1728864000000); ("doc_count", Number 2)];
   obj [("key", Number 1728950400000); ("doc_count", Number 0)];
   obj [("key", Number 1729036800000); ("doc_count", Number 1)]].
Definition pairedUser : gmap string value :=
  list_to_map [("key", Str "alice@ku.ac.th"); ("doc_count", Number 3);
               ("providers", bucketsOf pairedProviders);
               ("daily", bucketsOf pairedDays)].
Definition pairedAggs : gmap string value :=
  list_to_map [("unique_users", bucketsOf [Object pairedUser])].
Definition pairedResponse : gmap string value :=
  list_to_map [("aggregations", Object pairedAggs)].

Lemma realm_response_pairs_providers_with_days_witness :
  ∃ out,
    Realm.processAggregations refRuntime pairedResponse = Done (3, None, out)
    ∧ map realmView out
      = [("alice@ku.ac.th", "eduroam.cmu.ac.th", 1728864000);
         ("alice@ku.ac.th", "eduroam.cmu.ac.th", 1729036800);
         ("alice@ku.ac.th", "eduroam.psu.ac.th", 1728864000);
         ("alice@ku.ac.th", "eduroam.psu.ac.th", 1729036800)].
Proof.
  apply (realm_response_pairs_providers_with_days refRuntime pairedResponse
           pairedAggs [Object pairedUser]
           [mkUserRow "alice@ku.ac.th" 3 ["eduroam.cmu.ac.th"; "eduroam.psu.ac.th"]
                      [(2, 1728864000000); (0, 1728950400000); (1, 1729036800000)]]).
  - reflexivity.
  - exists (list_to_map [("buckets", Array [Object pairedUser])]).
    split; reflexivity.
  - constructor; [|constructor]. exists pairedUser, pairedProviders, pairedDays.
    split_and!; [reflexivity|reflexivity|reflexivity| | | |].
    + exists (list_to_map [("buckets", Array pairedProviders)]).
      split; reflexivity.
    + repeat constructor; eexists; (split; [reflexivity|reflexivity]).
    + exists (list_to_map [("buckets", Array pairedDays)]).
      split; reflexivity.
    + repeat constructor; eexists;
        (split; [reflexivity|split; reflexivity]).
  - repeat constructor; cbn; lia.
Defined.

(** *** eduroam-sp *)

(** A user bucket under a station: the user, the realm buckets and the
    histogram of minutes. *)
Record userSlots := mkUserSlots {
  slotUser : string;
  slotRealms : list string;
  slotMinutes : list (Z * Z) }.

Record stationRow := mkStationRow {
  rowStation : string;
  rowDocs : Z;
  rowUsers : list userSlots }.

Definition slotsShaped (bucket : value) (user : userSlots) : Prop :=
  ∃ m rbs tbs,
    bucket = Object m
    ∧ m !! "key" = Some (Str (slotUser user))
    ∧ subBuckets m "by_realm" rbs ∧ Forall2 keyed rbs (slotRealms user)
    ∧ subBuckets m "auth_times" tbs ∧ Forall2 slot tbs (slotMinutes user).

Definition stationShaped (bucket : value) (row : stationRow) : Prop :=
  ∃ m ubs,
    bucket = Object m
    ∧ m !! "key" = Some (Str (rowStation row))
    ∧ m !! "doc_count" = Some (Number (rowDocs row))
    ∧ subBuckets m "by_user" ubs ∧ Forall2 slotsShaped ubs (rowUsers row).

Definition exactStation (row : stationRow) : Prop :=
  exactCount (rowDocs row)
  ∧ Forall (λ user, Forall exactSlot (slotMinutes user)) (rowUsers row).

(** What an entry says whatever the local zone: the user, the realm,
    the provider, the station and the Unix second. *)
Definition spView (e : SP.LogEntry) : string * string * string * string * Z :=
  (SP.Username e, SP.Realm e, SP.ServiceProvider e, SP.StationID e,
   Unix (SP.Timestamp e)).

(** One entry for every minute of the user's histogram that holds a
    document, under the first realm; none for a user without a realm
    bucket. *)
Definition slotViews (stationID : string) (user : userSlots)
  : list (string * string * string * string * Z) :=
  match slotRealms user with
  | [] => []
  | realm :: _ =>
      map (λ ck, (slotUser user, realm, "", stationID, keySecond ck))
          (active (slotMinutes user))
  end.

Definition stationViews (row : stationRow)
  : list (string * string * string * string * Z) :=
  concat (map (slotViews (rowStation row)) (rowUsers row)).

Definition slotEntries (rt : Runtime) (stationID : string) (user : userSlots)
  : list SP.LogEntry :=
  match slotRealms user with
  | [] => []
  | realm :: _ =>
      map (λ ck, SP.mkLogEntry (slotUser user) realm "" stationID (instantOf rt ck))
          (active (slotMinutes user))
  end.

Definition stationEntriesOf (rt : Runtime) (row : stationRow) : list SP.LogEntry :=
  concat (map (slotEntries rt (rowStation row)) (rowUsers row)).

Lemma processUserAuthTimes_shaped rt m username realm stationID tbs minutes :
  subBuckets m "auth_times" tbs → Forall2 slot tbs minutes →
  SP.processUserAuthTimes rt m username realm stationID
  = Done (map (λ ck, SP.mkLogEntry username realm "" stationID (instantOf rt ck))
              (active minutes)).
Proof.
  intros Htimes Hslots. unfold SP.processUserAuthTimes.
  destruct (subBuckets_member _ _ _ Htimes) as (agg & Hagg & Hvs).
  rewrite Hagg. cbv beta iota. rewrite Hvs. unfold active.
  rewrite <- concat_map_singleton_filter.
  apply (sp_concatRun_shaped _ slot); [done|].
  intros v [c k] (b & -> & Hc & Hk). unfold member.
  cbn [asObject fst snd] in *. rewrite Hc, Hk.
  cbn [from_option id mustNumber mbind run_bind].
  destruct (Z.eqb_spec c 0) as [->|Hne].
  - by rewrite decide_False by (intros ?; done).
  - by rewrite decide_True by done.
Qed.

Lemma processStationBucket_shaped rt bucket row :
  stationShaped bucket row →
  ∃ m, bucket = Object m
       ∧ SP.processStationBucket rt m (rowStation row) = Done (stationEntriesOf rt row).
Proof.
  intros (m & ubs & -> & Hkey & Hcount & Husers & Hubs).
  exists m. split; [done|]. unfold SP.processStationBucket.
  destruct (subBuckets_member _ _ _ Husers) as (agg & Hagg & Hvs).
  rewrite Hagg. cbv beta iota. rewrite Hvs.
  apply (sp_concatRun_shaped _ slotsShaped); [done|].
  intros v user (u & rbs & tbs & -> & Hu & Hrealm & Hrbs & Htimes & Htbs).
  cbn [asObject].
  replace (member u "key") with (Str (slotUser user))
    by (unfold member; by rewrite Hu).
  cbn [mustString mbind run_bind].
  destruct (subBuckets_member _ _ _ Hrealm) as (ragg & Hragg & Hrvs).
  rewrite Hragg. cbv beta iota. rewrite Hrvs. unfold slotEntries.
  destruct Hrbs as [|first realm rbs realms (b & -> & Hb) _]; [done|].
  cbn [asObject].
  replace (member b "key") with (Str realm) by (unfold member; by rewrite Hb).
  cbn [mustString mbind run_bind].
  by apply processUserAuthTimes_shaped with tbs.
Qed.

Lemma stationBuckets_shaped rt buckets rows : ∀ totalHits,
  Forall2 stationShaped buckets rows →
  SP.stationBuckets rt buckets totalHits
  = Done (fold_left (λ totalHits docCount, wrap64 (totalHits + docCount))
                    (map rowDocs rows) totalHits,
          concat (map (stationEntriesOf rt) rows)).
Proof.
  intros totalHits Hrows. revert totalHits.
  induction Hrows as [|bucket row buckets rows Hrow _ IH]; intros totalHits; [done|].
  destruct (processStationBucket_shaped rt bucket row Hrow) as (m & -> & Hout).
  destruct Hrow as (m' & ubs & [= <-] & Hkey & Hcount & _).
  cbn [SP.stationBuckets asObject]. unfold member. rewrite Hkey, Hcount.
  cbn [from_option id mustString mustNumber mbind run_bind]. cbv zeta.
  rewrite Hout. cbn [mbind run_bind]. rewrite IH. done.
Qed.

Lemma sp_processAggregations_shaped (rt : Runtime)
    (result aggs : gmap string value) (buckets : list value) (rows : list stationRow) :
  result !! "aggregations" = Some (Object aggs) →
  subBuckets aggs "by_station" buckets →
  Forall2 stationShaped buckets rows →
  SP.processAggregations rt result
  = Done (hits (map rowDocs rows), None, concat (map (stationEntriesOf rt) rows)).
Proof.
  intros Haggs Hstations Hrows. unfold SP.processAggregations.
  replace (member result "aggregations") with (Object aggs)
    by (unfold member; by rewrite Haggs).
  cbn [asObject].
  destruct (subBuckets_member _ _ _ Hstations) as (agg & Hagg & Hbuckets).
  rewrite Hagg. cbv beta iota. rewrite Hbuckets.
  by rewrite (stationBuckets_shaped rt buckets rows 0 Hrows).
Qed.

Lemma spView_stationEntriesOf rt row :
  map spView (stationEntriesOf rt row) = stationViews row.
Proof.
  unfold stationEntriesOf, stationViews. rewrite concat_map, map_map. f_equal.
  apply map_ext. intros user. unfold slotEntries, slotViews.
  destruct (slotRealms user) as [|realm realms]; [done|].
  rewrite map_map. apply map_ext. intros ck. unfold spView.
  cbn [SP.Username SP.Realm SP.ServiceProvider SP.StationID SP.Timestamp].
  by rewrite Unix_instantOf.
Qed.

(** X24. On a response of the shape the provider query asks for, whose
    numbers are whole, the counts up to 2^53 and the keys from 0 to
    10^15 milliseconds, [processAggregations] of eduroam-sp does not
    panic and returns no error; the hit count is the sum of the
    stations' [doc_count]; and for each user of a station it sends one
    entry for every minute of the user's histogram that holds a
    document, however many documents the minute holds, stamped with the
    second of the minute's key, under the key of the user's first realm
    bucket: further realm buckets are not read, and a user without a
    realm bucket sends nothing. *)
Theorem sp_response_one_entry_per_active_minute (rt : Runtime)
    (result aggs : gmap string value) (buckets : list value) (rows : list stationRow) :
  result !! "aggregations" = Some (Object aggs) →
  subBuckets aggs "by_station" buckets →
  Forall2 stationShaped buckets rows →
  Forall exactStation rows →
  ∃ out,
    SP.processAggregations rt result = Done (hits (map rowDocs rows), None, out)
    ∧ map spView out = concat (map stationViews rows).
Proof.
  intros Haggs Hstations Hrows _. exists (concat (map (stationEntriesOf rt) rows)).
  split; [by eapply sp_processAggregations_shaped|].
  rewrite concat_map, map_map. f_equal. apply map_ext. intros row.
  apply spView_stationEntriesOf.
Qed.

Definition minuteRealms : list value :=
  [obj [("key", Str "ku.ac.th"); ("doc_count", Number 6)];
   obj [("key", Str "KU.AC.TH"); ("doc_count", Number 1)]].
Definition minuteSlots : list value :=
  [obj [("key", Number 1728864000000); ("doc_count", Number 5)];
   obj [("key", Number 1728864060000); ("doc_count", Number 0)];
   obj [("key", Number 1728864120000); ("doc_count", Number 2)]].
Definition minuteUser : gmap string value :=
  list_to_map [("key", Str "alice@ku.ac.th"); ("doc_count", Number 7);
               ("by_realm", bucketsOf minuteRealms);
               ("auth_times", bucketsOf minuteSlots)].
Definition minuteStation : gmap string value :=
  list_to_map [("key", Str "AA-BB-CC-DD-EE-FF"); ("doc_count", Number 7);
               ("by_user", bucketsOf [Object minuteUser])].
Definition minuteAggs : gmap string value :=
  list_to_map [("by_station", bucketsOf [Object minuteStation])].
Definition minuteResponse : gmap string value :=
  list_to_map [("aggregations", Object minuteAggs)].

Lemma sp_response_one_entry_per_active_minute_witness :
  ∃ out,
    SP.processAggregations refRuntime minuteResponse = Done (7, None, out)
    ∧ map spView out
      = [("alice@ku.ac.th", "ku.ac.th", "", "AA-BB-CC-DD-EE-FF", 1728864000);
         ("alice@ku.ac.th", "ku.ac.th", "", "AA-BB-CC-DD-EE-FF", 1728864120)].
Proof.
  apply (sp_response_one_entry_per_active_minute refRuntime minuteResponse
           minuteAggs [Object minuteStation]
           [mkStationRow "AA-BB-CC-DD-EE-FF" 7
              [mkUserSlots "alice@ku.ac.th" ["ku.ac.th"; "KU.AC.TH"]
                 [(5, 1728864000000); (0, 1728864060000); (2, 1728864120000)]]]).
  - reflexivity.
  - exists (list_to_map [("buckets", Array [Object minuteStation])]).
    split; reflexivity.
  - constructor; [|constructor]. exists minuteStation, [Object minuteUser].
    split_and!; [reflexivity|reflexivity|reflexivity| |].
    + exists (list_to_map [("buckets", Array [Object minuteUser])]).
      split; reflexivity.
    + constructor; [|constructor]. exists minuteUser, minuteRealms, minuteSlots.
      split_and!; [reflexivity|reflexivity| | | |].
      * exists (list_to_map [("buckets", Array minuteRealms)]).
        split; reflexivity.
      * repeat constructor; eexists; (split; [reflexivity|reflexivity]).
      * exists (list_to_map [("buckets", Array minuteSlots)]).
        split; reflexivity.
      * repeat constructor; eexists;
          (split; [reflexivity|split; reflexivity]).
  - repeat constructor; cbn; lia.
Defined.
